(** * DeepSea drive groups: the disk matchers of [srv/modules/runners/disks.py]

    A shallow embedding of the matcher family ([Matcher], [SubstringMatcher],
    [EqualityMatcher], [SizeMatcher]) and of the device selection of
    [DriveGroup] ([_filter_devices], [_check_filter], [_assign_matchers],
    [_reduce_inventory]), followed by the properties the specification states
    about them.

    Conventions of the embedding:
    - a Python [str] is a Rocq [string]; its characters are the code points
      below 256, on which [\d] is [0-9] exactly;
    - a Python [float] is a binary64 primitive float, so [*], [<=], [>=] and
      [==] are the IEEE operations Python performs;
    - a [dict] read with [.get] is a [gmap string pyval]; a [dict] that is
      iterated (a role's filters) is an association list in insertion order;
    - a [set] of device paths is a [gset string];
    - raising is the [Raise] case of [result]; a function that falls off its
      end returns [PNone]. *)

From Stdlib Require Import ZArith Ascii String List Bool Lia.
From Stdlib Require Import PrimFloat SpecFloat FloatOps.
From Stdlib Require FloatAxioms QArith.
From stdpp Require Import base option list strings gmap pretty.

Open Scope string_scope.
Open Scope Z_scope.

(** ** Python values and exceptions *)

(** The scalar values a disk attribute or a filter value can hold (JSON
    scalars; the one float-valued field of [ceph-volume inventory],
    [sys_api.size], is only copied into [bare_size] and never inspected by a
    matcher, so numbers are integers here). *)
Inductive pyval :=
| PNone
| PBool (b : bool)
| PInt (z : Z)
| PStr (s : string).

(** A dict read by key. *)
Abbreviation pydict := (gmap string pyval).

(** One entry of [ceph-volume inventory --format json], by the three keys the
    selector reads: [disk["available"]] ([None] here when the key is missing),
    [disk.get("path")] ([None] when missing or null) and
    [disk.get("sys_api", {})] ([None] when missing). *)
Record disk := {
  available : option pyval;
  path : option string;
  sys_api : option pydict
}.

Inductive exn :=
| Exception (msg : string)
| ExceptionNoPath (d : disk)
    (* Exception("Disk {} doesn't have a 'path' identifier".format(disk)) *)
| NoMatcherFound (msg : string)
| FilterNotSupported (msg : string)
| KeyError (key : string)
| TypeError (msg : string)
| AttributeError (msg : string)
| IndexError (msg : string)
| ValueError (msg : string).

Inductive result (A : Type) :=
| Ok (a : A)
| Raise (e : exn).
Arguments Ok {A} a.
Arguments Raise {A} e.

Definition bind {A B} (r : result A) (k : A -> result B) : result B :=
  match r with
  | Ok a => k a
  | Raise e => Raise e
  end.

Notation "x <- r ;; k" := (bind r (fun x => k))
  (at level 100, r at next level, right associativity).
Notation "r ;;; k" := (bind r (fun _ => k))
  (at level 100, right associativity).

(** [bool(v)]. *)
Definition truthy (v : pyval) : bool :=
  match v with
  | PNone => false
  | PBool b => b
  | PInt z => negb (z =? 0)
  | PStr s => negb (String.eqb s "")
  end.

(** [bool(s)] for a value that is a [str] or [None]. *)
Definition truthy_opt (o : option string) : bool :=
  match o with
  | None => false
  | Some s => negb (String.eqb s "")
  end.

(** [str(v)], also what ["{}".format(v)] inserts. *)
Definition py_str (v : pyval) : string :=
  match v with
  | PNone => "None"
  | PBool true => "True"
  | PBool false => "False"
  | PInt z => pretty z
  | PStr s => s
  end.

Definition py_str_opt (o : option string) : string :=
  match o with
  | None => "None"
  | Some s => s
  end.

(** [a in b] on strings. *)
Fixpoint py_in (a b : string) : bool :=
  String.prefix a b ||
  match b with
  | EmptyString => false
  | String _ b' => py_in a b'
  end.

(** ** Characters *)

Definition is_digit (a : ascii) : bool :=
  let n := N_of_ascii a in ((48 <=? n) && (n <=? 57))%N.

Definition is_upper (a : ascii) : bool :=
  let n := N_of_ascii a in ((65 <=? n) && (n <=? 90))%N.

Definition is_lower (a : ascii) : bool :=
  let n := N_of_ascii a in ((97 <=? n) && (n <=? 122))%N.

Definition is_letter (a : ascii) : bool := is_upper a || is_lower a.

(** The whitespace [int()] strips. *)
Definition is_space (a : ascii) : bool :=
  let n := N_of_ascii a in
  ((9 <=? n) && (n <=? 13) || (28 <=? n) && (n <=? 32) || (n =? 133) || (n =? 160))%N.

(** ** The regular expressions of the module

    The patterns the module hands to [re.match] and [re.findall] are
    sequences of a character class taken once or greedily one or more times,
    with [^] and [$]. [match_here] is the backtracking matcher on that
    fragment: [+] takes the longest run first and gives characters back. *)

Inductive cclass :=
| Digit                (* \d *)
| Upper                (* [A-Z] *)
| Letter               (* [a-zA-Z] *)
| Lit (a : ascii).

Inductive quant := One | Plus.

Inductive item :=
| Atom (c : cclass) (q : quant)
| Bol                  (* ^ *)
| Eol.                 (* $ *)

Definition regex := list item.

Definition in_class (c : cclass) (a : ascii) : bool :=
  match c with
  | Digit => is_digit a
  | Upper => is_upper a
  | Letter => is_letter a
  | Lit b => Ascii.eqb a b
  end.

(** [$] matches at the end of the string and before a newline that ends it. *)
Definition at_end (s : string) : bool :=
  match s with
  | EmptyString => true
  | String a EmptyString => Ascii.eqb a "010"%char
  | _ => false
  end.

Definition cons_match (a : ascii) (r : option (string * string)) : option (string * string) :=
  match r with
  | Some (m, rest) => Some (String a m, rest)
  | None => None
  end.

(** The match of [r] that starts at the head of [s]: the matched text and
    what follows it. [start] says whether the head of [s] is the start of
    the subject. *)
Fixpoint match_here (r : regex) (start : bool) (s : string) : option (string * string) :=
  match r with
  | [] => Some ("", s)
  | Bol :: r' => if start then match_here r' start s else None
  | Eol :: r' => if at_end s then match_here r' start s else None
  | Atom c One :: r' =>
      match s with
      | String a s' => if in_class c a then cons_match a (match_here r' false s') else None
      | EmptyString => None
      end
  | Atom c Plus :: r' =>
      (fix plus (s : string) : option (string * string) :=
         match s with
         | String a s' =>
             if in_class c a then
               match plus s' with
               | Some (m, rest) => Some (String a m, rest)
               | None => cons_match a (match_here r' false s')
               end
             else None
         | EmptyString => None
         end) s
  end.

(** [re.match(r, s)]: the group of the match, or [None]. *)
Definition re_match (r : regex) (s : string) : option string :=
  fst <$> match_here r true s.

(** [re.findall(r, s)], scanning left to right; after a match the scan
    resumes behind it ([skip] counts the characters still to pass). *)
Fixpoint findall_from (r : regex) (start : bool) (skip : nat) (s : string) : list string :=
  match s with
  | EmptyString =>
      match skip with
      | O => match match_here r start s with Some (m, _) => [m] | None => [] end
      | S _ => []
      end
  | String _ s' =>
      match skip with
      | S k => findall_from r false k s'
      | O =>
          match match_here r start s with
          | Some (m, _) => m :: findall_from r false (String.length m - 1) s'
          | None => findall_from r false 0 s'
          end
      end
  end.

Definition re_findall (r : regex) (s : string) : list string :=
  findall_from r true 0 s.

(** The patterns, as the module writes them. *)
Definition re_digits : regex := [Atom Digit Plus].                      (* \d+ *)
Definition re_letters : regex := [Atom Letter Plus].                    (* [a-zA-Z]+ *)
Definition re_decimal : regex :=                                        (* \d+\.\d+ *)
  [Atom Digit Plus; Atom (Lit ".") One; Atom Digit Plus].
Definition re_low_high : regex :=                                       (* \d+[A-Z]:\d+[A-Z] *)
  [Atom Digit Plus; Atom Upper One; Atom (Lit ":") One; Atom Digit Plus; Atom Upper One].
Definition re_low : regex :=                                            (* \d+[A-Z]:$ *)
  [Atom Digit Plus; Atom Upper One; Atom (Lit ":") One; Eol].
Definition re_high : regex :=                                           (* ^:\d+[A-Z] *)
  [Bol; Atom (Lit ":") One; Atom Digit Plus; Atom Upper One].
Definition re_exact : regex :=                                          (* ^\d+[A-Z]$ *)
  [Bol; Atom Digit Plus; Atom Upper One; Eol].

(** ** [float()] and [int()] on the strings the module passes to them *)

(** The value of a digit string, continuing from [acc]. *)
Fixpoint digits_value (acc : Z) (s : string) : option Z :=
  match s with
  | EmptyString => Some acc
  | String a s' =>
      if is_digit a then digits_value (10 * acc + (Z.of_N (N_of_ascii a) - 48)) s'
      else None
  end.

(** The text before the first ["."], and the text after it when there is one. *)
Fixpoint split_dot (s : string) : string * option string :=
  match s with
  | EmptyString => ("", None)
  | String a s' =>
      if Ascii.eqb a "."%char then ("", Some s')
      else let '(i, f) := split_dot s' in (String a i, f)
  end.

(** The binary64 nearest to [n / d] (ties to even), for [0 <= n] and [0 < d]:
    the quotient is taken at the exponent that leaves 53 bits (or at the
    smallest exponent of the format) and rounded on the remainder. *)
Definition float_of_ratio (n d : Z) : float :=
  if n =? 0 then zero else
  let quo e := if 0 <=? e then n / (d * 2 ^ e) else (n * 2 ^ (- e)) / d in
  let e0 := Z.log2 n - Z.log2 d - 52 in
  let e1 := if quo e0 <? 2 ^ 52 then e0 - 1 else e0 in
  let e := Z.max e1 (-1074) in
  let num := if 0 <=? e then n else n * 2 ^ (- e) in
  let den := if 0 <=? e then d * 2 ^ e else d in
  let q := num / den in
  let r := num mod den in
  let q' := if (den <? 2 * r) || ((den =? 2 * r) && Z.odd q) then q + 1 else q in
  match q' with
  | Zpos p => SF2Prim (S754_finite false p e)
  | _ => zero
  end.

(** [float(s)] for [s] a run of digits, with or without a fractional part:
    the two forms the patterns [\d+] and [\d+\.\d+] extract. The conversion
    is the correctly rounded one. *)
Definition py_float (s : string) : result float :=
  let bad := Raise (ValueError ("could not convert string to float: " ++ s)) in
  match split_dot s with
  | (i, None) =>
      if String.eqb i "" then bad else
      match digits_value 0 i with
      | Some n => Ok (float_of_ratio n 1)
      | None => bad
      end
  | (i, Some f) =>
      if String.eqb i "" || String.eqb f "" then bad else
      match digits_value 0 (i ++ f) with
      | Some n => Ok (float_of_ratio n (10 ^ Z.of_nat (String.length f)))
      | None => bad
      end
  end.

(** [int(s)] on a string: surrounding whitespace, a sign, then digits with
    single underscores between them. *)
Fixpoint int_digits (acc : Z) (after_digit : bool) (l : list ascii) : option Z :=
  match l with
  | [] => if after_digit then Some acc else None
  | a :: l' =>
      if is_digit a then int_digits (10 * acc + (Z.of_N (N_of_ascii a) - 48)) true l'
      else if Ascii.eqb a "_"%char && after_digit then
        match l' with
        | [] => None
        | b :: _ => if is_digit b then int_digits acc false l' else None
        end
      else None
  end.

Fixpoint lstrip (l : list ascii) : list ascii :=
  match l with
  | a :: l' => if is_space a then lstrip l' else l
  | [] => []
  end.

Definition strip (l : list ascii) : list ascii := rev (lstrip (rev (lstrip l))).

Definition py_int_str (s : string) : option Z :=
  match strip (list_ascii_of_string s) with
  | a :: l =>
      if Ascii.eqb a "-"%char then Z.opp <$> int_digits 0 false l
      else if Ascii.eqb a "+"%char then int_digits 0 false l
      else int_digits 0 false (a :: l)
  | [] => None
  end.

(** [int(v)]. *)
Definition py_int (v : pyval) : result Z :=
  match v with
  | PNone =>
      Raise (TypeError "int() argument must be a string, a bytes-like object or a real number, not 'NoneType'")
  | PBool b => Ok (Z.b2z b)
  | PInt z => Ok z
  | PStr s =>
      match py_int_str s with
      | Some z => Ok z
      | None => Raise (ValueError ("invalid literal for int() with base 10: " ++ s))
      end
  end.

(** [l[0]]. *)
Definition index0 {A} (l : list A) : result A :=
  match l with
  | x :: _ => Ok x
  | [] => Raise (IndexError "list index out of range")
  end.

(** [re.findall(r, v)], which accepts a [str] only. *)
Definition py_findall (r : regex) (v : pyval) : result (list string) :=
  match v with
  | PStr s => Ok (re_findall r s)
  | _ => Raise (TypeError "expected string or bytes-like object")
  end.

(** [re.match(r, v)]. *)
Definition py_match (r : regex) (v : pyval) : result (option string) :=
  match v with
  | PStr s => Ok (re_match r s)
  | _ => Raise (TypeError "expected string or bytes-like object")
  end.

(** [s.split(":")]. *)
Fixpoint split_colon (s : string) : list string :=
  match s with
  | EmptyString => [""]
  | String a s' =>
      if Ascii.eqb a ":"%char then "" :: split_colon s'
      else match split_colon s' with
           | x :: l => String a x :: l
           | [] => [String a ""]
           end
  end.

(** ** class Matcher *)

(** The fields [Matcher.__init__] sets. [virtual] is what [_virtual()]
    found in the hosts' grains; it is an input here. *)
Record Matcher := {
  attr : pyval;
  key : string;
  fallback_key : option string;
  virtual : bool
}.

Definition Matcher_init (virt : bool) (attr : pyval) (key : string) : Matcher :=
  {| attr := attr; key := key; fallback_key := None; virtual := virt |}.

(** [dict.get(k)]. *)
Definition dict_get (d : pydict) (k : string) : pyval := default PNone (d !! k).

(** [dict.get(k, dflt)]. *)
Definition dict_get_default (d : pydict) (k : string) (dflt : pyval) : pyval :=
  default dflt (d !! k).

(** [Matcher._get_disk_key]. The argument is the reduced disk, or [None]
    when [_reduce_inventory] returned nothing. In a virtual environment the
    method logs and falls off its end, so it returns [None]. *)
Definition _get_disk_key (self : Matcher) (disk : option pydict) : result pyval :=
  match disk with
  | None => Raise (AttributeError "'NoneType' object has no attribute 'get'")
  | Some d =>
      let disk_key := dict_get d (key self) in
      let disk_key :=
        if negb (truthy disk_key) && truthy_opt (fallback_key self)
        then dict_get d (py_str_opt (fallback_key self))
        else disk_key in
      if truthy disk_key then Ok disk_key
      else if virtual self then Ok PNone
      else Raise (Exception ("No disk_key found for " ++ key self ++ " or "
                             ++ py_str_opt (fallback_key self)))
  end.

(** ** class SubstringMatcher *)

Definition SubstringMatcher_init (virt : bool) (attr : pyval) (key : string)
    (fallback_key : option string) : Matcher :=
  {| attr := attr; key := key; fallback_key := fallback_key; virtual := virt |}.

Definition SubstringMatcher_compare (self : Matcher) (disk : option pydict) : result pyval :=
  disk_key <- _get_disk_key self disk ;;
  if py_in (py_str (attr self)) (py_str disk_key) then Ok (PBool true)
  else Ok (PBool false).

(** ** class EqualityMatcher *)

Definition EqualityMatcher_init (virt : bool) (attr : pyval) (key : string) : Matcher :=
  Matcher_init virt attr key.

Definition EqualityMatcher_compare (self : Matcher) (disk : option pydict) : result pyval :=
  disk_key <- _get_disk_key self disk ;;
  a <- py_int disk_key ;;
  b <- py_int (attr self) ;;
  if a =? b then Ok (PBool true) else Ok (PBool false).

(** ** class SizeMatcher *)

Record SizeMatcher := {
  base : Matcher;
  _high : option string;
  _high_suffix : option string;
  _low : option string;
  _low_suffix : option string;
  _exact : option string;
  _exact_suffix : option string
}.

(** The properties [low], [high] and [exact]: each reads a pair. *)
Definition low (self : SizeMatcher) : option string * option string :=
  (_low self, _low_suffix self).
Definition high (self : SizeMatcher) : option string * option string :=
  (_high self, _high_suffix self).
Definition exact (self : SizeMatcher) : option string * option string :=
  (_exact self, _exact_suffix self).

(** Their setters. *)
Definition set_low (self : SizeMatcher) (v : string * string) : SizeMatcher :=
  {| base := base self; _high := _high self; _high_suffix := _high_suffix self;
     _low := Some (fst v); _low_suffix := Some (snd v);
     _exact := _exact self; _exact_suffix := _exact_suffix self |}.
Definition set_high (self : SizeMatcher) (v : string * string) : SizeMatcher :=
  {| base := base self; _high := Some (fst v); _high_suffix := Some (snd v);
     _low := _low self; _low_suffix := _low_suffix self;
     _exact := _exact self; _exact_suffix := _exact_suffix self |}.
Definition set_exact (self : SizeMatcher) (v : string * string) : SizeMatcher :=
  {| base := base self; _high := _high self; _high_suffix := _high_suffix self;
     _low := _low self; _low_suffix := _low_suffix self;
     _exact := Some (fst v); _exact_suffix := Some (snd v) |}.

Definition supported_suffixes : list string := ["MB"; "GB"; "TB"; "M"; "G"; "T"].

Definition _normalize_suffix (suffix : string) : result string :=
  if negb (existsb (String.eqb suffix) supported_suffixes) then
    Raise (Exception ("Unit " ++ suffix ++ " not supported"))
  else if String.eqb suffix "G" then Ok "GB"
  else if String.eqb suffix "T" then Ok "TB"
  else if String.eqb suffix "M" then Ok "MB"
  else Ok suffix.

Definition _parse_suffix (obj : pyval) : result string :=
  found <- py_findall re_letters obj ;;
  suffix <- index0 found ;;
  _normalize_suffix suffix.

Definition _get_k_v (data : pyval) : result (string * string) :=
  found <- py_findall re_digits data ;;
  k <- index0 found ;;
  v <- _parse_suffix data ;;
  Ok (k, v).

(** [bool(t)] of a pair: a tuple of two elements is never empty. *)
Definition tuple_truthy {A B} (t : A * B) : bool := true.

(** [all(t)] of a pair of [str]-or-[None]. *)
Definition all_pair (t : option string * option string) : bool :=
  truthy_opt (fst t) && truthy_opt (snd t).

(** [SizeMatcher._parse_filter], threading [self] through the four tries. *)
Definition _parse_filter (self : SizeMatcher) : result SizeMatcher :=
  low_high <- py_match re_low_high (attr (base self)) ;;
  self <- match low_high with
          | Some g =>
              match split_colon g with
              | [lo; hi] =>
                  kv <- _get_k_v (PStr lo) ;;
                  let self := set_low self kv in
                  kv <- _get_k_v (PStr hi) ;;
                  Ok (set_high self kv)
              | _ => Raise (ValueError "wrong number of values to unpack")
              end
          | None => Ok self
          end ;;
  lo <- py_match re_low (attr (base self)) ;;
  self <- match lo with
          | Some g => kv <- _get_k_v (PStr g) ;; Ok (set_low self kv)
          | None => Ok self
          end ;;
  hi <- py_match re_high (attr (base self)) ;;
  self <- match hi with
          | Some g => kv <- _get_k_v (PStr g) ;; Ok (set_high self kv)
          | None => Ok self
          end ;;
  ex <- py_match re_exact (attr (base self)) ;;
  self <- match ex with
          | Some g => kv <- _get_k_v (PStr g) ;; Ok (set_exact self kv)
          | None => Ok self
          end ;;
  if negb (tuple_truthy (low self)) && negb (tuple_truthy (high self))
     && negb (tuple_truthy (exact self))
  then Raise (Exception ("Couldn't parse " ++ py_str (attr (base self))))
  else Ok self.

(** [SizeMatcher.__init__]: the key given is replaced by
    ["human_readable_size"] with fallback ["size"]. *)
Definition SizeMatcher_init (virt : bool) (attr : pyval) (key : string) : result SizeMatcher :=
  let m := Matcher_init virt attr key in
  let m := {| attr := attr; key := "human_readable_size";
              fallback_key := Some "size"; virtual := virtual m |} in
  _parse_filter {| base := m; _high := None; _high_suffix := None;
                   _low := None; _low_suffix := None;
                   _exact := None; _exact_suffix := None |}.

(** What [float()] is applied to in [to_byte]: the device's size, already a
    float, or a filter's digits (a [str], [None] when the bound is not set). *)
Inductive float_arg :=
| OfFloat (f : float)
| OfStr (s : option string).

Definition py_float_arg (a : float_arg) : result float :=
  match a with
  | OfFloat f => Ok f
  | OfStr (Some s) => py_float s
  | OfStr None =>
      Raise (TypeError "float() argument must be a string or a real number, not 'NoneType'")
  end.

(** [SizeMatcher.to_byte]; no value is returned for another suffix. *)
Definition to_byte (tpl : float_arg * option string) : result (option float) :=
  value <- py_float_arg (fst tpl) ;;
  let suffix := snd tpl in
  if decide (suffix = Some "MB") then Ok (Some (value * 1e6)%float)
  else if decide (suffix = Some "GB") then Ok (Some (value * 1e9)%float)
  else if decide (suffix = Some "TB") then Ok (Some (value * 1e12)%float)
  else Ok None.

Definition bound (t : option string * option string) : float_arg * option string :=
  (OfStr (fst t), snd t).

(** [a <= b] on what [to_byte] returns: ordering against [None] raises. *)
Definition py_le (a b : option float) : result bool :=
  match a, b with
  | Some x, Some y => Ok (x <=? y)%float
  | _, _ => Raise (TypeError "'<=' not supported between instances of 'float' and 'NoneType'")
  end.

(** [a >= b]. *)
Definition py_ge (a b : option float) : result bool :=
  match a, b with
  | Some x, Some y => Ok (y <=? x)%float
  | _, _ => Raise (TypeError "'>=' not supported between instances of 'float' and 'NoneType'")
  end.

(** [a == b]. *)
Definition py_eq (a b : option float) : bool :=
  match a, b with
  | Some x, Some y => (x =? y)%float
  | None, None => true
  | _, _ => false
  end.

(** The value of [if c: return True] followed by falling off the end. *)
Definition true_or_none (c : bool) : pyval := if c then PBool true else PNone.

Definition SizeMatcher_compare (self : SizeMatcher) (disk : option pydict) : result pyval :=
  disk_key <- _get_disk_key (base self) disk ;;
  found <- py_findall re_decimal disk_key ;;
  first <- index0 found ;;
  disk_size <- py_float first ;;
  disk_suffix <- _parse_suffix disk_key ;;
  disk_size_in_byte <- to_byte (OfFloat disk_size, Some disk_suffix) ;;
  if all_pair (high self) && all_pair (low self) then
    hi <- to_byte (bound (high self)) ;;
    c1 <- py_le disk_size_in_byte hi ;;
    if c1 then
      lo <- to_byte (bound (low self)) ;;
      c2 <- py_ge disk_size_in_byte lo ;;
      Ok (true_or_none c2)
    else Ok PNone
  else if all_pair (low self) && negb (all_pair (high self)) then
    lo <- to_byte (bound (low self)) ;;
    c <- py_ge disk_size_in_byte lo ;;
    Ok (true_or_none c)
  else if all_pair (high self) && negb (all_pair (low self)) then
    hi <- to_byte (bound (high self)) ;;
    c <- py_le disk_size_in_byte hi ;;
    Ok (true_or_none c)
  else if all_pair (exact self) then
    ex <- to_byte (bound (exact self)) ;;
    Ok (true_or_none (py_eq disk_size_in_byte ex))
  else Raise (Exception "No filters applied").

(** ** class DriveGroup *)

(** A matcher object of one of the three subclasses. *)
Inductive matcher :=
| Substring (m : Matcher)
| Equality (m : Matcher)
| Size (m : SizeMatcher).

(** A role's filters ([data_devices], [wal_devices], [db_devices] of the
    pillar): a dict iterated in insertion order. *)
Definition filter_map := list (string * pyval).

Record DriveGroup := {
  target : string;
  data_device_attrs : filter_map;
  wal_devices_attrs : filter_map;
  db_devices_attrs : filter_map;
  inventory : list disk;
  grains_virtual : bool       (* what [Matcher._virtual] will find *)
}.

Definition _supported_filters : list string := ["size"; "vendor"; "model"; "rotates"].

Fixpoint _check_filter (attr : filter_map) : result unit :=
  match attr with
  | [] => Ok tt
  | (applied_filter, _) :: rest =>
      if negb (existsb (String.eqb applied_filter) _supported_filters) then
        Raise (FilterNotSupported ("Filter " ++ applied_filter ++ " is not supported"))
      else _check_filter rest
  end.

Definition _check_filter_support (self : DriveGroup) : result unit :=
  _check_filter (data_device_attrs self) ;;;
  _check_filter (wal_devices_attrs self) ;;;
  _check_filter (db_devices_attrs self).

(** [DriveGroup.__init__], from what the pillar and the inventory call
    returned: the object exists only when [_check_filter_support] passed. *)
Definition DriveGroup_init (target : string) (data wal db : filter_map)
    (inv : list disk) (virt : bool) : result DriveGroup :=
  let self := {| target := target; data_device_attrs := data;
                 wal_devices_attrs := wal; db_devices_attrs := db;
                 inventory := inv; grains_virtual := virt |} in
  _check_filter_support self ;;;
  Ok self.

Definition _assign_matchers (virt : bool) (filter_name : string) (filter_value : pyval)
    : result matcher :=
  if String.eqb filter_name "size" then
    (z <- SizeMatcher_init virt filter_value filter_name ;; Ok (Size z))
  else if String.eqb filter_name "model" then
    Ok (Substring (SubstringMatcher_init virt filter_value filter_name None))
  else if String.eqb filter_name "vendor" then
    Ok (Substring (SubstringMatcher_init virt filter_value filter_name None))
  else if String.eqb filter_name "rotates" then
    Ok (Equality (EqualityMatcher_init virt filter_value filter_name))
  else
    Raise (NoMatcherFound ("No Matcher found for " ++ filter_name ++ ":"
                           ++ py_str filter_value)).

(** [matcher.compare(disk)], by the class of [matcher]. *)
Definition compare (m : matcher) (disk : option pydict) : result pyval :=
  match m with
  | Substring s => SubstringMatcher_compare s disk
  | Equality e => EqualityMatcher_compare e disk
  | Size z => SizeMatcher_compare z disk
  end.

(** [DriveGroup.__match]. *)
Definition __match (disk : option pydict) (m : matcher) : result pyval :=
  compare m disk.

Definition opt_str (o : option string) : pyval :=
  match o with
  | Some s => PStr s
  | None => PNone
  end.

(** [DriveGroup._reduce_inventory]: a reduced disk when [disk["available"]]
    is the object [False], and nothing (so [None]) otherwise. With [sys_api]
    a dict the reads inside [try] cannot fail. *)
Definition _reduce_inventory (d : disk) : result (option pydict) :=
  match available d with
  | None => Raise (KeyError "available")
  | Some (PBool false) =>
      let sys := default ∅ (sys_api d) in
      let reduced_disk : pydict := {[ "path" := opt_str (path d) ]} in
      let reduced_disk :=
        <["size" := dict_get_default sys "human_readable_size" (PStr "")]> reduced_disk in
      let reduced_disk := <["vendor" := dict_get_default sys "vendor" (PStr "")]> reduced_disk in
      let reduced_disk := <["bare_size" := dict_get_default sys "size" (PStr "")]> reduced_disk in
      let reduced_disk := <["model" := dict_get_default sys "model" (PStr "")]> reduced_disk in
      Ok (Some reduced_disk)
  | Some _ => Ok None
  end.

(** The inner loop of [_filter_devices]: one matcher over the inventory. *)
Fixpoint scan_inventory (m : matcher) (inv : list disk) (devices : gset string)
    : result (gset string) :=
  match inv with
  | [] => Ok devices
  | d :: rest =>
      reduced <- _reduce_inventory d ;;
      verdict <- __match reduced m ;;
      if negb (truthy verdict) then scan_inventory m rest devices
      else if truthy_opt (path d) then
        scan_inventory m rest ({[ py_str_opt (path d) ]} ∪ devices)
      else Raise (ExceptionNoPath d)
  end.

(** The outer loop: one matcher per entry of the filter dict. *)
Fixpoint filter_loop (virt : bool) (inv : list disk) (device_filter : filter_map)
    (devices : gset string) : result (gset string) :=
  match device_filter with
  | [] => Ok devices
  | (name, val) :: rest =>
      m <- _assign_matchers virt name val ;;
      devices <- scan_inventory m inv devices ;;
      filter_loop virt inv rest devices
  end.

Definition _filter_devices (self : DriveGroup) (device_filter : filter_map)
    : result (gset string) :=
  filter_loop (grains_virtual self) (inventory self) device_filter ∅.

Definition data_devices (self : DriveGroup) : result (gset string) :=
  _filter_devices self (data_device_attrs self).
Definition wal_devices (self : DriveGroup) : result (gset string) :=
  _filter_devices self (wal_devices_attrs self).
Definition db_devices (self : DriveGroup) : result (gset string) :=
  _filter_devices self (db_devices_attrs self).

(** ** Vocabulary of the statements *)

(** Every character of [s] satisfies [p]. *)
Fixpoint forallb_str (p : ascii -> bool) (s : string) : bool :=
  match s with
  | EmptyString => true
  | String a s' => p a && forallb_str p s'
  end.

(** A non-empty run of characters of the class [p]. *)
Definition is_run (p : ascii -> bool) (s : string) : bool :=
  negb (String.eqb s "") && forallb_str p s.

(** The texts a pattern describes; the anchors constrain the position of a
    match, not its text. *)
Fixpoint denote (r : regex) (m : string) : Prop :=
  match r with
  | [] => m = ""
  | Atom c One :: r' => exists a m', m = String a m' /\ in_class c a = true /\ denote r' m'
  | Atom c Plus :: r' =>
      exists run m', m = run ++ m' /\ is_run (in_class c) run = true /\ denote r' m'
  | Bol :: r' => denote r' m
  | Eol :: r' => denote r' m
  end.

(** [s] contains a substring of the form <digits>.<digits>. *)
Definition has_decimal (s : string) : Prop :=
  exists pre d1 d2 post,
    s = pre ++ d1 ++ "." ++ d2 ++ post /\
    is_run is_digit d1 = true /\ is_run is_digit d2 = true.

(** The same, decided: a digit, a point and a digit in a row. *)
Fixpoint has_decimalb (s : string) : bool :=
  match s with
  | String a (String b (String c _) as s') =>
      (is_digit a && Ascii.eqb b "."%char && is_digit c) || has_decimalb s'
  | _ => false
  end.

(** The base-class part of a matcher object. *)
Definition matcher_base (m : matcher) : Matcher :=
  match m with
  | Substring s => s
  | Equality e => e
  | Size z => base z
  end.

(** Neither the key nor the fallback key yields a value on [d]. *)
Definition no_value (self : Matcher) (d : pydict) : Prop :=
  truthy (dict_get d (key self)) = false /\
  (truthy_opt (fallback_key self) = true ->
   truthy (dict_get d (py_str_opt (fallback_key self))) = false).

(** The matcher of the filter [name: val] accepts the device [d]: the
    matcher is built, the device is reduced, and [compare] returns a true
    value. *)
Definition accepts (virt : bool) (name : string) (val : pyval) (d : disk) : Prop :=
  exists m r v,
    _assign_matchers virt name val = Ok m /\
    _reduce_inventory d = Ok r /\
    __match r m = Ok v /\
    truthy v = true.

(** The paths of the devices of [inv] that the filter [name: val] accepts:
    the match set of one filter. *)
Definition in_match_set (virt : bool) (inv : list disk) (name : string) (val : pyval)
    (p : string) : Prop :=
  exists d, d ∈ inv /\ accepts virt name val d /\ path d = Some p.

(** The range a size filter stands for, in the words of the specification:
    a pair of bounds, one bound, or an exact value, each a number of units. *)
Inductive SizeRange :=
| Bounded (lo hi : string * string)
| LowOnly (lo : string * string)
| HighOnly (hi : string * string)
| ExactSize (ex : string * string).

Definition pair_of (t : option string * option string) : option (string * string) :=
  match t with
  | (Some v, Some u) => Some (v, u)
  | _ => None
  end.

(** The range held by a constructed [SizeMatcher], if any. *)
Definition range_of (self : SizeMatcher) : option SizeRange :=
  match pair_of (low self), pair_of (high self), pair_of (exact self) with
  | Some lo, Some hi, _ => Some (Bounded lo hi)
  | Some lo, None, _ => Some (LowOnly lo)
  | None, Some hi, _ => Some (HighOnly hi)
  | None, None, Some ex => Some (ExactSize ex)
  | None, None, None => None
  end.

(** Bytes of [value] units, in the words of the specification:
    MB = value x 10^6, GB = value x 10^9, TB = value x 10^12. *)
Definition unit_factor (u : string) : option float :=
  if String.eqb u "MB" then Some 1e6%float
  else if String.eqb u "GB" then Some 1e9%float
  else if String.eqb u "TB" then Some 1e12%float
  else None.

Definition bytes_of (value : float) (u : string) : option float :=
  (fun k => (value * k)%float) <$> unit_factor u.

(** Bytes of a bound written as digits and a unit. *)
Definition bound_bytes (b : string * string) : option float :=
  match py_float (fst b) with
  | Ok v => bytes_of v (snd b)
  | Raise _ => None
  end.

(** Whether a device of [device_bytes] bytes is in the range, in the words
    of the specification: both ends of a bounded range included, at least
    the low bound, at most the high bound, or equal to the exact value; no
    answer when a bound has no bytes. *)
Definition in_range (rng : SizeRange) (device_bytes : float) : option bool :=
  match rng with
  | Bounded lo hi =>
      match bound_bytes lo, bound_bytes hi with
      | Some low_bytes, Some high_bytes =>
          Some ((low_bytes <=? device_bytes)%float && (device_bytes <=? high_bytes)%float)
      | _, _ => None
      end
  | LowOnly lo =>
      match bound_bytes lo with
      | Some low_bytes => Some (low_bytes <=? device_bytes)%float
      | None => None
      end
  | HighOnly hi =>
      match bound_bytes hi with
      | Some high_bytes => Some (device_bytes <=? high_bytes)%float
      | None => None
      end
  | ExactSize ex =>
      match bound_bytes ex with
      | Some exact_bytes => Some (device_bytes =? exact_bytes)%float
      | None => None
      end
  end.

(** A device size of the form "<float> <unit>": digits, a point, digits, a
    space and one of the units of [supported_suffixes]. *)
Definition device_size (d1 d2 u : string) : string := d1 ++ "." ++ d2 ++ " " ++ u.

(** ** The inventory of the unit tests: three disks of 10, 20 and 30 GB *)

Definition sample_disk (p size model vendor rotational : string) (bare : Z) : disk :=
  {| available := Some (PBool false);
     path := Some p;
     sys_api := Some (<["human_readable_size" := PStr size]>
                      (<["model" := PStr model]>
                       (<["vendor" := PStr vendor]>
                        (<["rotational" := PStr rotational]>
                         (<["size" := PInt bare]> ∅))))) |}.

Definition sample_inventory : list disk :=
  [ sample_disk "/dev/vda" "10.00 GB" "modelA" "samsung" "1" 10474836480;
    sample_disk "/dev/vdb" "20.00 GB" "modelB" "intel" "0" 21474836480;
    sample_disk "/dev/vdc" "30.00 GB" "modelC" "micron" "1" 32474836480 ].

Definition sample_group (inv : list disk) (virt : bool) : DriveGroup :=
  {| target := "*"; data_device_attrs := []; wal_devices_attrs := [];
     db_devices_attrs := []; inventory := inv; grains_virtual := virt |}.

Definition two_filters : filter_map := [("size", PStr "10G"); ("model", PStr "modelB")].

Definition pathless_disk : disk :=
  {| available := Some (PBool false);
     path := None;
     sys_api := Some (<["human_readable_size" := PStr "10.00 GB"]>
                      (<["model" := PStr "modelA"]> (<["vendor" := PStr "samsung"]> ∅))) |}.

(** A reduced disk whose size has no fractional part. *)
Definition whole_size_disk : pydict :=
  <["size" := PStr "10 GB"]> (<["path" := PStr "/dev/vda"]> ∅).

(** An empty [SizeMatcher], before [_parse_filter] ran. *)
Definition blank_size_matcher (virt : bool) (attr : pyval) : SizeMatcher :=
  {| base := {| attr := attr; key := "human_readable_size";
                fallback_key := Some "size"; virtual := virt |};
     _high := None; _high_suffix := None; _low := None; _low_suffix := None;
     _exact := None; _exact_suffix := None |}.

(** One of the three canonical units. *)
Definition canonical_unit (u : string) : Prop := u = "MB" \/ u = "GB" \/ u = "TB".

(** A bound as [_parse_filter] leaves it: not set, or digits and a
    canonical unit. *)
Definition bound_ok (t : option string * option string) : Prop :=
  t = (None, None) \/
  exists k u, t = (Some k, Some u) /\ is_run is_digit k = true /\ canonical_unit u.

Definition parsed (self : SizeMatcher) : Prop :=
  bound_ok (low self) /\ bound_ok (high self) /\ bound_ok (exact self).

(** A reduced disk of 20 GB. *)
Definition twenty_gb_disk : pydict :=
  <["size" := PStr "20.00 GB"]> (<["path" := PStr "/dev/vdb"]> ∅).

(** The filters of the test fixture with a [limit], and a pair of them. *)
Definition limit_fixture : filter_map :=
  [("size", PStr "10G:29G"); ("model", PStr "foo"); ("vendor", PStr "1x"); ("limit", PInt 1)].
Definition model_limit_filters : filter_map := [("model", PStr "model"); ("limit", PInt 1)].

(** The disk of [test_get_disk_key_2]: a path and nothing else. *)
Definition path_only_disk : pydict := {[ "path" := PStr "/dev/vdb" ]}.

(** An inventory entry of a virtual machine: no model, no vendor. *)
Definition virtual_disk : disk :=
  {| available := Some (PBool false);
     path := Some "/dev/vdb";
     sys_api := Some (<["human_readable_size" := PStr "20.00 GB"]>
                      (<["model" := PStr ""]> (<["vendor" := PStr ""]> ∅))) |}.

(** A disk that [ceph-volume] reports as available. *)
Definition available_disk : disk :=
  {| available := Some (PBool true);
     path := Some "/dev/vdd";
     sys_api := Some (<["human_readable_size" := PStr "40.00 GB"]>
                      (<["model" := PStr "modelD"]> (<["vendor" := PStr "intel"]> ∅))) |}.

(** The text of the exception [_get_disk_key] raises. *)
Definition no_disk_key_message (self : Matcher) : string :=
  "No disk_key found for " ++ key self ++ " or " ++ py_str_opt (fallback_key self).

(** ** Further vocabulary *)

(** [Matcher._virtual], from what [grains.get virtual] returned for the
    hosts of the target: the loop raises the flag at every host whose value
    is not the string "physical". *)
Definition is_physical (val : pyval) : bool :=
  match val with
  | PStr s => String.eqb s "physical"
  | _ => false
  end.

Fixpoint _virtual_loop (virtual : list (string * pyval)) (flag : bool) : bool :=
  match virtual with
  | [] => flag
  | (host, val) :: rest =>
      if negb (is_physical val) then _virtual_loop rest true
      else _virtual_loop rest flag
  end.

Definition _virtual (virtual : list (string * pyval)) : bool :=
  _virtual_loop virtual false.

(** [Matcher.__init__], with the grains it asks for. *)
Definition Matcher_new (grains : list (string * pyval)) (attr : pyval) (key : string) : Matcher :=
  Matcher_init (_virtual grains) attr key.

(** The unit a one-letter suffix of a size filter stands for. *)
Definition unit_of_letter (a : ascii) : option string :=
  if Ascii.eqb a "M"%char then Some "MB"
  else if Ascii.eqb a "G"%char then Some "GB"
  else if Ascii.eqb a "T"%char then Some "TB"
  else None.

(** Any character but the colon [_parse_filter] splits at. *)
Definition no_colon (a : ascii) : bool := negb (Ascii.eqb a ":"%char).

(** Neither a digit nor a letter. *)
Definition is_separator(a : ascii) : bool := negb (is_digit a) && negb (is_letter a).

(** [r] describes no text that starts with a character of the class [c]. *)
Definition rejects (c : cclass) (r : regex) : Prop :=
  forall (a : ascii) (t : string), in_class c a = true -> match_here r false (String a t) = None.

(** A computation that does not raise [NoMatcherFound]. *)
Definition finds_matcher {A} (r : result A) : Prop :=
  forall msg, r <> Raise (NoMatcherFound msg).

(** The three values [sys_api] contributes to a reduced disk. *)
Definition sys_value (d : disk) (k : string) : pyval :=
  dict_get_default (default ∅ (sys_api d)) k (PStr "").

(** A computation that raised the exception of [_normalize_suffix]. *)
Definition unit_error {A} (r : result A) : Prop :=
  exists x, r = Raise (Exception ("Unit " ++ x ++ " not supported")).

(** What [_get_k_v] makes of a group of a pattern: a pair, or the
    exception of [_normalize_suffix]. *)
Definition k_v_or_unit_error (g : string) : Prop :=
  (exists kv, _get_k_v (PStr g) = Ok kv) \/ unit_error (_get_k_v (PStr g)).

(** The matcher [m] passes over the device [d] without raising: the device
    is reduced, [compare] returns, and a device it accepts has a path. *)
Definition scans_cleanly (m : matcher) (d : disk) : Prop :=
  exists r v, _reduce_inventory d = Ok r /\ __match r m = Ok v /\
              (truthy v = true -> truthy_opt (path d) = true).

(** Every filter of the role gets a matcher that passes over every device
    of the inventory. *)
Definition selection_clean (virt : bool) (inv : list disk) (device_filter : filter_map) : Prop :=
  forall name val, (name, val) ∈ device_filter ->
    exists m, _assign_matchers virt name val = Ok m /\
              forall d, d ∈ inv -> scans_cleanly m d.

(** [a] occurs in [b]. *)
Definition occurs_in (a b : string) : Prop := exists pre post, b = pre ++ a ++ post.

(** The object [DriveGroup.__init__] builds. *)
Definition drive_group_of (target : string) (data wal db : filter_map) (inv : list disk)
    (virt : bool) : DriveGroup :=
  {| target := target; data_device_attrs := data; wal_devices_attrs := wal;
     db_devices_attrs := db; inventory := inv; grains_virtual := virt |}.

(** A disk of the inventory whose model and vendor are known. *)
Definition labelled_disk (d : disk) (name text : string) : Prop :=
  available d = Some (PBool false) /\
  sys_value d name = PStr text /\ text <> "".

(** The matcher [m] declines the device [d]: the device is reduced and
    [compare] returns a value that is not true. *)
Definition declines (m : matcher) (d : disk) : Prop :=
  exists r v, _reduce_inventory d = Ok r /\ __match r m = Ok v /\ truthy v = false.

(** ** The comparison of sizes in the words of the specification *)

(** The number that the decimal notation <digits>.<digits> denotes, exactly. *)
Definition decimal_value (d1 d2 : string) : option QArith_base.Q :=
  (fun n => QArith_base.Qmake n (Z.to_pos (10 ^ Z.of_nat (String.length d2))))
    <$> digits_value 0 (d1 ++ d2).

(** The powers of ten of the specification. *)
Definition decimal_unit (u : string) : option Z :=
  if String.eqb u "MB" then Some (10 ^ 6)
  else if String.eqb u "GB" then Some (10 ^ 9)
  else if String.eqb u "TB" then Some (10 ^ 12)
  else None.

(** Bytes = value x 10^6, 10^9 or 10^12, exactly. *)
Definition decimal_bytes (value : QArith_base.Q) (u : string) : option QArith_base.Q :=
  (fun k => QArith_base.Qmult value (QArith_base.inject_Z k)) <$> decimal_unit u.

(** The bytes of a device whose size reads "<d1>.<d2> <u>". *)
Definition decimal_device (d1 d2 u : string) : option QArith_base.Q :=
  value ← decimal_value d1 d2; decimal_bytes value u.

(** The bytes of a bound of a filter, digits and a unit. *)
Definition decimal_bound (b : string * string) : option QArith_base.Q :=
  value ← QArith_base.inject_Z <$> digits_value 0 (fst b); decimal_bytes value (snd b).

(** Whether the device is in the range, on exact numbers. *)
Definition decimal_in_range (rng : SizeRange) (device_bytes : QArith_base.Q) : option bool :=
  match rng with
  | Bounded lo hi =>
      low_bytes ← decimal_bound lo; high_bytes ← decimal_bound hi;
      Some (QArith_base.Qle_bool low_bytes device_bytes
            && QArith_base.Qle_bool device_bytes high_bytes)
  | LowOnly lo =>
      low_bytes ← decimal_bound lo; Some (QArith_base.Qle_bool low_bytes device_bytes)
  | HighOnly hi =>
      high_bytes ← decimal_bound hi; Some (QArith_base.Qle_bool device_bytes high_bytes)
  | ExactSize ex =>
      exact_bytes ← decimal_bound ex; Some (QArith_base.Qeq_bool device_bytes exact_bytes)
  end.

(** A reduced disk of the given size. *)
Definition disk_of_size (size : string) : pydict :=
  <["size" := PStr size]> (<["path" := PStr "/dev/vda"]> ∅).

(** The verdict of the size filter [text] on a disk of the given size, on a
    physical host. *)
Definition size_verdict (text size : string) : result pyval :=
  self <- SizeMatcher_init false (PStr text) "size" ;;
  SizeMatcher_compare self (Some (disk_of_size size)).

(** The range that the size filter [text] is parsed into. *)
Definition size_range (text : string) : option SizeRange :=
  match SizeMatcher_init false (PStr text) "size" with
  | Ok self => range_of self
  | Raise _ => None
  end.

(** The character ["0"]. *)
Definition is_zero (a : ascii) : bool := Ascii.eqb a "0"%char.

(** The bytes of <digits> units when the digits are a whole number. *)
Definition whole_bytes (b : string * string) : option Z :=
  value ← digits_value 0 (fst b); (fun k => value * k) <$> decimal_unit (snd b).

(** The whole number of bytes is below 2^53: binary64 holds it exactly. *)
Definition fits_double (b : string * string) : bool :=
  match whole_bytes b with
  | Some w => w <? 2 ^ 53
  | None => false
  end.

Definition range_fits (rng : SizeRange) : bool :=
  match rng with
  | Bounded lo hi => fits_double lo && fits_double hi
  | LowOnly lo => fits_double lo
  | HighOnly hi => fits_double hi
  | ExactSize ex => fits_double ex
  end.

(** The binary64 number that holds the integer [w] exactly, for
    [0 <= w < 2^53]: 53 bits of mantissa and the exponent that goes with
    them. *)
Definition sf_of_Z (w : Z) : spec_float :=
  match w with
  | Zpos _ => S754_finite false (Z.to_pos (w * 2 ^ (52 - Z.log2 w))) (Z.log2 w - 52)
  | _ => S754_zero false
  end.

(** A float that holds the integer [w] exactly. *)
Definition holds (f : float) (w : Z) : Prop :=
  0 <= w < 2 ^ 53 /\ Prim2SF f = sf_of_Z w.

(** * Properties *)

(** ** The embedding on the examples of the source and its tests *)

Example re_match_low_high : re_match re_low_high "10G:50G" = Some "10G:50G".
Proof. reflexivity. Qed.
Example re_match_exact_two_letters : re_match re_exact "20GB" = None.
Proof. reflexivity. Qed.
Example re_findall_decimal : re_findall re_decimal "20.00 GB" = ["20.00"].
Proof. reflexivity. Qed.
Example re_findall_letters : re_findall re_letters "20.00 GB" = ["GB"].
Proof. reflexivity. Qed.
Example py_float_20 : py_float "20.00" = Ok 20%float.
Proof. vm_compute. reflexivity. Qed.
Example py_float_007 : py_float "0.07" = Ok 0x1.1eb851eb851ecp-4%float.
Proof. vm_compute. reflexivity. Qed.
Example py_float_tie : py_float "9007199254740993" = Ok 9007199254740992%float.
Proof. vm_compute. reflexivity. Qed.
Example py_float_overflow : py_float ("1" ++ String.concat "" (repeat "0" 309)) = Ok infinity.
Proof. vm_compute. reflexivity. Qed.

Example filter_size_min_max :
  _filter_devices (sample_group sample_inventory false) [("size", PStr "10G:29G")]
  = Ok {[ "/dev/vda"; "/dev/vdb" ]}.
Proof. vm_compute. reflexivity. Qed.
Example filter_size_exact :
  _filter_devices (sample_group sample_inventory false) [("size", PStr "10G")]
  = Ok {[ "/dev/vda" ]}.
Proof. vm_compute. reflexivity. Qed.
Example filter_size_max :
  _filter_devices (sample_group sample_inventory false) [("size", PStr ":30G")]
  = Ok {[ "/dev/vda"; "/dev/vdb"; "/dev/vdc" ]}.
Proof. vm_compute. reflexivity. Qed.
Example filter_size_min :
  _filter_devices (sample_group sample_inventory false) [("size", PStr "20G:")]
  = Ok {[ "/dev/vdb"; "/dev/vdc" ]}.
Proof. vm_compute. reflexivity. Qed.
Example filter_model :
  _filter_devices (sample_group sample_inventory false) [("model", PStr "model")]
  = Ok {[ "/dev/vda"; "/dev/vdb"; "/dev/vdc" ]}.
Proof. vm_compute. reflexivity. Qed.

(** ** The error monad *)

Lemma bind_Ok {A B} (r : result A) (k : A -> result B) (b : B) :
  bind r k = Ok b -> exists a, r = Ok a /\ k a = Ok b.
Proof. destruct r as [a|e]; simpl; [eauto | discriminate]. Qed.

(** Splits a hypothesis [x <- r ;; k = Ok b] into its two steps. *)
Ltac inv_bind H :=
  let a := fresh "a" in
  let Ha := fresh "Hstep" in
  apply bind_Ok in H; destruct H as (a & Ha & H).

(** ** The two loops of [_filter_devices] *)

Section Selection.
Variable virt : bool.

(** What one scan adds to the set: the paths of the devices of the
    inventory on which [compare] returned a true value. *)
Lemma scan_inventory_elem (m : matcher) (inv : list disk) (devices devices' : gset string) :
  scan_inventory m inv devices = Ok devices' ->
  forall p, p ∈ devices' <->
    p ∈ devices \/
    exists d r v, d ∈ inv /\ _reduce_inventory d = Ok r /\ __match r m = Ok v /\
                  truthy v = true /\ path d = Some p.
Proof.
  revert devices devices'.
  induction inv as [|d inv IH]; intros devices devices' H p; simpl in H.
  - injection H as <-. split; [auto|].
    intros [Hp | (d & r & v & Hd & _)]; [done | by apply elem_of_nil in Hd].
  - inv_bind H. rename a into r. inv_bind H. rename a into v.
    destruct (truthy v) eqn:Hv; simpl in H.
    + destruct (path d) as [q|] eqn:Hq; simpl in H; [|discriminate].
      destruct (negb (String.eqb q "")); [|discriminate].
      rewrite (IH _ _ H p), elem_of_union, elem_of_singleton. split.
      * intros [[-> | Hp] | (d' & r' & v' & Hd' & Hrest)].
        -- right. exists d, r, v. rewrite elem_of_cons. auto 10.
        -- auto.
        -- right. exists d', r', v'. rewrite elem_of_cons. auto.
      * intros [Hp | (d' & r' & v' & Hd' & Hr' & Hm' & Hv' & Hp')]; [auto|].
        apply elem_of_cons in Hd' as [-> | Hd'].
        -- left. left. rewrite Hq in Hp'. by injection Hp'.
        -- right. exists d', r', v'. auto.
    + rewrite (IH _ _ H p). split.
      * intros [Hp | (d' & r' & v' & Hd' & Hrest)]; [auto|].
        right. exists d', r', v'. rewrite elem_of_cons. auto.
      * intros [Hp | (d' & r' & v' & Hd' & Hr' & Hm' & Hv' & Hp')]; [auto|].
        apply elem_of_cons in Hd' as [-> | Hd'].
        -- rewrite Hstep in Hr'. injection Hr' as <-.
           rewrite Hstep0 in Hm'. injection Hm' as <-. congruence.
        -- right. exists d', r', v'. auto.
Qed.

(** What the loop over the filters adds: the union of the match sets. *)
Lemma filter_loop_elem (inv : list disk) (device_filter : filter_map)
    (devices devices' : gset string) :
  filter_loop virt inv device_filter devices = Ok devices' ->
  forall p, p ∈ devices' <->
    p ∈ devices \/
    exists name val, (name, val) ∈ device_filter /\ in_match_set virt inv name val p.
Proof.
  revert devices devices'.
  induction device_filter as [|[name val] rest IH]; intros devices devices' H p; simpl in H.
  - injection H as <-. split; [auto|].
    intros [Hp | (n & v & Hin & _)]; [done | by apply elem_of_nil in Hin].
  - inv_bind H. rename a into m. inv_bind H. rename a into devices1.
    rewrite (IH _ _ H p), (scan_inventory_elem _ _ _ _ Hstep0 p). split.
    + intros [[Hp | (d & r & v & Hd & Hr & Hm & Hv & Hp)] | (n & v & Hin & Hset)].
      * auto.
      * right. exists name, val. split; [apply elem_of_cons; auto|].
        exists d. split; [done|]. split; [|done]. by exists m, r, v.
      * right. exists n, v. split; [apply elem_of_cons; auto | done].
    + intros [Hp | (n & v & Hin & Hset)]; [auto|].
      apply elem_of_cons in Hin as [Heq | Hin].
      * injection Heq as -> ->. left. right.
        destruct Hset as (d & Hd & (m' & r & v' & Hm' & Hr & Hv & Ht) & Hp).
        rewrite Hstep in Hm'. injection Hm' as <-. exists d, r, v'. auto.
      * right. exists n, v. auto.
Qed.
End Selection.

(** ** C1: the filters of a role combine by union *)


(** C1. Whenever [_filter_devices] returns a set for a role's filters (any
    number of them, so in particular two or more) over an inventory, a path
    is in that set if and only if it is the path of a device that at least
    one of the filters accepts: the result is the union of the match sets of
    the filters, not their intersection. *)
Theorem filter_devices_union (self : DriveGroup) (device_filter : filter_map)
    (devices : gset string) :
  _filter_devices self device_filter = Ok devices ->
  forall p, p ∈ devices <->
    exists name val, (name, val) ∈ device_filter /\
      in_match_set (grains_virtual self) (inventory self) name val p.
Proof.
  intros H p. unfold _filter_devices in H.
  rewrite (filter_loop_elem _ _ _ _ _ H p). split; [|auto].
  intros [Hp | Hp]; [by apply not_elem_of_empty in Hp | done].
Qed.

(** On the inventory of the tests, [size: 10G] accepts only /dev/vda and
    [model: modelB] only /dev/vdb; both paths are selected. *)
Lemma filter_devices_union_witness :
  _filter_devices (sample_group sample_inventory false) two_filters
    = Ok {[ "/dev/vda"; "/dev/vdb" ]} /\
  ("/dev/vdb" ∈ ({[ "/dev/vda"; "/dev/vdb" ]} : gset string) <->
   exists name val, (name, val) ∈ two_filters /\
     in_match_set false sample_inventory name val "/dev/vdb").
Proof.
  assert (H : _filter_devices (sample_group sample_inventory false) two_filters
              = Ok {[ "/dev/vda"; "/dev/vdb" ]}) by (vm_compute; reflexivity).
  split; [exact H|].
  exact (filter_devices_union (sample_group sample_inventory false) two_filters _ H "/dev/vdb").
Defined.

(** ** C7: a device without a path *)


Section MissingPath.
Variable virt : bool.

Lemma scan_inventory_pathless (m : matcher) (inv : list disk) (devices : gset string)
    (d : disk) (r : option pydict) (v : pyval) :
  d ∈ inv -> _reduce_inventory d = Ok r -> __match r m = Ok v -> truthy v = true ->
  truthy_opt (path d) = false ->
  exists e, scan_inventory m inv devices = Raise e.
Proof.
  intros Hd Hr Hm Hv Hp. revert devices.
  induction inv as [|d0 inv IH]; intros devices; [by apply elem_of_nil in Hd|].
  apply elem_of_cons in Hd as [<- | Hd]; simpl.
  - rewrite Hr. simpl. rewrite Hm. simpl. rewrite Hv, Hp. simpl. eauto.
  - destruct (_reduce_inventory d0) as [r0|e0]; simpl; [|eauto].
    destruct (__match r0 m) as [v0|e0]; simpl; [|eauto].
    destruct (negb (truthy v0)); [auto|].
    destruct (truthy_opt (path d0)); [auto | eauto].
Qed.

Lemma filter_loop_pathless (inv : list disk) (device_filter : filter_map)
    (devices : gset string) (name : string) (val : pyval) (d : disk) :
  (name, val) ∈ device_filter -> d ∈ inv -> accepts virt name val d ->
  truthy_opt (path d) = false ->
  exists e, filter_loop virt inv device_filter devices = Raise e.
Proof.
  intros Hf Hd (m & r & v & Hm & Hr & Hc & Hv) Hp. revert devices.
  induction device_filter as [|[n0 v0] rest IH]; intros devices;
    [by apply elem_of_nil in Hf|].
  apply elem_of_cons in Hf as [Heq | Hf]; simpl.
  - injection Heq as <- <-. rewrite Hm. simpl.
    destruct (scan_inventory_pathless m inv devices d r v Hd Hr Hc Hv Hp) as [e ->].
    simpl. eauto.
  - destruct (_assign_matchers virt n0 v0) as [m0|e0]; simpl; [|eauto].
    destruct (scan_inventory m0 inv devices) as [devices0|e0]; simpl; [|eauto].
    auto.
Qed.

(** A device that the matcher declines leaves a scan as it is without the
    device. *)
Lemma scan_inventory_declined (m : matcher) (ipre ipost : list disk) (d : disk)
    (devices : gset string) :
  declines m d ->
  scan_inventory m (ipre ++ d :: ipost)%list devices
    = scan_inventory m (ipre ++ ipost)%list devices.
Proof.
  intros (r & v & Hr & Hm & Hv). revert devices.
  induction ipre as [|d0 ipre IH]; intros devices.
  - change (scan_inventory m (d :: ipost) devices = scan_inventory m ipost devices).
    cbn [scan_inventory]. rewrite Hr. cbn [bind]. rewrite Hm. cbn [bind].
    by rewrite Hv.
  - change (scan_inventory m (d0 :: (ipre ++ d :: ipost)%list) devices
            = scan_inventory m (d0 :: (ipre ++ ipost)%list) devices).
    cbn [scan_inventory].
    destruct (_reduce_inventory d0) as [r0|e0]; cbn [bind]; [|done].
    destruct (__match r0 m) as [v0|e0]; cbn [bind]; [|done].
    destruct (negb (truthy v0)); [apply IH|].
    destruct (truthy_opt (path d0)); [apply IH | done].
Qed.

Lemma filter_loop_declined (ipre ipost : list disk) (d : disk) (device_filter : filter_map)
    (devices : gset string) :
  (forall name val m, (name, val) ∈ device_filter ->
     _assign_matchers virt name val = Ok m -> declines m d) ->
  filter_loop virt (ipre ++ d :: ipost)%list device_filter devices
    = filter_loop virt (ipre ++ ipost)%list device_filter devices.
Proof.
  revert devices. induction device_filter as [|[n0 v0] rest IH]; intros devices Hall; [done|].
  cbn [filter_loop].
  destruct (_assign_matchers virt n0 v0) as [m0|e0] eqn:Hm0; cbn [bind]; [|done].
  rewrite (scan_inventory_declined m0 ipre ipost d devices);
    [|apply (Hall n0 v0 m0); [apply elem_of_cons; auto | done]].
  destruct (scan_inventory m0 (ipre ++ ipost)%list devices) as [devices0|e0]; cbn [bind]; [|done].
  apply IH. intros name val m Hin. apply Hall, elem_of_cons. auto.
Qed.
End MissingPath.

(** C7, as stated, fails: a device without a path that no filter accepts is
    passed over, and the selection returns. *)
Lemma pathless_disk_dropped :
  pathless_disk ∈ [pathless_disk] /\ truthy_opt (path pathless_disk) = false /\
  _filter_devices (sample_group [pathless_disk] false) [("model", PStr "fast")] = Ok ∅.
Proof. split; [apply elem_of_cons; auto|]. split; vm_compute; reflexivity. Qed.

(** C7, amended. For a device of the inventory without a non-empty path:
    when some filter of the role accepts the device, the selection raises
    and no set is returned; and when every matcher of the role declines the
    device (its [compare] returns a value that is not true), the device is
    passed over: the selection is what it is on the inventory without the
    device. *)
Theorem filter_devices_pathless (self : DriveGroup) (device_filter : filter_map) (d : disk) :
  d ∈ inventory self ->
  truthy_opt (path d) = false ->
  ((exists name val, (name, val) ∈ device_filter /\
                     accepts (grains_virtual self) name val d) ->
   exists e, _filter_devices self device_filter = Raise e) /\
  (forall (ipre ipost : list disk) (rest : DriveGroup),
     inventory self = (ipre ++ d :: ipost)%list ->
     inventory rest = (ipre ++ ipost)%list ->
     grains_virtual rest = grains_virtual self ->
     (forall name val m, (name, val) ∈ device_filter ->
        _assign_matchers (grains_virtual self) name val = Ok m -> declines m d) ->
     _filter_devices self device_filter = _filter_devices rest device_filter).
Proof.
  intros Hd Hp. split.
  - intros (name & val & Hf & Ha). unfold _filter_devices.
    by apply (filter_loop_pathless _ _ _ _ name val d).
  - intros ipre ipost rest Hinv Hrest Hvirt Hall. unfold _filter_devices.
    rewrite Hinv, Hrest, Hvirt. by apply filter_loop_declined.
Qed.

Lemma filter_devices_pathless_witness :
  (exists e, _filter_devices (sample_group [pathless_disk] false) [("model", PStr "modelA")]
             = Raise e) /\
  _filter_devices (sample_group [pathless_disk] false) [("model", PStr "fast")]
    = _filter_devices (sample_group [] false) [("model", PStr "fast")].
Proof.
  split.
  - apply (filter_devices_pathless (sample_group [pathless_disk] false)
             [("model", PStr "modelA")] pathless_disk).
    + apply elem_of_cons. auto.
    + reflexivity.
    + exists "model", (PStr "modelA"). split; [apply elem_of_cons; auto|].
      eexists _, _, _. repeat split; vm_compute; reflexivity.
  - apply (proj2 (filter_devices_pathless (sample_group [pathless_disk] false)
                    [("model", PStr "fast")] pathless_disk
                    ltac:(apply elem_of_cons; auto) eq_refl) [] []).
    + reflexivity.
    + reflexivity.
    + reflexivity.
    + intros name val m Hin Hm.
      apply elem_of_cons in Hin as [[= -> ->] | Hin]; [|by apply elem_of_nil in Hin].
      injection Hm as <-. eexists _, _. repeat split; vm_compute; reflexivity.
Defined.

(** ** The constructors keep what they are given *)

Lemma parse_filter_base (self self' : SizeMatcher) :
  _parse_filter self = Ok self' -> base self' = base self.
Proof.
  unfold _parse_filter. intros H.
  repeat match goal with
         | H : bind _ _ = Ok _ |- _ => inv_bind H
         end.
  destruct (_ && _); [discriminate|]. injection H as <-.
  repeat match goal with
         | H : match ?o with Some _ => _ | None => _ end = Ok _ |- _ => destruct o
         | H : match split_colon ?g with [] => _ | _ :: _ => _ end = Ok _ |- _ =>
             destruct (split_colon g) as [|? [|? [|? ?]]]; try discriminate
         | H : bind _ _ = Ok _ |- _ => inv_bind H
         | H : Ok _ = Ok _ |- _ => injection H as <-
         end; reflexivity.
Qed.

Lemma assign_matchers_base (virt : bool) (name : string) (val : pyval) (m : matcher) :
  _assign_matchers virt name val = Ok m ->
  virtual (matcher_base m) = virt /\ attr (matcher_base m) = val.
Proof.
  unfold _assign_matchers. intros H.
  repeat match goal with
         | H : (if ?c then _ else _) = Ok _ |- _ => destruct c
         end; try discriminate.
  - inv_bind H. injection H as <-. simpl.
    unfold SizeMatcher_init in Hstep. apply parse_filter_base in Hstep.
    rewrite Hstep. auto.
  - injection H as <-. auto.
  - injection H as <-. auto.
  - injection H as <-. auto.
Qed.

(** ** C8: a missing attribute on a physical host *)

Lemma get_disk_key_missing (self : Matcher) (d : pydict) :
  virtual self = false -> no_value self d ->
  _get_disk_key self (Some d) = Raise (Exception (no_disk_key_message self)).
Proof.
  intros Hvirt [Hkey Hfall]. unfold _get_disk_key. rewrite Hkey. simpl.
  destruct (truthy_opt (fallback_key self)) eqn:Hf.
  - rewrite (Hfall eq_refl), Hvirt. reflexivity.
  - rewrite Hkey, Hvirt. reflexivity.
Qed.

(** Every [compare] starts by extracting the attribute, so what the
    extraction raises is what [compare] raises. *)
Lemma compare_get_disk_key_raise (m : matcher) (r : option pydict) (e : exn) :
  _get_disk_key (matcher_base m) r = Raise e -> compare m r = Raise e.
Proof.
  intros H. destruct m as [s|q|z]; simpl in *;
    [unfold SubstringMatcher_compare | unfold EqualityMatcher_compare
    | unfold SizeMatcher_compare]; by rewrite H.
Qed.

Lemma scan_inventory_app (m : matcher) (l1 l2 : list disk) (devices : gset string) :
  scan_inventory m (l1 ++ l2) devices =
  (devices1 <- scan_inventory m l1 devices ;; scan_inventory m l2 devices1).
Proof.
  revert devices. induction l1 as [|d l1 IH]; intros devices; simpl; [done|].
  destruct (_reduce_inventory d) as [r|e]; simpl; [|done].
  destruct (__match r m) as [v|e]; simpl; [|done].
  destruct (negb (truthy v)); [apply IH|].
  destruct (truthy_opt (path d)); [apply IH | done].
Qed.

Lemma filter_loop_app (virt : bool) (inv : list disk) (f1 f2 : filter_map)
    (devices : gset string) :
  filter_loop virt inv (f1 ++ f2)%list devices =
  (devices1 <- filter_loop virt inv f1 devices ;; filter_loop virt inv f2 devices1).
Proof.
  revert devices. induction f1 as [|[n v] f1 IH]; intros devices; simpl; [done|].
  destruct (_assign_matchers virt n v) as [m|e]; simpl; [|done].
  destruct (scan_inventory m inv devices) as [devices1|e]; simpl; [apply IH | done].
Qed.

(** An exception of [compare] leaves the two loops as it is, once the
    filters and the devices before it have been passed. *)
Lemma filter_devices_raise (self : DriveGroup) (pre post : filter_map) (name : string)
    (val : pyval) (ipre ipost : list disk) (d : disk) (m : matcher) (r : option pydict)
    (devices0 devices1 : gset string) (e : exn) :
  inventory self = (ipre ++ d :: ipost)%list ->
  filter_loop (grains_virtual self) (inventory self) pre ∅ = Ok devices0 ->
  _assign_matchers (grains_virtual self) name val = Ok m ->
  scan_inventory m ipre devices0 = Ok devices1 ->
  _reduce_inventory d = Ok r ->
  compare m r = Raise e ->
  _filter_devices self (pre ++ (name, val) :: post)%list = Raise e.
Proof.
  intros Hinv Hpre Hm Hscan Hr Hc. unfold _filter_devices.
  rewrite filter_loop_app, Hpre. simpl. rewrite Hm. simpl.
  rewrite Hinv, scan_inventory_app, Hscan. simpl.
  rewrite Hr. simpl. unfold __match. rewrite Hc. reflexivity.
Qed.

(** C8. On a host that is not virtual, when neither the key nor the
    fallback key of a matcher yields a value on a disk, [_get_disk_key]
    raises an exception whose message names the key and the fallback key;
    and a selection that reaches that disk with that matcher (the filters
    and the devices before it passed) raises that same exception. *)
Theorem missing_attribute_raises_and_propagates :
  (forall (self : Matcher) (d : pydict),
     virtual self = false -> no_value self d ->
     _get_disk_key self (Some d) =
       Raise (Exception ("No disk_key found for " ++ key self ++ " or "
                         ++ py_str_opt (fallback_key self)))) /\
  (forall (self : DriveGroup) (pre post : filter_map) (name : string) (val : pyval)
          (ipre ipost : list disk) (d : disk) (m : matcher) (rd : pydict)
          (devices0 devices1 : gset string),
     grains_virtual self = false ->
     inventory self = (ipre ++ d :: ipost)%list ->
     filter_loop (grains_virtual self) (inventory self) pre ∅ = Ok devices0 ->
     _assign_matchers (grains_virtual self) name val = Ok m ->
     scan_inventory m ipre devices0 = Ok devices1 ->
     _reduce_inventory d = Ok (Some rd) ->
     no_value (matcher_base m) rd ->
     _filter_devices self (pre ++ (name, val) :: post)%list =
       Raise (Exception ("No disk_key found for " ++ key (matcher_base m) ++ " or "
                         ++ py_str_opt (fallback_key (matcher_base m))))).
Proof.
  split; [exact get_disk_key_missing|].
  intros self pre post name val ipre ipost d m rd devices0 devices1
    Hvirt Hinv Hpre Hm Hscan Hr Hno.
  apply (filter_devices_raise self pre post name val ipre ipost d m (Some rd)
           devices0 devices1); try done.
  apply compare_get_disk_key_raise, get_disk_key_missing; [|done].
  rewrite <- Hvirt. by apply (assign_matchers_base _ name val).
Qed.

Lemma missing_attribute_raises_and_propagates_witness :
  _filter_devices (sample_group sample_inventory false) [("rotates", PStr "1")]
  = Raise (Exception "No disk_key found for rotates or None").
Proof.
  pose (d := sample_disk "/dev/vda" "10.00 GB" "modelA" "samsung" "1" 10474836480).
  pose (m := Equality (EqualityMatcher_init false (PStr "1") "rotates")).
  destruct (_reduce_inventory d) as [[rd|]|] eqn:Hr; try (vm_compute in Hr; discriminate).
  refine (proj2 missing_attribute_raises_and_propagates
            (sample_group sample_inventory false) [] [] "rotates" (PStr "1")
            [] _ d m rd ∅ ∅ eq_refl eq_refl eq_refl eq_refl eq_refl Hr _).
  injection Hr as <-. split; [vm_compute; reflexivity|]. intros H. vm_compute in H. discriminate.
Defined.

(** ** C9: only devices whose [available] is [False] are reduced *)

Lemma reduce_inventory_Some (d : disk) (r : pydict) :
  _reduce_inventory d = Ok (Some r) -> available d = Some (PBool false).
Proof.
  unfold _reduce_inventory.
  destruct (available d) as [[|[|]|z|s]|]; intros H; try discriminate; reflexivity.
Qed.

Lemma reduce_inventory_None (d : disk) (v : pyval) :
  available d = Some v -> v <> PBool false -> _reduce_inventory d = Ok None.
Proof.
  unfold _reduce_inventory. intros -> Hv.
  destruct v as [|[|]|z|s]; try reflexivity. by destruct Hv.
Qed.

(** No matcher compares against [None]. *)
Lemma compare_None (m : matcher) :
  compare m None = Raise (AttributeError "'NoneType' object has no attribute 'get'").
Proof. by apply compare_get_disk_key_raise. Qed.

Lemma accepts_unavailable (virt : bool) (name : string) (val : pyval) (d : disk) :
  accepts virt name val d -> available d = Some (PBool false).
Proof.
  intros (m & r & v & _ & Hr & Hm & _). destruct r as [r|].
  - by apply (reduce_inventory_Some d r).
  - unfold __match in Hm. rewrite compare_None in Hm. discriminate.
Qed.

Lemma scan_inventory_unavailable (m : matcher) (inv : list disk)
    (devices devices' : gset string) :
  scan_inventory m inv devices = Ok devices' ->
  forall d, d ∈ inv -> available d = Some (PBool false).
Proof.
  revert devices. induction inv as [|d0 inv IH]; intros devices H d Hd;
    [by apply elem_of_nil in Hd|].
  simpl in H. inv_bind H. rename a into r. inv_bind H. rename a into v.
  apply elem_of_cons in Hd as [-> | Hd].
  - destruct r as [r|]; [by apply (reduce_inventory_Some d0 r)|].
    unfold __match in Hstep0. rewrite compare_None in Hstep0. discriminate.
  - destruct (negb (truthy v)); [by apply (IH _ H)|].
    destruct (truthy_opt (path d0)); [by apply (IH _ H) | discriminate].
Qed.

(** C9, as stated, fails: a role without filters is selected successfully
    over an inventory whose device is available. *)
Lemma empty_filter_selects_nothing :
  available available_disk = Some (PBool true) /\
  _filter_devices (sample_group [available_disk] false) [] = Ok ∅.
Proof. split; reflexivity. Qed.

(** C9, amended. [_reduce_inventory] returns a reduced disk only when
    [disk["available"]] is [False]; for any other value of the field it
    returns nothing and every matcher's [compare] then raises, so a filter
    accepts a device only when its [available] is [False]; and a selection
    with at least one filter returns only over inventories in which every
    device has [available] equal to [False]. *)
Theorem selection_only_on_unavailable :
  (forall (d : disk) (r : pydict),
     _reduce_inventory d = Ok (Some r) -> available d = Some (PBool false)) /\
  (forall (d : disk) (v : pyval),
     available d = Some v -> v <> PBool false ->
     _reduce_inventory d = Ok None /\
     forall m : matcher, exists e, __match None m = Raise e) /\
  (forall (virt : bool) (name : string) (val : pyval) (d : disk),
     accepts virt name val d -> available d = Some (PBool false)) /\
  (forall (self : DriveGroup) (device_filter : filter_map) (devices : gset string),
     device_filter <> [] ->
     _filter_devices self device_filter = Ok devices ->
     forall d, d ∈ inventory self -> available d = Some (PBool false)).
Proof.
  split; [exact reduce_inventory_Some|].
  split.
  { intros d v Ha Hv. split; [by apply (reduce_inventory_None d v)|].
    intros m. eexists. apply compare_None. }
  split; [exact accepts_unavailable|].
  intros self [|[name val] rest] devices Hne H d Hd; [done|].
  unfold _filter_devices in H. simpl in H.
  inv_bind H. rename a into m. inv_bind H.
  by apply (scan_inventory_unavailable m (inventory self) ∅ a).
Qed.

Lemma selection_only_on_unavailable_witness :
  two_filters <> [] /\
  _filter_devices (sample_group sample_inventory false) two_filters
    = Ok {[ "/dev/vda"; "/dev/vdb" ]} /\
  forall d, d ∈ sample_inventory -> available d = Some (PBool false).
Proof.
  assert (Hne : two_filters <> []) by discriminate.
  assert (H : _filter_devices (sample_group sample_inventory false) two_filters
              = Ok {[ "/dev/vda"; "/dev/vdb" ]}) by (vm_compute; reflexivity).
  split; [exact Hne|]. split; [exact H|].
  exact (proj2 (proj2 (proj2 selection_only_on_unavailable))
           (sample_group sample_inventory false) two_filters _ Hne H).
Defined.

(** ** What the matcher of regular expressions returns *)


(** ** What the matcher of regular expressions returns *)

Lemma str_app_assoc (a b c : string) : (a ++ b) ++ c = a ++ (b ++ c).
Proof. induction a as [|x a IH]; [done | exact (f_equal (String x) IH)]. Qed.

Lemma str_app_nil_r (a : string) : a ++ "" = a.
Proof. induction a as [|x a IH]; [done | exact (f_equal (String x) IH)]. Qed.

Lemma is_run_cons (p : ascii -> bool) (a : ascii) (s : string) :
  p a = true -> (s = "" \/ is_run p s = true) -> is_run p (String a s) = true.
Proof.
  unfold is_run. simpl. intros -> [-> | H]; [done|].
  by apply andb_true_iff in H as [_ ->].
Qed.

Lemma is_run_forallb (p : ascii -> bool) (s : string) :
  is_run p s = true -> s <> "" /\ forallb_str p s = true.
Proof.
  unfold is_run. intros H. apply andb_true_iff in H as [Hne Hall].
  split; [|done]. intros ->. discriminate.
Qed.

(** The greedy [+], one character at a time. *)
Lemma match_here_plus (c : cclass) (r : regex) (start : bool) (a : ascii) (s : string) :
  match_here (Atom c Plus :: r) start (String a s) =
  if in_class c a then
    match match_here (Atom c Plus :: r) false s with
    | Some (m, rest) => Some (String a m, rest)
    | None => cons_match a (match_here r false s)
    end
  else None.
Proof. reflexivity. Qed.

(** A match found at the head of [s] is a prefix of [s], and its text is one
    the pattern describes. *)
Lemma match_here_sound (r : regex) :
  forall (start : bool) (s m rest : string),
    match_here r start s = Some (m, rest) -> s = m ++ rest /\ denote r m.
Proof.
  induction r as [|it r IH]; intros start s m rest H.
  - injection H as <- <-. done.
  - destruct it as [c [|]| |].
    + simpl in H. destruct s as [|a s]; [discriminate|].
      destruct (in_class c a) eqn:Hc; [|discriminate].
      destruct (match_here r false s) as [[m' rest']|] eqn:Hm; [|discriminate].
      injection H as <- <-. apply IH in Hm as [-> Hd]. split; [done|].
      simpl. eauto.
    + revert start m rest H. induction s as [|a s IHs]; intros start m rest H;
        [discriminate|].
      rewrite match_here_plus in H.
      destruct (in_class c a) eqn:Hc; [|discriminate].
      destruct (match_here (Atom c Plus :: r) false s) as [[m' rest']|] eqn:Hp.
      * injection H as <- <-.
        apply IHs in Hp as [-> (run & m'' & -> & Hrun & Hd)].
        split; [done|]. exists (String a run), m''. split; [done|].
        split; [apply is_run_cons; auto | done].
      * destruct (match_here r false s) as [[m' rest']|] eqn:Hm; [|discriminate].
        injection H as <- <-. apply IH in Hm as [-> Hd]. split; [done|].
        exists (String a ""), m'. split; [done|].
        split; [apply is_run_cons; auto | done].
    + simpl in H. destruct start; [|discriminate]. apply IH in H as [-> Hd]. done.
    + simpl in H. destruct (at_end s); [|discriminate]. apply IH in H as [-> Hd]. done.
Qed.

(** Every text [re.findall] lists is a substring of the subject that the
    pattern describes. *)
Lemma findall_from_sound (r : regex) (s : string) :
  forall (start : bool) (skip : nat) (x : string),
    x ∈ findall_from r start skip s ->
    exists pre rest, s = pre ++ x ++ rest /\ denote r x.
Proof.
  induction s as [|a s IH]; intros start skip x Hx; simpl in Hx.
  - destruct skip; [|by apply elem_of_nil in Hx].
    destruct (match_here r start "") as [[m rest]|] eqn:Hm; [|by apply elem_of_nil in Hx].
    apply list_elem_of_singleton in Hx as ->.
    apply match_here_sound in Hm as [Hs Hd]. exists "", rest. done.
  - destruct skip as [|k].
    + destruct (match_here r start (String a s)) as [[m rest]|] eqn:Hm.
      * apply elem_of_cons in Hx as [-> | Hx].
        -- apply match_here_sound in Hm as [Hs Hd]. exists "", rest. done.
        -- apply IH in Hx as (pre & rest' & -> & Hd). by exists (String a pre), rest'.
      * apply IH in Hx as (pre & rest' & -> & Hd). by exists (String a pre), rest'.
    + apply IH in Hx as (pre & rest' & -> & Hd). by exists (String a pre), rest'.
Qed.

Lemma findall_decimal_has_decimal (s x : string) (l : list string) :
  re_findall re_decimal s = x :: l -> has_decimal s.
Proof.
  intros H.
  destruct (findall_from_sound re_decimal s true 0 x) as (pre & rest & -> & Hd).
  { unfold re_findall in H. rewrite H. apply elem_of_cons. auto. }
  destruct Hd as (d1 & m1 & -> & Hd1 & a & m2 & -> & Ha & d2 & m3 & -> & Hd2 & ->).
  simpl in Ha. apply Ascii.eqb_eq in Ha as ->.
  exists pre, d1, d2, rest. split; [|done].
  rewrite str_app_nil_r. f_equal. rewrite str_app_assoc. reflexivity.
Qed.

Lemma has_decimalb_cons (x : ascii) (s : string) :
  has_decimalb s = true -> has_decimalb (String x s) = true.
Proof.
  intros H. destruct s as [|b [|c t]]; try discriminate.
  change (has_decimalb (String x (String b (String c t))))
    with ((is_digit x && Ascii.eqb b "."%char && is_digit c)
          || has_decimalb (String b (String c t))).
  rewrite H. apply orb_true_r.
Qed.

Lemma has_decimalb_app (pre s : string) :
  has_decimalb s = true -> has_decimalb (pre ++ s) = true.
Proof.
  intros H. induction pre as [|x pre IH]; [done|].
  by apply (has_decimalb_cons x (pre ++ s)).
Qed.

(** [has_decimalb] finds every substring of the form <digits>.<digits>. *)
Lemma has_decimal_decided (s : string) : has_decimal s -> has_decimalb s = true.
Proof.
  intros (pre & d1 & d2 & post & -> & H1 & H2).
  apply has_decimalb_app.
  apply is_run_forallb in H1 as [Hne1 Hall1].
  apply is_run_forallb in H2 as [Hne2 Hall2].
  destruct d2 as [|c d2]; [done|]. simpl in Hall2.
  apply andb_true_iff in Hall2 as [Hc _].
  induction d1 as [|a d1 IH]; [done|]. simpl in Hall1.
  apply andb_true_iff in Hall1 as [Ha Hall1].
  destruct d1 as [|a' d1].
  - change (has_decimalb (String a (String "." (String c (d2 ++ post)))) = true).
    simpl. by rewrite Ha, Hc.
  - by apply (has_decimalb_cons a), IH.
Qed.

(** ** C10: a device size without a fractional part *)

(** C10. Whatever the size filter, when the size value extracted from a
    device holds no substring of the form <digits>.<digits> (as in "10 GB"),
    [SizeMatcher.compare] raises instead of returning a verdict: an
    [IndexError] from the empty result of [re.findall] on a string, a
    [TypeError] when the value is not a string. *)
Theorem size_compare_needs_decimal (self : SizeMatcher) (disk : option pydict) (v : pyval) :
  _get_disk_key (base self) disk = Ok v ->
  (forall s, v = PStr s -> ~ has_decimal s) ->
  SizeMatcher_compare self disk =
    Raise (match v with
           | PStr _ => IndexError "list index out of range"
           | _ => TypeError "expected string or bytes-like object"
           end).
Proof.
  intros Hkey Hno. unfold SizeMatcher_compare. rewrite Hkey. simpl.
  destruct v as [|b|z|s]; try reflexivity. simpl.
  destruct (re_findall re_decimal s) as [|x l] eqn:Hf; [reflexivity|].
  destruct (Hno s eq_refl). by apply (findall_decimal_has_decimal s x l).
Qed.

Lemma size_compare_needs_decimal_witness :
  SizeMatcher_compare (set_exact (blank_size_matcher false (PStr "10G")) ("10", "GB"))
    (Some whole_size_disk)
  = Raise (IndexError "list index out of range").
Proof.
  apply (size_compare_needs_decimal _ (Some whole_size_disk) (PStr "10 GB")).
  - vm_compute. reflexivity.
  - intros s Hs Hdec. injection Hs as <-.
    apply has_decimal_decided in Hdec. vm_compute in Hdec. discriminate.
Defined.

(** ** What [_parse_filter] leaves in a [SizeMatcher] *)

Lemma normalize_suffix_canonical (x u : string) :
  _normalize_suffix x = Ok u -> canonical_unit u.
Proof.
  unfold _normalize_suffix, canonical_unit. simpl.
  destruct (String.eqb_spec x "MB") as [->|?]; [intros [= <-]; auto|].
  destruct (String.eqb_spec x "GB") as [->|?]; [intros [= <-]; auto|].
  destruct (String.eqb_spec x "TB") as [->|?]; [intros [= <-]; auto|].
  destruct (String.eqb_spec x "M") as [->|?]; [intros [= <-]; auto|].
  destruct (String.eqb_spec x "G") as [->|?]; [intros [= <-]; auto|].
  destruct (String.eqb_spec x "T") as [->|?]; [intros [= <-]; auto|].
  discriminate.
Qed.

Lemma index0_elem {A} (l : list A) (x : A) : index0 l = Ok x -> x ∈ l.
Proof. destruct l; [discriminate|]. intros [= ->]. apply elem_of_cons. auto. Qed.

Lemma get_k_v_ok (g k u : string) :
  _get_k_v (PStr g) = Ok (k, u) -> is_run is_digit k = true /\ canonical_unit u.
Proof.
  unfold _get_k_v, _parse_suffix. simpl. intros H.
  inv_bind H. rename a into k'. inv_bind H. rename a into u'. injection H as <- <-.
  inv_bind Hstep0. rename a into x.
  split; [|by apply (normalize_suffix_canonical x)].
  apply index0_elem in Hstep.
  apply findall_from_sound in Hstep as (pre & rest & _ & run & m & -> & Hrun & ->).
  by rewrite str_app_nil_r.
Qed.

Lemma get_k_v_pair (g : string) (kv : string * string) :
  _get_k_v (PStr g) = Ok kv ->
  bound_ok (Some (fst kv), Some (snd kv)).
Proof.
  destruct kv as [k u]. intros H. apply get_k_v_ok in H as [? ?].
  right. by exists k, u.
Qed.

Lemma parsed_set_low (self : SizeMatcher) (kv : string * string) :
  parsed self -> bound_ok (Some (fst kv), Some (snd kv)) -> parsed (set_low self kv).
Proof. intros (? & ? & ?) ?. by repeat split. Qed.

Lemma parsed_set_high (self : SizeMatcher) (kv : string * string) :
  parsed self -> bound_ok (Some (fst kv), Some (snd kv)) -> parsed (set_high self kv).
Proof. intros (? & ? & ?) ?. by repeat split. Qed.

Lemma parsed_set_exact (self : SizeMatcher) (kv : string * string) :
  parsed self -> bound_ok (Some (fst kv), Some (snd kv)) -> parsed (set_exact self kv).
Proof. intros (? & ? & ?) ?. by repeat split. Qed.

Lemma parse_filter_parsed (self self' : SizeMatcher) :
  parsed self -> _parse_filter self = Ok self' -> parsed self'.
Proof.
  unfold _parse_filter. intros Hp H.
  repeat match goal with
         | H : bind _ _ = Ok _ |- _ => inv_bind H
         end.
  destruct (_ && _); [discriminate|]. injection H as <-.
  repeat match goal with
         | H : match ?o with Some _ => _ | None => _ end = Ok _ |- _ => destruct o
         | H : match split_colon ?g with [] => _ | _ :: _ => _ end = Ok _ |- _ =>
             destruct (split_colon g) as [|? [|? [|? ?]]]; try discriminate
         | H : bind _ _ = Ok _ |- _ => inv_bind H
         | H : Ok _ = Ok _ |- _ => injection H as <-
         | H : _get_k_v (PStr _) = Ok _ |- _ => apply get_k_v_pair in H
         end;
    repeat first [ assumption | apply parsed_set_low | apply parsed_set_high
                 | apply parsed_set_exact ].
Qed.

Lemma size_matcher_init_parsed (virt : bool) (attr : pyval) (k : string) (self : SizeMatcher) :
  SizeMatcher_init virt attr k = Ok self -> parsed self.
Proof.
  unfold SizeMatcher_init. apply parse_filter_parsed.
  repeat split; by left.
Qed.

(** ** [float()] on what the patterns extract *)

Lemma digit_not_point (a : ascii) : is_digit a = true -> Ascii.eqb a "."%char = false.
Proof.
  intros H. destruct (Ascii.eqb_spec a "."%char) as [->|]; [|done].
  vm_compute in H. discriminate.
Qed.

Lemma digits_value_Some (s : string) :
  forallb_str is_digit s = true -> forall acc, exists n, digits_value acc s = Some n.
Proof.
  induction s as [|a s IH]; intros H acc; simpl in *; [eauto|].
  apply andb_true_iff in H as [-> H]. by apply IH.
Qed.

Lemma forallb_str_app (p : ascii -> bool) (s t : string) :
  forallb_str p (s ++ t) = forallb_str p s && forallb_str p t.
Proof.
  induction s as [|a s IH]; [done|].
  change (p a && forallb_str p (s ++ t) = p a && forallb_str p s && forallb_str p t).
  by rewrite IH, andb_assoc.
Qed.

Lemma split_dot_digits (s : string) :
  forallb_str is_digit s = true -> split_dot s = (s, None).
Proof.
  induction s as [|a s IH]; intros H; simpl in *; [done|].
  apply andb_true_iff in H as [Ha H]. by rewrite (digit_not_point a Ha), (IH H).
Qed.

Lemma split_dot_point (d1 rest : string) :
  forallb_str is_digit d1 = true -> split_dot (d1 ++ String "." rest) = (d1, Some rest).
Proof.
  induction d1 as [|a d1 IH]; intros H; [done|]. simpl in H.
  apply andb_true_iff in H as [Ha H].
  change (split_dot (String a (d1 ++ String "." rest)) = (String a d1, Some rest)).
  simpl. by rewrite (digit_not_point a Ha), (IH H).
Qed.

Lemma is_run_nonempty (p : ascii -> bool) (s : string) :
  is_run p s = true -> String.eqb s "" = false.
Proof. unfold is_run. intros H. apply andb_true_iff in H as [H _]. by apply negb_true_iff. Qed.

(** [float()] accepts every run of digits. *)
Lemma py_float_digits (k : string) :
  is_run is_digit k = true -> exists v, py_float k = Ok v.
Proof.
  intros H. unfold py_float.
  rewrite (split_dot_digits k) by (by apply is_run_forallb in H as [_ ?]).
  rewrite (is_run_nonempty _ _ H).
  destruct (digits_value_Some k) with (acc := 0) as [n ->];
    [by apply is_run_forallb in H as [_ ?] | eauto].
Qed.

(** [float()] accepts digits, a point and digits. *)
Lemma py_float_decimal (d1 d2 : string) :
  is_run is_digit d1 = true -> is_run is_digit d2 = true ->
  exists v, py_float (d1 ++ "." ++ d2) = Ok v.
Proof.
  intros H1 H2. unfold py_float.
  change (d1 ++ "." ++ d2) with (d1 ++ String "." d2).
  rewrite (split_dot_point d1 d2) by (by apply is_run_forallb in H1 as [_ ?]).
  rewrite (is_run_nonempty _ _ H1), (is_run_nonempty _ _ H2). simpl.
  destruct (digits_value_Some (d1 ++ d2)) with (acc := 0) as [n ->]; [|eauto].
  rewrite forallb_str_app.
  apply is_run_forallb in H1 as [_ ->]. by apply is_run_forallb in H2 as [_ ->].
Qed.

(** ** The patterns on a device size "<float> <unit>" *)

(** The head of [s], if any, is not of the class [c]. *)
Definition stops (c : cclass) (s : string) : Prop :=
  match s with
  | EmptyString => True
  | String a _ => in_class c a = false
  end.

Lemma match_here_plus_stop (c : cclass) (r : regex) (start : bool) (s : string) :
  stops c s -> match_here (Atom c Plus :: r) start s = None.
Proof.
  destruct s as [|a s]; [done|]. intros H.
  change (in_class c a = false) in H. rewrite match_here_plus. by rewrite H.
Qed.

(** A run that cannot be extended is what the greedy [+] takes, when the
    rest of the pattern matches behind it. *)
Lemma match_here_plus_run (c : cclass) (r : regex) (run s m rest : string) (start : bool) :
  is_run (in_class c) run = true -> stops c s ->
  match_here r false s = Some (m, rest) ->
  match_here (Atom c Plus :: r) start (run ++ s) = Some (run ++ m, rest).
Proof.
  intros Hrun Hstop Hm. apply is_run_forallb in Hrun as [Hne Hall].
  revert start. induction run as [|a run IH]; intros start; [done|].
  simpl in Hall. apply andb_true_iff in Hall as [Ha Hall].
  change (match_here (Atom c Plus :: r) start (String a (run ++ s))
          = Some (String a (run ++ m), rest)).
  rewrite match_here_plus, Ha.
  destruct run as [|b run].
  - change ("" ++ s) with s. rewrite (match_here_plus_stop c r false s Hstop), Hm. done.
  - by rewrite (IH ltac:(done) Hall false).
Qed.

Lemma findall_from_head (r : regex) (start : bool) (s m rest : string) :
  s <> "" -> match_here r start s = Some (m, rest) ->
  index0 (findall_from r start 0 s) = Ok m.
Proof. destruct s as [|a s]; [done|]. intros _ H. simpl. by rewrite H. Qed.

(** The first <digits>.<digits> of a device size is its number. *)
Lemma findall_decimal_device_size (d1 d2 u : string) :
  is_run is_digit d1 = true -> is_run is_digit d2 = true ->
  index0 (re_findall re_decimal (device_size d1 d2 u)) = Ok (d1 ++ "." ++ d2).
Proof.
  intros H1 H2. unfold re_findall, device_size.
  assert (Hm : match_here re_decimal true (d1 ++ String "." (d2 ++ String " " u))
               = Some (d1 ++ String "." (d2 ++ ""), String " " u)).
  { apply match_here_plus_run; [done | vm_compute; reflexivity |].
    change (cons_match "." (match_here [Atom Digit Plus] false (d2 ++ String " " u))
            = Some (String "." (d2 ++ ""), String " " u)).
    rewrite (match_here_plus_run Digit [] d2 (String " " u) "" (String " " u) false);
      [done | done | vm_compute; reflexivity | done]. }
  rewrite str_app_nil_r in Hm.
  eapply findall_from_head; [|exact Hm].
  destruct d1; [discriminate H1 | discriminate].
Qed.

Lemma digit_not_letter (a : ascii) : is_digit a = true -> is_letter a = false.
Proof.
  unfold is_digit, is_letter, is_upper, is_lower.
  generalize (N_of_ascii a). intros n H.
  apply andb_true_iff in H as [H1 H2].
  apply N.leb_le in H1, H2.
  apply orb_false_iff. split; apply andb_false_iff; left; apply N.leb_gt; lia.
Qed.

(** [re.findall] with [[a-zA-Z]+] passes over the characters that are not
    letters. *)
Lemma findall_letters_skip (pre s : string) (start : bool) :
  pre <> "" -> forallb_str (fun a => negb (is_letter a)) pre = true ->
  findall_from re_letters start 0 (pre ++ s) = findall_from re_letters false 0 s.
Proof.
  revert start. induction pre as [|a pre IH]; intros start Hne Hall; [done|].
  simpl in Hall. apply andb_true_iff in Hall as [Ha Hall].
  apply negb_true_iff in Ha.
  change (findall_from re_letters start 0 (String a (pre ++ s))
          = findall_from re_letters false 0 s).
  assert (Hnone : match_here re_letters start (String a (pre ++ s)) = None).
  { unfold re_letters. rewrite match_here_plus.
    change (in_class Letter a) with (is_letter a). by rewrite Ha. }
  change (findall_from re_letters start 0 (String a (pre ++ s)))
    with (match match_here re_letters start (String a (pre ++ s)) with
          | Some (m, _) => m :: findall_from re_letters false (String.length m - 1) (pre ++ s)
          | None => findall_from re_letters false 0 (pre ++ s)
          end).
  rewrite Hnone. destruct pre as [|b pre]; [done|]. by apply IH.
Qed.

Lemma digits_not_letters (d : string) :
  forallb_str is_digit d = true -> forallb_str (fun a => negb (is_letter a)) d = true.
Proof.
  induction d as [|a d IH]; [done|]. simpl. intros H.
  apply andb_true_iff in H as [Ha H]. by rewrite (digit_not_letter a Ha), (IH H).
Qed.

(** The first run of letters of a device size is its unit. *)
Lemma findall_letters_device_size (d1 d2 u : string) :
  is_run is_digit d1 = true -> is_run is_digit d2 = true -> In u supported_suffixes ->
  index0 (re_findall re_letters (device_size d1 d2 u)) = Ok u.
Proof.
  intros H1 H2 Hu. unfold re_findall, device_size.
  apply is_run_forallb in H1 as [Hne1 Hall1].
  apply is_run_forallb in H2 as [Hne2 Hall2].
  rewrite findall_letters_skip by (done || by apply digits_not_letters).
  rewrite (findall_letters_skip "." (d2 ++ " " ++ u)) by done.
  rewrite findall_letters_skip by (done || by apply digits_not_letters).
  rewrite (findall_letters_skip " " u) by done.
  simpl in Hu. destruct Hu as [<-|[<-|[<-|[<-|[<-|[<-|Hu]]]]]]; by try destruct Hu.
Qed.

(** The unit of a device size is normalized to its two-letter form. *)
Lemma normalize_suffix_supported (u : string) :
  In u supported_suffixes ->
  exists unit, _normalize_suffix u = Ok unit /\ canonical_unit unit.
Proof.
  simpl. intros [<-|[<-|[<-|[<-|[<-|[<-|Hu]]]]]]; try (by destruct Hu);
    eexists; (split; [reflexivity|]); unfold canonical_unit; auto.
Qed.

(** [to_byte] is the conversion of the specification. *)
Lemma to_byte_bytes_of (a : float_arg) (u : string) :
  to_byte (a, Some u) = (value <- py_float_arg a ;; Ok (bytes_of value u)).
Proof.
  unfold to_byte, bytes_of, unit_factor. simpl.
  destruct (py_float_arg a) as [v|e]; [|done]. simpl.
  destruct (String.eqb_spec u "MB") as [->|?]; [done|].
  destruct (String.eqb_spec u "GB") as [->|?]; [done|].
  destruct (String.eqb_spec u "TB") as [->|?]; [done|].
  repeat case_decide; simplify_eq. done.
Qed.

Lemma bytes_of_canonical (v : float) (u : string) :
  canonical_unit u -> exists b, bytes_of v u = Some b.
Proof. intros [-> | [-> | ->]]; eexists; reflexivity. Qed.

(** ** C6: the comparison of sizes *)

(** A bound of a parsed filter is not set, or has bytes, and [all] and
    [to_byte] agree with that. *)
Lemma bound_cases (t : option string * option string) :
  bound_ok t ->
  (pair_of t = None /\ all_pair t = false) \/
  (exists kv b, pair_of t = Some kv /\ all_pair t = true /\
                to_byte (bound t) = Ok (Some b) /\ bound_bytes kv = Some b).
Proof.
  intros [-> | (k & u & -> & Hk & Hu)]; [by left | right].
  destruct (py_float_digits k Hk) as [v Hv].
  destruct (bytes_of_canonical v u Hu) as [b Hb].
  exists (k, u), b. split; [done|]. split.
  - unfold all_pair. simpl. rewrite (is_run_nonempty _ _ Hk).
    by destruct Hu as [-> | [-> | ->]].
  - unfold bound, bound_bytes. simpl. rewrite to_byte_bytes_of. simpl.
    rewrite Hv. cbn [bind]. by rewrite Hb.
Qed.

(** ** Binary64 on whole numbers *)

Lemma digits2_pos_log2 (p : positive) : Zpos (digits2_pos p) = Z.log2 (Zpos p) + 1.
Proof.
  assert (H : forall q, digits2_pos q = Pos.size q).
  { induction q as [q IH|q IH|]; simpl; by rewrite ?IH. }
  rewrite H. destruct p; simpl; lia.
Qed.

Lemma log2_bounds (w : Z) : 0 < w -> 2 ^ Z.log2 w <= w < 2 ^ (Z.log2 w + 1).
Proof. intros H. pose proof (Z.log2_spec w H). by rewrite <- Z.add_1_r in *. Qed.

Lemma log2_below_53 (w : Z) : 0 < w < 2 ^ 53 -> 0 <= Z.log2 w <= 52.
Proof.
  intros [H0 H1]. split; [apply Z.log2_nonneg|].
  apply Z.lt_succ_r, Z.log2_lt_pow2; [done|]. exact H1.
Qed.

(** The mantissa of [sf_of_Z]: 53 bits. *)
Lemma mantissa_bounds (w : Z) :
  0 < w < 2 ^ 53 ->
  2 ^ 52 <= w * 2 ^ (52 - Z.log2 w) < 2 ^ 53 /\
  Z.log2 (w * 2 ^ (52 - Z.log2 w)) = 52.
Proof.
  intros Hw. pose proof (log2_below_53 w Hw) as HL.
  assert (Hlog : Z.log2 (w * 2 ^ (52 - Z.log2 w)) = 52).
  { rewrite Z.log2_mul_pow2 by lia. lia. }
  split; [|done].
  assert (Hpos : 0 < w * 2 ^ (52 - Z.log2 w)) by (apply Z.mul_pos_pos; [lia | apply Z.pow_pos_nonneg; lia]).
  pose proof (log2_bounds _ Hpos) as Hb. rewrite Hlog in Hb. exact Hb.
Qed.

Lemma sf_of_Z_valid (w : Z) : 0 <= w < 2 ^ 53 -> SpecFloat.valid_binary prec emax (sf_of_Z w) = true.
Proof.
  intros [H0 H1]. destruct w as [|p|p]; [done| |lia].
  destruct (mantissa_bounds (Zpos p)) as [Hm Hlog]; [lia|].
  pose proof (log2_below_53 (Zpos p)) as HL.
  unfold sf_of_Z, SpecFloat.valid_binary, bounded, canonical_mantissa, fexp, SpecFloat.emin.
  specialize (HL ltac:(lia)).
  rewrite digits2_pos_log2, Z2Pos.id by (destruct Hm; eapply Z.lt_le_trans; [|eassumption]; done).
  rewrite Hlog. change prec with 53. change emax with 1024.
  apply andb_true_iff. split; [apply Z.eqb_eq | apply Z.leb_le]; lia.
Qed.

(** Shifting out zeros loses nothing. *)
Lemma shr_1_even (y : Z) :
  0 < y ->
  shr_1 {| shr_m := 2 * y; shr_r := false; shr_s := false |}
    = {| shr_m := y; shr_r := false; shr_s := false |}.
Proof. by destruct y. Qed.

Lemma pow2_xO (p : positive) : 2 ^ Zpos p~0 = 2 ^ Zpos p * 2 ^ Zpos p.
Proof.
  change (Zpos p~0) with (2 * Zpos p). replace (2 * Zpos p) with (Zpos p + Zpos p) by lia.
  apply Z.pow_add_r; lia.
Qed.

Lemma pow2_xI (p : positive) : 2 ^ Zpos p~1 = 2 * (2 ^ Zpos p * 2 ^ Zpos p).
Proof.
  change (Zpos p~1) with (2 * Zpos p + 1).
  replace (2 * Zpos p + 1) with (1 + (Zpos p + Zpos p)) by lia.
  rewrite !Z.pow_add_r by lia. by rewrite Z.pow_1_r.
Qed.

Lemma iter_shr_exact (p : positive) (m : Z) :
  0 < m ->
  SpecFloat.iter_pos shr_1 p {| shr_m := m * 2 ^ Zpos p; shr_r := false; shr_s := false |}
    = {| shr_m := m; shr_r := false; shr_s := false |}.
Proof.
  revert m. induction p as [p IH|p IH|]; intros m Hm; cbn [SpecFloat.iter_pos].
  - assert (Hpow : 0 < 2 ^ Zpos p) by (apply Z.pow_pos_nonneg; lia).
    rewrite pow2_xI.
    replace (m * (2 * (2 ^ Zpos p * 2 ^ Zpos p))) with (2 * (m * 2 ^ Zpos p * 2 ^ Zpos p)) by ring.
    rewrite shr_1_even by (repeat apply Z.mul_pos_pos; done).
    rewrite IH by (apply Z.mul_pos_pos; done). by apply IH.
  - assert (Hpow : 0 < 2 ^ Zpos p) by (apply Z.pow_pos_nonneg; lia).
    rewrite pow2_xO, Z.mul_assoc.
    rewrite IH by (apply Z.mul_pos_pos; done). by apply IH.
  - rewrite Z.pow_1_r, Z.mul_comm. by apply shr_1_even.
Qed.

(** The product of two integers that fits in 53 bits is exact. *)
Lemma SFmul_exact (a b : Z) :
  0 <= a -> 0 <= b -> a * b < 2 ^ 53 ->
  SFmul prec emax (sf_of_Z a) (sf_of_Z b) = sf_of_Z (a * b).
Proof.
  intros Ha Hb Hab.
  destruct a as [|pa|pa], b as [|pb|pb]; try lia; try done.
  assert (Ha53 : Zpos pa < 2 ^ 53) by nia.
  assert (Hb53 : Zpos pb < 2 ^ 53) by nia.
  set (a := Zpos pa) in *. set (b := Zpos pb) in *.
  pose proof (log2_below_53 a ltac:(lia)) as HLa.
  pose proof (log2_below_53 b ltac:(lia)) as HLb.
  pose proof (log2_below_53 (a * b) ltac:(lia)) as HLw.
  destruct (mantissa_bounds a ltac:(lia)) as [Hma _].
  destruct (mantissa_bounds b ltac:(lia)) as [Hmb _].
  destruct (mantissa_bounds (a * b) ltac:(lia)) as [Hmw Hlogw].
  assert (Hsum : Z.log2 a + Z.log2 b <= Z.log2 (a * b)).
  { apply Z.log2_le_pow2; [lia|]. rewrite Z.pow_add_r by lia.
    pose proof (log2_bounds a ltac:(lia)). pose proof (log2_bounds b ltac:(lia)). nia. }
  set (La := Z.log2 a) in *. set (Lb := Z.log2 b) in *. set (Lw := Z.log2 (a * b)) in *.
  change (sf_of_Z a) with (S754_finite false (Z.to_pos (a * 2 ^ (52 - La))) (La - 52)).
  change (sf_of_Z b) with (S754_finite false (Z.to_pos (b * 2 ^ (52 - Lb))) (Lb - 52)).
  assert (Hw : sf_of_Z (a * b)
               = S754_finite false (Z.to_pos (a * b * 2 ^ (52 - Lw))) (Lw - 52)) by done.
  rewrite Hw. cbn [SFmul xorb]. unfold binary_round_aux.
  set (n := Lw + 52 - La - Lb).
  assert (HM : Zpos (Z.to_pos (a * 2 ^ (52 - La)) * Z.to_pos (b * 2 ^ (52 - Lb)))
               = (a * b * 2 ^ (52 - Lw)) * 2 ^ n).
  { rewrite Pos2Z.inj_mul, !Z2Pos.id by lia. unfold n.
    replace (a * 2 ^ (52 - La) * (b * 2 ^ (52 - Lb)))
      with (a * b * (2 ^ (52 - La) * 2 ^ (52 - Lb))) by ring.
    transitivity (a * b * 2 ^ ((52 - Lw) + (Lw + 52 - La - Lb))).
    - f_equal. rewrite <- Z.pow_add_r by lia. f_equal. lia.
    - rewrite Z.pow_add_r by lia. ring. }
  assert (Hfirst : shr_fexp prec emax
                     (Zpos (Z.to_pos (a * 2 ^ (52 - La)) * Z.to_pos (b * 2 ^ (52 - Lb))))
                     (La - 52 + (Lb - 52)) loc_Exact
                   = ({| shr_m := a * b * 2 ^ (52 - Lw); shr_r := false; shr_s := false |},
                      Lw - 52)).
  { unfold shr_fexp, fexp, SpecFloat.emin. cbn [Zdigits2]. rewrite digits2_pos_log2, HM.
    rewrite Z.log2_mul_pow2, Hlogw by lia. cbn [shr_record_of_loc].
    change prec with 53. change emax with 1024.
    match goal with |- context [shr _ _ ?k] => replace k with n by lia end.
    unfold shr. destruct n as [|pn|pn] eqn:Hn; [lia| |lia].
    rewrite iter_shr_exact by lia. f_equal. lia. }
  rewrite Hfirst. cbn [shr_m loc_of_shr_record round_nearest_even].
  assert (Hsecond : shr_fexp prec emax (a * b * 2 ^ (52 - Lw)) (Lw - 52) loc_Exact
                    = ({| shr_m := a * b * 2 ^ (52 - Lw); shr_r := false; shr_s := false |},
                       Lw - 52)).
  { unfold shr_fexp, fexp, SpecFloat.emin. cbn [shr_record_of_loc].
    destruct (a * b * 2 ^ (52 - Lw)) as [|pm|pm] eqn:Hpm; [lia| |lia].
    cbn [Zdigits2]. rewrite digits2_pos_log2, Hlogw.
    change prec with 53. change emax with 1024.
    match goal with |- context [shr _ _ ?k] => replace k with 0 by lia end.
    done. }
  rewrite Hsecond. cbn [shr_m].
  destruct (a * b * 2 ^ (52 - Lw)) as [|pm|pm] eqn:Hpm; [lia| |lia].
  change prec with 53. change emax with 1024.
  destruct (Z.leb_spec (Lw - 52) (1024 - 53)); [done | lia].
Qed.

(** Comparing two integers held exactly is comparing the integers. *)
Lemma SFcompare_exact (a b : Z) :
  0 <= a < 2 ^ 53 -> 0 <= b < 2 ^ 53 ->
  SFcompare (sf_of_Z a) (sf_of_Z b) = Some (a ?= b).
Proof.
  intros Ha Hb.
  destruct a as [|pa|pa], b as [|pb|pb]; try lia; try done.
  set (a := Zpos pa) in *. set (b := Zpos pb) in *.
  pose proof (log2_bounds a ltac:(lia)) as Hba.
  pose proof (log2_bounds b ltac:(lia)) as Hbb.
  pose proof (log2_below_53 a ltac:(lia)) as HLa.
  pose proof (log2_below_53 b ltac:(lia)) as HLb.
  destruct (mantissa_bounds a ltac:(lia)) as [Hma _].
  destruct (mantissa_bounds b ltac:(lia)) as [Hmb _].
  change (sf_of_Z a) with (S754_finite false (Z.to_pos (a * 2 ^ (52 - Z.log2 a))) (Z.log2 a - 52)).
  change (sf_of_Z b) with (S754_finite false (Z.to_pos (b * 2 ^ (52 - Z.log2 b))) (Z.log2 b - 52)).
  cbn [SFcompare]. f_equal.
  destruct (Z.compare_spec (Z.log2 a - 52) (Z.log2 b - 52)) as [Heq | Hlt | Hgt].
  - assert (HL : Z.log2 a = Z.log2 b) by lia. rewrite HL in *.
    change (PosDef.Pos.compare_cont Eq ?x ?y) with (Pos.compare x y).
    rewrite <- Z2Pos.inj_compare by lia.
    symmetry. apply Zmult_compare_compat_r. apply Z.lt_gt, Z.pow_pos_nonneg; lia.
  - symmetry. apply Z.compare_lt_iff.
    assert (2 ^ (Z.log2 a + 1) <= 2 ^ Z.log2 b) by (apply Z.pow_le_mono_r; lia). lia.
  - symmetry. apply Z.compare_gt_iff.
    assert (2 ^ (Z.log2 b + 1) <= 2 ^ Z.log2 a) by (apply Z.pow_le_mono_r; lia). lia.
Qed.


Lemma holds_leb (x y : float) (a b : Z) :
  holds x a -> holds y b -> (x <=? y)%float = (a <=? b).
Proof.
  intros [Ha Hx] [Hb Hy]. rewrite FloatAxioms.leb_spec, Hx, Hy. unfold SFleb.
  rewrite (SFcompare_exact a b Ha Hb). unfold Z.leb. by destruct (a ?= b).
Qed.

Lemma holds_eqb (x y : float) (a b : Z) :
  holds x a -> holds y b -> (x =? y)%float = (a =? b).
Proof.
  intros [Ha Hx] [Hb Hy]. rewrite FloatAxioms.eqb_spec, Hx, Hy. unfold SFeqb.
  rewrite (SFcompare_exact a b Ha Hb).
  destruct (Z.eqb_spec a b) as [->|Hne]; [by rewrite Z.compare_refl|].
  destruct (a ?= b) eqn:E; try done. by apply Z.compare_eq in E.
Qed.

Lemma holds_mul (x y : float) (a b : Z) :
  holds x a -> holds y b -> a * b < 2 ^ 53 -> holds (x * y)%float (a * b).
Proof.
  intros [Ha Hx] [Hb Hy] Hab. split; [nia|].
  rewrite FloatAxioms.mul_spec, Hx, Hy. apply SFmul_exact; lia.
Qed.

(** [float_of_ratio] on a quotient that is a whole number. *)
Lemma float_of_ratio_whole (z d : Z) :
  0 <= z < 2 ^ 53 -> 0 < d -> holds (float_of_ratio (z * d) d) z.
Proof.
  intros Hz Hd. split; [done|].
  rewrite <- (FloatAxioms.Prim2SF_SF2Prim (sf_of_Z z)) by (by apply sf_of_Z_valid). f_equal.
  destruct (Z.eq_dec z 0) as [->|Hz0]; [done|].
  assert (Hzpos : 0 < z) by lia.
  pose proof (log2_bounds z Hzpos) as Hbz.
  pose proof (log2_bounds d Hd) as Hbd.
  pose proof (log2_below_53 z ltac:(lia)) as HL.
  destruct (mantissa_bounds z ltac:(lia)) as [Hm _].
  assert (Hn : 0 < z * d) by nia.
  pose proof (Z.log2_nonneg d) as HD0.
  assert (Hlow : Z.log2 z + Z.log2 d <= Z.log2 (z * d)).
  { apply Z.log2_le_pow2; [lia|]. rewrite Z.pow_add_r by lia. nia. }
  assert (Hhigh : Z.log2 (z * d) <= Z.log2 z + Z.log2 d + 1).
  { apply Z.lt_succ_r, Z.log2_lt_pow2; [lia|].
    replace (Z.succ (Z.log2 z + Z.log2 d + 1)) with ((Z.log2 z + 1) + (Z.log2 d + 1)) by lia.
    rewrite Z.pow_add_r by lia. nia. }
  set (L := Z.log2 z) in *. set (D := Z.log2 d) in *.
  assert (Hquo : forall e, e = L - 52 \/ e = L - 51 ->
            ((if 0 <=? e then z * d / (d * 2 ^ e) else z * d * 2 ^ (- e) / d) <? 2 ^ 52)
            = (e =? L - 51)).
  { intros e He.
    assert (Hshift : forall j, 0 <= j -> z * d * 2 ^ j / d = z * 2 ^ j).
    { intros j Hj. replace (z * d * 2 ^ j) with (z * 2 ^ j * d) by ring.
      apply Z.div_mul. lia. }
    assert (Hdiv : 0 <= e -> z * d / (d * 2 ^ e) = z / 2 ^ e).
    { intros He0. rewrite (Z.mul_comm z d). apply Z.div_mul_cancel_l; [|lia].
      apply Z.pow_nonzero; lia. }
    destruct He as [He | He].
    - (* the quotient has 53 bits *)
      replace (e =? L - 51) with false by (symmetry; apply Z.eqb_neq; lia).
      apply Z.ltb_ge. destruct (Z.leb_spec 0 e) as [He0 | He0].
      + rewrite Hdiv by done. replace e with 0 by lia. rewrite Z.pow_0_r, Z.div_1_r.
        replace 52 with L by lia. lia.
      + rewrite Hshift by lia. replace (- e) with (52 - L) by lia. lia.
    - (* the quotient has 52 bits *)
      replace (e =? L - 51) with true by (symmetry; apply Z.eqb_eq; lia).
      apply Z.ltb_lt. destruct (Z.leb_spec 0 e) as [He0 | He0].
      + rewrite Hdiv by done.
        assert (He01 : e = 0 \/ e = 1) by lia. destruct He01 as [He' | He'].
        * replace e with 0 by lia. rewrite Z.pow_0_r, Z.div_1_r.
          replace 52 with (L + 1) by lia. lia.
        * replace e with 1 by lia. rewrite Z.pow_1_r.
          apply Z.div_lt_upper_bound; lia.
      + rewrite Hshift by lia. replace (- e) with (51 - L) by lia.
        replace (52 - L) with (1 + (51 - L)) in Hm by lia.
        rewrite Z.pow_add_r, Z.pow_1_r in Hm by lia. lia. }
  unfold float_of_ratio. cbv zeta.
  destruct (Z.eqb_spec (z * d) 0) as [|_]; [lia|].
  fold D L.
  assert (He1 : (if (if 0 <=? Z.log2 (z * d) - D - 52
                     then z * d / (d * 2 ^ (Z.log2 (z * d) - D - 52))
                     else z * d * 2 ^ (- (Z.log2 (z * d) - D - 52)) / d) <? 2 ^ 52
                 then Z.log2 (z * d) - D - 52 - 1 else Z.log2 (z * d) - D - 52) = L - 52).
  { rewrite Hquo by lia.
    destruct (Z.eqb_spec (Z.log2 (z * d) - D - 52) (L - 51)); lia. }
  rewrite He1.
  replace (Z.max (L - 52) (-1074)) with (L - 52) by lia.
  assert (Hq : (if 0 <=? L - 52 then z * d else z * d * 2 ^ (- (L - 52)))
               = z * 2 ^ (52 - L) * (if 0 <=? L - 52 then d * 2 ^ (L - 52) else d)).
  { destruct (Z.leb_spec 0 (L - 52)).
    - replace (L - 52) with 0 by lia. replace (52 - L) with 0 by lia.
      rewrite Z.pow_0_r. ring.
    - replace (- (L - 52)) with (52 - L) by lia. ring. }
  rewrite Hq.
  assert (Hden : 0 < (if 0 <=? L - 52 then d * 2 ^ (L - 52) else d)).
  { destruct (Z.leb_spec 0 (L - 52)); [|done].
    apply Z.mul_pos_pos; [done | apply Z.pow_pos_nonneg; lia]. }
  set (den := if 0 <=? L - 52 then d * 2 ^ (L - 52) else d) in *.
  rewrite Z.div_mul, Z.mod_mul by lia.
  destruct (Z.ltb_spec den (2 * 0)); [lia|].
  destruct (Z.eqb_spec den (2 * 0)); [lia|]. cbn [orb andb].
  destruct (z * 2 ^ (52 - L)) as [|q|q] eqn:Hqz; [lia| |lia].
  unfold sf_of_Z. destruct z as [|pz|pz]; [lia| |lia].
  fold L. by rewrite Hqz.
Qed.

(** Whole numbers of bytes *)

Lemma holds_factor (u : string) (K : Z) :
  decimal_unit u = Some K -> exists k, unit_factor u = Some k /\ holds k K /\ 0 < K.
Proof.
  unfold decimal_unit, unit_factor.
  destruct (String.eqb u "MB"); [intros [= <-]; eexists; split; [done|]; split; [|done];
                                 split; [done | vm_compute; reflexivity]|].
  destruct (String.eqb u "GB"); [intros [= <-]; eexists; split; [done|]; split; [|done];
                                 split; [done | vm_compute; reflexivity]|].
  destruct (String.eqb u "TB"); [intros [= <-]; eexists; split; [done|]; split; [|done];
                                 split; [done | vm_compute; reflexivity]|].
  done.
Qed.

Lemma bytes_of_exact (f : float) (z : Z) (u : string) (K : Z) :
  holds f z -> decimal_unit u = Some K -> z * K < 2 ^ 53 ->
  exists g, bytes_of f u = Some g /\ holds g (z * K).
Proof.
  intros Hf Hu Hfit. destruct (holds_factor u K Hu) as (k & Hk & Hhk & _).
  unfold bytes_of. rewrite Hk. eexists. split; [reflexivity|]. by apply holds_mul.
Qed.

Lemma digits_value_ge (s : string) (acc n : Z) :
  digits_value acc s = Some n -> 0 <= acc -> acc <= n.
Proof.
  revert acc. induction s as [|a s IH]; intros acc; simpl.
  - intros [= <-]. lia.
  - destruct (is_digit a) eqn:Ha; [|done]. intros H Hacc.
    unfold is_digit in Ha. apply andb_true_iff in Ha as [Ha _]. apply N.leb_le in Ha.
    apply IH in H; lia.
Qed.

Lemma digits_value_app (s t : string) (acc : Z) :
  digits_value acc (s ++ t) = digits_value acc s ≫= fun a => digits_value a t.
Proof.
  revert acc. induction s as [|a s IH]; intros acc; [done|].
  change (digits_value acc (String a (s ++ t))
          = digits_value acc (String a s) ≫= fun a => digits_value a t).
  cbn [digits_value]. destruct (is_digit a); [apply IH | done].
Qed.

Lemma digits_value_zeros (s : string) (acc : Z) :
  forallb_str is_zero s = true ->
  digits_value acc s = Some (acc * 10 ^ Z.of_nat (String.length s)).
Proof.
  revert acc. induction s as [|a s IH]; intros acc H.
  - simpl. f_equal. lia.
  - cbn [forallb_str] in H. apply andb_true_iff in H as [Ha H].
    unfold is_zero in Ha. apply Ascii.eqb_eq in Ha as ->.
    cbn [digits_value String.length].
    change (is_digit "0") with true. cbn iota.
    rewrite (IH _ H). f_equal.
    rewrite Nat2Z.inj_succ, Z.pow_succ_r by lia.
    change (Z.of_N (N_of_ascii "0") - 48) with 0. ring.
Qed.

Lemma zero_is_digit (s : string) : forallb_str is_zero s = true -> forallb_str is_digit s = true.
Proof.
  induction s as [|a s IH]; [done|]. cbn [forallb_str]. intros H.
  apply andb_true_iff in H as [Ha H]. rewrite (IH H), andb_true_r.
  unfold is_zero in Ha. by apply Ascii.eqb_eq in Ha as ->.
Qed.

(** [float()] on a run of digits that is below 2^53. *)
Lemma py_float_whole (k : string) (z : Z) :
  is_run is_digit k = true -> digits_value 0 k = Some z -> z < 2 ^ 53 ->
  exists f, py_float k = Ok f /\ holds f z.
Proof.
  intros Hk Hz Hfit. unfold py_float.
  rewrite (split_dot_digits k) by (by apply is_run_forallb in Hk as [_ ?]).
  rewrite (is_run_nonempty _ _ Hk), Hz. eexists. split; [reflexivity|].
  pose proof (digits_value_ge k 0 z Hz ltac:(lia)).
  rewrite <- (Z.mul_1_r z) at 1. apply float_of_ratio_whole; lia.
Qed.

(** [float()] on <digits>.<zeros>. *)
Lemma py_float_whole_decimal (d1 d2 : string) (z : Z) :
  is_run is_digit d1 = true -> is_run is_zero d2 = true ->
  digits_value 0 d1 = Some z -> z < 2 ^ 53 ->
  exists f, py_float (d1 ++ "." ++ d2) = Ok f /\ holds f z.
Proof.
  intros H1 H2 Hz Hfit. unfold py_float.
  change (d1 ++ "." ++ d2) with (d1 ++ String "." d2).
  rewrite (split_dot_point d1 d2) by (by apply is_run_forallb in H1 as [_ ?]).
  rewrite (is_run_nonempty _ _ H1), (is_run_nonempty _ _ H2). cbn [orb].
  rewrite digits_value_app, Hz. cbn [mbind option_bind].
  rewrite digits_value_zeros by (by apply is_run_forallb in H2 as [_ ?]).
  eexists. split; [reflexivity|].
  pose proof (digits_value_ge d1 0 z Hz ltac:(lia)).
  apply float_of_ratio_whole; [lia|]. apply Z.pow_pos_nonneg; lia.
Qed.

(** A bound of a filter that fits: [to_byte] holds its bytes exactly, and
    they are the bytes of the specification. *)
Lemma bound_exact (k u : string) :
  is_run is_digit k = true -> canonical_unit u -> fits_double (k, u) = true ->
  exists w b,
    all_pair (Some k, Some u) = true /\
    to_byte (bound (Some k, Some u)) = Ok (Some b) /\ holds b w /\
    decimal_bound (k, u) = Some (QArith_base.inject_Z w).
Proof.
  intros Hk Hu Hfit. unfold fits_double, whole_bytes in Hfit. cbn [fst snd] in Hfit.
  destruct (digits_value 0 k) as [v|] eqn:Hv; [|done]. cbn [mbind option_bind] in Hfit.
  destruct (decimal_unit u) as [K|] eqn:HK; [|done]. cbn [fmap option_fmap option_map] in Hfit.
  apply Z.ltb_lt in Hfit.
  destruct (holds_factor u K HK) as (_ & _ & _ & HKpos).
  pose proof (digits_value_ge k 0 v Hv ltac:(lia)) as Hv0.
  destruct (py_float_whole k v Hk Hv ltac:(nia)) as (f & Hf & Hhf).
  destruct (bytes_of_exact f v u K Hhf HK Hfit) as (g & Hg & Hhg).
  exists (v * K), g. split; [|split; [|split; [done|]]].
  - unfold all_pair. cbn [fst snd truthy_opt]. rewrite (is_run_nonempty _ _ Hk).
    by destruct Hu as [-> | [-> | ->]].
  - unfold bound. cbn [fst snd]. rewrite to_byte_bytes_of. cbn [py_float_arg].
    rewrite Hf. cbn [bind]. by rewrite Hg.
  - unfold decimal_bound, decimal_bytes. cbn [fst snd]. rewrite Hv, HK. reflexivity.
Qed.

(** A device of a whole number of units that fits: the bytes [compare]
    computes are the bytes of the specification. *)
Lemma device_exact (d1 d2 u : string) :
  is_run is_digit d1 = true -> is_run is_zero d2 = true -> canonical_unit u ->
  fits_double (d1, u) = true ->
  exists w f g q,
    py_float (d1 ++ "." ++ d2) = Ok f /\
    bytes_of f u = Some g /\ holds g w /\
    decimal_device d1 d2 u = Some q /\
    forall B, QArith_base.Qle_bool q (QArith_base.inject_Z B) = (w <=? B) /\
              QArith_base.Qle_bool (QArith_base.inject_Z B) q = (B <=? w) /\
              QArith_base.Qeq_bool q (QArith_base.inject_Z B) = (w =? B).
Proof.
  intros H1 H2 Hu Hfit. unfold fits_double, whole_bytes in Hfit. cbn [fst snd] in Hfit.
  destruct (digits_value 0 d1) as [z|] eqn:Hz; [|done]. cbn [mbind option_bind] in Hfit.
  destruct (decimal_unit u) as [K|] eqn:HK; [|done]. cbn [fmap option_fmap option_map] in Hfit.
  apply Z.ltb_lt in Hfit.
  destruct (holds_factor u K HK) as (_ & _ & _ & HKpos).
  pose proof (digits_value_ge d1 0 z Hz ltac:(lia)) as Hz0.
  destruct (py_float_whole_decimal d1 d2 z H1 H2 Hz ltac:(nia)) as (f & Hf & Hhf).
  destruct (bytes_of_exact f z u K Hhf HK Hfit) as (g & Hg & Hhg).
  exists (z * K), f, g. eexists. split; [done|]. split; [done|]. split; [done|].
  split.
  - unfold decimal_device, decimal_value, decimal_bytes.
    rewrite digits_value_app, Hz. cbn [mbind option_bind].
    rewrite digits_value_zeros by (by apply is_run_forallb in H2 as [_ ?]).
    cbn [fmap option_fmap option_map mbind option_bind]. rewrite HK. reflexivity.
  - intros B.
    assert (HP : 0 < 10 ^ Z.of_nat (String.length d2)) by (apply Z.pow_pos_nonneg; lia).
    set (P := 10 ^ Z.of_nat (String.length d2)) in *.
    unfold QArith_base.Qle_bool, QArith_base.Qeq_bool, QArith_base.Qmult, QArith_base.inject_Z.
    cbn [QArith_base.Qnum QArith_base.Qden].
    rewrite Pos.mul_1_r, Z2Pos.id, !Z.mul_1_r by done.
    replace (z * P * K) with (z * K * P) by ring.
    split; [|split].
    + destruct (Z.leb_spec (z * K * P) (B * P)), (Z.leb_spec (z * K) B); try done; nia.
    + destruct (Z.leb_spec (B * P) (z * K * P)), (Z.leb_spec B (z * K)); try done; nia.
    + destruct (Z.eqb_spec (z * K * P) (B * P)), (Z.eqb_spec (z * K) B); try done; nia.
Qed.

Lemma canonical_supported (u : string) : canonical_unit u -> In u supported_suffixes.
Proof. intros [-> | [-> | ->]]; simpl; auto. Qed.

Lemma canonical_normalized (u : string) : canonical_unit u -> _normalize_suffix u = Ok u.
Proof. by intros [-> | [-> | ->]]. Qed.

(** On whole numbers that binary64 holds exactly, the comparison of sizes
    is the comparison of the specification. *)
Lemma size_compare_whole (virt : bool) (attr : pyval) (k : string)
    (self : SizeMatcher) (disk : option pydict) (rng : SizeRange) (d1 d2 u : string) :
  SizeMatcher_init virt attr k = Ok self ->
  range_of self = Some rng ->
  is_run is_digit d1 = true -> is_run is_zero d2 = true -> canonical_unit u ->
  _get_disk_key (base self) disk = Ok (PStr (device_size d1 d2 u)) ->
  fits_double (d1, u) = true -> range_fits rng = true ->
  exists device_bytes c verdict,
    decimal_device d1 d2 u = Some device_bytes /\
    decimal_in_range rng device_bytes = Some c /\
    SizeMatcher_compare self disk = Ok verdict /\
    truthy verdict = c.
Proof.
  intros Hinit Hrng H1 H2 Hu Hkey Hdev Hfits.
  destruct (size_matcher_init_parsed _ _ _ _ Hinit) as (Hl & Hh & He).
  assert (H2d : is_run is_digit d2 = true).
  { pose proof H2 as H2'. unfold is_run in H2' |- *.
    apply andb_true_iff in H2' as [-> Hz]. by apply zero_is_digit. }
  destruct (device_exact d1 d2 u H1 H2 Hu Hdev) as (w & f & g & q & Hf & Hg & Hhg & Hq & Hcmp).
  exists q.
  assert (Hstart : forall K : option float -> result pyval,
            (disk_key <- _get_disk_key (base self) disk ;;
             found <- py_findall re_decimal disk_key ;;
             first <- index0 found ;;
             disk_size <- py_float first ;;
             disk_suffix <- _parse_suffix disk_key ;;
             disk_size_in_byte <- to_byte (OfFloat disk_size, Some disk_suffix) ;;
             K disk_size_in_byte) = K (Some g)).
  { intros K. rewrite Hkey. unfold _parse_suffix. cbn [bind py_findall].
    rewrite (findall_decimal_device_size d1 d2 u H1 H2d). cbn [bind index0]. rewrite Hf.
    cbn [bind].
    rewrite (findall_letters_device_size d1 d2 u H1 H2d (canonical_supported u Hu)).
    cbn [bind index0]. rewrite (canonical_normalized u Hu). cbn [bind].
    rewrite to_byte_bytes_of. cbn [bind py_float_arg]. by rewrite Hg. }
  unfold SizeMatcher_compare. rewrite Hstart. clear Hstart.
  unfold range_of in Hrng.
  destruct Hl as [Hl | (kl & ul & Hl & Hkl & Hul)];
    destruct Hh as [Hh | (kh & uh & Hh & Hkh & Huh)];
    rewrite Hl, Hh in *; cbn [pair_of] in Hrng.
  - (* an exact size, or nothing *)
    destruct He as [He | (ke & ue & He & Hke & Hue)]; rewrite He in *; [done|].
    injection Hrng as <-. cbn [range_fits] in Hfits.
    destruct (bound_exact ke ue Hke Hue Hfits) as (we & be & Hall & Hto & Hhb & Hdec).
    rewrite Hall, Hto. cbn [all_pair fst snd truthy_opt andb negb bind py_eq].
    eexists _, _. split; [done|]. split; [cbn [decimal_in_range]; rewrite Hdec; reflexivity|].
    split; [done|]. cbn [mbind option_bind].
    rewrite (proj2 (proj2 (Hcmp we))), (holds_eqb g be w we Hhg Hhb).
    by destruct (w =? we).
  - (* a high bound *)
    injection Hrng as <-. cbn [range_fits] in Hfits.
    destruct (bound_exact kh uh Hkh Huh Hfits) as (wh & bh & Hall & Hto & Hhb & Hdec).
    rewrite Hall, Hto. cbn [all_pair fst snd truthy_opt andb negb bind py_le].
    eexists _, _. split; [done|]. split; [cbn [decimal_in_range]; rewrite Hdec; reflexivity|].
    split; [done|]. cbn [mbind option_bind].
    rewrite (proj1 (Hcmp wh)), (holds_leb g bh w wh Hhg Hhb).
    by destruct (w <=? wh).
  - (* a low bound *)
    injection Hrng as <-. cbn [range_fits] in Hfits.
    destruct (bound_exact kl ul Hkl Hul Hfits) as (wl & bl & Hall & Hto & Hhb & Hdec).
    rewrite Hall, Hto. cbn [all_pair fst snd truthy_opt andb negb bind py_ge].
    eexists _, _. split; [done|]. split; [cbn [decimal_in_range]; rewrite Hdec; reflexivity|].
    split; [done|]. cbn [mbind option_bind].
    rewrite (proj1 (proj2 (Hcmp wl))), (holds_leb bl g wl w Hhb Hhg).
    by destruct (wl <=? w).
  - (* both bounds *)
    injection Hrng as <-. cbn [range_fits] in Hfits.
    apply andb_true_iff in Hfits as [Hfl Hfh].
    destruct (bound_exact kl ul Hkl Hul Hfl) as (wl & bl & Halll & Htol & Hhbl & Hdecl).
    destruct (bound_exact kh uh Hkh Huh Hfh) as (wh & bh & Hallh & Htoh & Hhbh & Hdech).
    rewrite Halll, Hallh, Htoh. cbn [andb bind py_le].
    rewrite (holds_leb g bh w wh Hhg Hhbh).
    exists ((wl <=? w) && (w <=? wh)), (if w <=? wh then true_or_none (wl <=? w) else PNone).
    split; [done|]. split.
    { cbn [decimal_in_range]. rewrite Hdecl, Hdech. cbn [mbind option_bind].
      by rewrite (proj1 (Hcmp wh)), (proj1 (proj2 (Hcmp wl))). }
    destruct (w <=? wh).
    + rewrite Htol. cbn [bind py_ge]. rewrite (holds_leb bl g wl w Hhbl Hhg).
      split; [done|]. rewrite andb_true_r. by destruct (wl <=? w).
    + split; [done|]. by rewrite andb_false_r.
Qed.

(** C6, as stated, fails: the bytes are products of binary64 numbers, and
    the product of the double nearest to 1.07 and 1e12 is above 1070 x 10^9.
    A device of 1.07 TB is refused by the filters ":1070G", "1070G" and
    "1000G:1070G", and a device of 2.01 TB by "2010G:", while each is at an
    end of the range in decimal bytes. *)
Lemma decimal_endpoint_refused :
  (size_range ":1070G" = Some (HighOnly ("1070", "GB")) /\
   decimal_device "1" "07" "TB" ≫= decimal_in_range (HighOnly ("1070", "GB")) = Some true /\
   size_verdict ":1070G" "1.07 TB" = Ok PNone) /\
  (size_range "1000G:1070G" = Some (Bounded ("1000", "GB") ("1070", "GB")) /\
   decimal_device "1" "07" "TB" ≫= decimal_in_range (Bounded ("1000", "GB") ("1070", "GB"))
     = Some true /\
   size_verdict "1000G:1070G" "1.07 TB" = Ok PNone) /\
  (size_range "2010G:" = Some (LowOnly ("2010", "GB")) /\
   decimal_device "2" "01" "TB" ≫= decimal_in_range (LowOnly ("2010", "GB")) = Some true /\
   size_verdict "2010G:" "2.01 TB" = Ok PNone) /\
  (size_range "1070G" = Some (ExactSize ("1070", "GB")) /\
   decimal_device "1" "07" "TB" ≫= decimal_in_range (ExactSize ("1070", "GB")) = Some true /\
   size_verdict "1070G" "1.07 TB" = Ok PNone).
Proof. repeat split; vm_compute; reflexivity. Qed.

(** C6, amended. For a size filter that [SizeMatcher] parsed and a device
    whose size reads "<float> <unit>", [compare] converts both sides to
    bytes in binary64: [float()] of the digits, times 1e6 for MB, 1e9 for GB
    and 1e12 for TB ([bytes_of], [bound_bytes]); it returns a true value
    exactly when the device is in the range on these doubles ([in_range]):
    low <= device <= high for a bounded range, device >= low for a low
    bound, device <= high for a high bound, device = exact for an exact
    size. A matcher that holds no range raises. And when the device has a
    whole number of units and the bytes of the device and of the bounds are
    below 2^53, the doubles are the decimal bytes of the specification
    (value x 10^6, 10^9 or 10^12, [decimal_device], [decimal_bound]) and the
    answer is the one of the specification ([decimal_in_range]), both ends
    of a bounded range included. *)
Theorem size_compare_in_range :
  (forall (virt : bool) (attr : pyval) (k : string) (self : SizeMatcher)
          (disk : option pydict) (d1 d2 u : string),
     SizeMatcher_init virt attr k = Ok self ->
     is_run is_digit d1 = true -> is_run is_digit d2 = true -> In u supported_suffixes ->
     _get_disk_key (base self) disk = Ok (PStr (device_size d1 d2 u)) ->
     exists size unit device_bytes,
       py_float (d1 ++ "." ++ d2) = Ok size /\
       _normalize_suffix u = Ok unit /\
       bytes_of size unit = Some device_bytes /\
       match range_of self with
       | Some rng =>
           exists c verdict,
             in_range rng device_bytes = Some c /\
             SizeMatcher_compare self disk = Ok verdict /\
             truthy verdict = c
       | None => SizeMatcher_compare self disk = Raise (Exception "No filters applied")
       end) /\
  (forall (virt : bool) (attr : pyval) (k : string) (self : SizeMatcher)
          (disk : option pydict) (rng : SizeRange) (d1 d2 u : string),
     SizeMatcher_init virt attr k = Ok self ->
     range_of self = Some rng ->
     is_run is_digit d1 = true -> is_run is_zero d2 = true -> canonical_unit u ->
     _get_disk_key (base self) disk = Ok (PStr (device_size d1 d2 u)) ->
     fits_double (d1, u) = true -> range_fits rng = true ->
     exists device_bytes c verdict,
       decimal_device d1 d2 u = Some device_bytes /\
       decimal_in_range rng device_bytes = Some c /\
       SizeMatcher_compare self disk = Ok verdict /\
       truthy verdict = c).
Proof.
  split; [|exact size_compare_whole].
  intros virt attr k self disk d1 d2 u.
  intros Hinit H1 H2 Hu Hkey.
  destruct (size_matcher_init_parsed _ _ _ _ Hinit) as (Hl & Hh & He).
  destruct (py_float_decimal d1 d2 H1 H2) as [size Hsize].
  destruct (normalize_suffix_supported u Hu) as (unit & Hunit & Hcan).
  destruct (bytes_of_canonical size unit Hcan) as [dev Hdev].
  exists size, unit, dev. do 3 (split; [done|]).
  unfold SizeMatcher_compare, _parse_suffix. rewrite Hkey.
  cbn [bind py_findall].
  rewrite (findall_decimal_device_size d1 d2 u H1 H2). cbn [bind]. rewrite Hsize.
  cbn [bind]. rewrite (findall_letters_device_size d1 d2 u H1 H2 Hu). cbn [bind].
  rewrite Hunit. cbn [bind]. rewrite to_byte_bytes_of. cbn [bind py_float_arg].
  rewrite Hdev. unfold range_of.
  destruct (bound_cases _ Hl) as [[-> ->] | (lo & lb & -> & -> & -> & Hlb)];
    destruct (bound_cases _ Hh) as [[-> ->] | (hi & hb & -> & -> & -> & Hhb)];
    cbn [andb negb bind py_le py_ge in_range].
  - destruct (bound_cases _ He) as [[-> ->] | (ex & eb & -> & -> & -> & Heb)];
      cbn [bind in_range py_eq]; [done|].
    rewrite Heb. eexists _, _. split; [done|]. split; [done|].
    by destruct (dev =? eb)%float.
  - rewrite Hhb. eexists _, _. split; [done|]. split; [done|].
    by destruct (dev <=? hb)%float.
  - rewrite Hlb. eexists _, _. split; [done|]. split; [done|].
    by destruct (lb <=? dev)%float.
  - rewrite Hlb, Hhb.
    destruct (dev <=? hb)%float, (lb <=? dev)%float; by eexists _, _.
Qed.

Lemma size_compare_in_range_witness :
  (exists size unit device_bytes,
     py_float ("20" ++ "." ++ "00") = Ok size /\
     _normalize_suffix "GB" = Ok unit /\
     bytes_of size unit = Some device_bytes /\
     exists c verdict,
       in_range (Bounded ("10", "GB") ("29", "GB")) device_bytes = Some c /\
       SizeMatcher_compare
         (set_high (set_low (blank_size_matcher false (PStr "10G:29G")) ("10", "GB"))
            ("29", "GB"))
         (Some twenty_gb_disk) = Ok verdict /\
       truthy verdict = c) /\
  (exists device_bytes c verdict,
     decimal_device "20" "00" "GB" = Some device_bytes /\
     decimal_in_range (Bounded ("10", "GB") ("20", "GB")) device_bytes = Some c /\
     SizeMatcher_compare
       (set_high (set_low (blank_size_matcher false (PStr "10G:20G")) ("10", "GB"))
          ("20", "GB"))
       (Some twenty_gb_disk) = Ok verdict /\
     truthy verdict = c).
Proof.
  split.
  - refine (proj1 size_compare_in_range false (PStr "10G:29G") "size"
              (set_high (set_low (blank_size_matcher false (PStr "10G:29G")) ("10", "GB"))
                 ("29", "GB"))
              (Some twenty_gb_disk) "20" "00" "GB" _ _ _ _ _).
    + vm_compute. reflexivity.
    + reflexivity.
    + reflexivity.
    + simpl. auto.
    + vm_compute. reflexivity.
  - refine (proj2 size_compare_in_range false (PStr "10G:20G") "size"
              (set_high (set_low (blank_size_matcher false (PStr "10G:20G")) ("10", "GB"))
                 ("20", "GB"))
              (Some twenty_gb_disk) (Bounded ("10", "GB") ("20", "GB")) "20" "00" "GB"
              _ _ _ _ _ _ _ _).
    + vm_compute. reflexivity.
    + reflexivity.
    + reflexivity.
    + reflexivity.
    + right. left. reflexivity.
    + vm_compute. reflexivity.
    + vm_compute. reflexivity.
    + vm_compute. reflexivity.
Defined.

(** ** C2: the key [limit] *)

(** C2, on the code. The file has no treatment of [limit]: the validator
    rejects the key as an unsupported filter, so a [DriveGroup] whose role
    has a [limit] is not even constructed, and [_filter_devices] finds no
    matcher for it; nothing is truncated. The unit test
    [test_filter_devices_limit] expects one device. *)
Theorem limit_is_not_supported :
  _check_filter model_limit_filters
    = Raise (FilterNotSupported "Filter limit is not supported") /\
  DriveGroup_init "*" limit_fixture [] [] sample_inventory false
    = Raise (FilterNotSupported "Filter limit is not supported") /\
  _filter_devices (sample_group sample_inventory false) model_limit_filters
    = Raise (NoMatcherFound "No Matcher found for limit:1") /\
  _filter_devices (sample_group sample_inventory false) [("model", PStr "model")]
    = Ok {[ "/dev/vda"; "/dev/vdb"; "/dev/vdc" ]}.
Proof. repeat split; vm_compute; reflexivity. Qed.

(** ** C3: the supported filter names *)

(** C3, on the code. The validator knows [size], [vendor], [model] and
    [rotates]: it rejects [rotational] and [all], which the unit tests use
    as filter names, and [_assign_matchers] has no matcher for them. *)
Theorem rotational_and_all_are_rejected :
  _check_filter [("rotational", PStr "0")]
    = Raise (FilterNotSupported "Filter rotational is not supported") /\
  _check_filter [("all", PStr "True")]
    = Raise (FilterNotSupported "Filter all is not supported") /\
  _check_filter [("rotates", PStr "0")] = Ok tt /\
  _filter_devices (sample_group sample_inventory false) [("rotational", PStr "0")]
    = Raise (NoMatcherFound "No Matcher found for rotational:0") /\
  _filter_devices (sample_group sample_inventory false) [("all", PStr "True")]
    = Raise (NoMatcherFound "No Matcher found for all:True").
Proof. repeat split; vm_compute; reflexivity. Qed.

(** ** C4: a missing attribute in a virtual environment *)

(** C4, on the code. In a virtual environment [_get_disk_key] returns
    [None] for a missing attribute, not the empty string that
    [test_get_disk_key_2] expects. Against [None] the equality matcher and
    the size matcher raise a [TypeError], and the substring matcher compares
    with the text "None": the filter [model: N] selects a device that has
    no model. *)
Theorem virtual_missing_key_is_none :
  _get_disk_key (Matcher_init true (PStr "bar") "foo") (Some path_only_disk) = Ok PNone /\
  EqualityMatcher_compare (EqualityMatcher_init true (PStr "1") "rotates")
      (Some path_only_disk)
    = Raise (TypeError "int() argument must be a string, a bytes-like object or a real number, not 'NoneType'") /\
  (self <- SizeMatcher_init true (PStr "10G") "size" ;;
   SizeMatcher_compare self (Some path_only_disk))
    = Raise (TypeError "expected string or bytes-like object") /\
  SubstringMatcher_compare (SubstringMatcher_init true (PStr "N") "model" None)
      (Some path_only_disk)
    = Ok (PBool true) /\
  _filter_devices (sample_group [virtual_disk] true) [("model", PStr "N")]
    = Ok {[ "/dev/vdb" ]}.
Proof. repeat split; vm_compute; reflexivity. Qed.

(** ** C5: the shapes of a size filter *)

(** C5, on the code. The patterns take one capital letter as the unit, so
    "20GB" and "20GB:100GB" (which the unit tests parse) fit none of them;
    and since the final test of [_parse_filter] asks whether pairs are
    empty, which they never are, no exception is raised: the matcher is
    built without a range and [compare] raises on the first device. A
    string with other text behind a bounded range is accepted. *)
Theorem two_letter_units_do_not_parse :
  SizeMatcher_init false (PStr "20GB") "size"
    = Ok (blank_size_matcher false (PStr "20GB")) /\
  SizeMatcher_init false (PStr "20GB:100GB") "size"
    = Ok (blank_size_matcher false (PStr "20GB:100GB")) /\
  SizeMatcher_init false (PStr "None") "size"
    = Ok (blank_size_matcher false (PStr "None")) /\
  SizeMatcher_compare (blank_size_matcher false (PStr "20GB")) (Some twenty_gb_disk)
    = Raise (Exception "No filters applied") /\
  SizeMatcher_init false (PStr "20G") "size"
    = Ok (set_exact (blank_size_matcher false (PStr "20G")) ("20", "GB")) /\
  SizeMatcher_init false (PStr "10G:50Gxyz") "size"
    = Ok (set_high (set_low (blank_size_matcher false (PStr "10G:50Gxyz")) ("10", "GB"))
            ("50", "GB")) /\
  SizeMatcher_init false (PStr "10P") "size" = Raise (Exception "Unit P not supported").
Proof. repeat split; vm_compute; reflexivity. Qed.


(** ** Further properties of the code *)

Lemma existsb_eqb_elem (x : string) (l : list string) :
  existsb (String.eqb x) l = true <-> x ∈ l.
Proof.
  rewrite existsb_exists, list_elem_of_In. split.
  - intros (y & Hy & Heq). apply String.eqb_eq in Heq. by subst.
  - intros H. exists x. split; [done | apply String.eqb_refl].
Qed.

Lemma check_filter_cons (k : string) (v : pyval) (rest : filter_map) :
  _check_filter ((k, v) :: rest) =
  if negb (existsb (String.eqb k) _supported_filters) then
    Raise (FilterNotSupported ("Filter " ++ k ++ " is not supported"))
  else _check_filter rest.
Proof. reflexivity. Qed.

(** The validator accepts a filter dict exactly when every key is one of
    [size], [vendor], [model], [rotates]. *)
Theorem check_filter_accepts (attr : filter_map) :
  _check_filter attr = Ok tt <->
  forall name val, (name, val) ∈ attr -> name ∈ _supported_filters.
Proof.
  induction attr as [|[k v] rest IH].
  - split; [|done]. intros _ name val H. by apply elem_of_nil in H.
  - rewrite check_filter_cons.
    destruct (existsb (String.eqb k) _supported_filters) eqn:Hk; cbn [negb].
    + rewrite IH. apply existsb_eqb_elem in Hk. split.
      * intros H name val Hin. apply elem_of_cons in Hin as [[= -> ->] | Hin]; eauto.
      * intros H name val Hin. apply (H name val). apply elem_of_cons. auto.
    + split; [discriminate|]. intros H.
      assert (Hin : k ∈ _supported_filters) by (apply (H k v), elem_of_cons; auto).
      apply existsb_eqb_elem in Hin. congruence.
Qed.

Lemma check_filter_accepts_witness :
  _check_filter [("size", PStr "10G"); ("rotates", PStr "1")] = Ok tt.
Proof.
  apply (proj2 (check_filter_accepts [("size", PStr "10G"); ("rotates", PStr "1")])).
  intros name val H. apply existsb_eqb_elem.
  apply elem_of_cons in H as [[= -> ->] | H]; [reflexivity|].
  apply elem_of_cons in H as [[= -> ->] | H]; [reflexivity|].
  by apply elem_of_nil in H.
Defined.

(** The first unsupported key is the one the validator names, whatever
    follows it; and since [DriveGroup.__init__] validates the three roles
    before the object exists, no device is scanned: the inventory plays no
    part in the outcome. *)
Theorem check_filter_first_unsupported (pre post : filter_map) (k : string) (v : pyval) :
  (forall name val, (name, val) ∈ pre -> name ∈ _supported_filters) ->
  k ∉ _supported_filters ->
  _check_filter (pre ++ (k, v) :: post)%list
    = Raise (FilterNotSupported ("Filter " ++ k ++ " is not supported")) /\
  forall target wal db inv virt,
    DriveGroup_init target (pre ++ (k, v) :: post)%list wal db inv virt
      = Raise (FilterNotSupported ("Filter " ++ k ++ " is not supported")).
Proof.
  intros Hpre Hk.
  assert (H : _check_filter (pre ++ (k, v) :: post)%list
              = Raise (FilterNotSupported ("Filter " ++ k ++ " is not supported"))).
  { induction pre as [|[n w] pre IH].
    - change (_check_filter ((k, v) :: post)
              = Raise (FilterNotSupported ("Filter " ++ k ++ " is not supported"))).
      rewrite check_filter_cons.
      destruct (existsb (String.eqb k) _supported_filters) eqn:E; [|done].
      by apply existsb_eqb_elem in E.
    - change (_check_filter ((n, w) :: (pre ++ (k, v) :: post)%list)
              = Raise (FilterNotSupported ("Filter " ++ k ++ " is not supported"))).
      rewrite check_filter_cons.
      assert (Hn : n ∈ _supported_filters) by (apply (Hpre n w), elem_of_cons; auto).
      apply existsb_eqb_elem in Hn. rewrite Hn. cbn [negb]. apply IH.
      intros name val Hin. apply (Hpre name val), elem_of_cons. auto. }
  split; [exact H|]. intros target wal db inv virt.
  unfold DriveGroup_init, _check_filter_support. simpl. by rewrite H.
Qed.

Lemma check_filter_first_unsupported_witness :
  _check_filter ([("model", PStr "foo")] ++ ("unknown", PStr "foo") :: [("bad", PInt 1)])%list
    = Raise (FilterNotSupported "Filter unknown is not supported").
Proof.
  apply (check_filter_first_unsupported [("model", PStr "foo")] [("bad", PInt 1)]
           "unknown" (PStr "foo")).
  - intros name val H. apply existsb_eqb_elem.
    apply elem_of_cons in H as [[= -> ->] | H]; [reflexivity|].
    by apply elem_of_nil in H.
  - intros H. apply existsb_eqb_elem in H. vm_compute in H. discriminate.
Defined.

(** Normalizing a unit twice is normalizing it once. *)
Theorem normalize_suffix_idempotent (x u : string) :
  _normalize_suffix x = Ok u -> _normalize_suffix u = Ok u.
Proof.
  intros H. by destruct (normalize_suffix_canonical x u H) as [-> | [-> | ->]].
Qed.

Lemma normalize_suffix_idempotent_witness : _normalize_suffix "GB" = Ok "GB".
Proof. apply (normalize_suffix_idempotent "G" "GB"). reflexivity. Defined.

(** In a virtual environment a missing attribute is [None]. *)
Theorem get_disk_key_virtual (self : Matcher) (d : pydict) :
  virtual self = true -> no_value self d -> _get_disk_key self (Some d) = Ok PNone.
Proof.
  intros Hvirt [Hkey Hfall]. unfold _get_disk_key. rewrite Hkey. simpl.
  destruct (truthy_opt (fallback_key self)) eqn:Hf.
  - rewrite (Hfall eq_refl), Hvirt. reflexivity.
  - rewrite Hkey, Hvirt. reflexivity.
Qed.

Lemma get_disk_key_virtual_witness :
  _get_disk_key (Matcher_init true (PStr "bar") "foo") (Some path_only_disk) = Ok PNone.
Proof.
  apply get_disk_key_virtual; [reflexivity|].
  split; [vm_compute; reflexivity | discriminate].
Defined.

(** The reduced disk has the keys [path], [size], [vendor], [bare_size] and
    [model]: it has no key [rotates]. *)
Lemma reduce_inventory_rotates (d : disk) (rd : pydict) :
  _reduce_inventory d = Ok (Some rd) -> rd !! "rotates" = None.
Proof.
  unfold _reduce_inventory.
  destruct (available d) as [[|[|]|z|s]|]; intros H; try discriminate.
  injection H as <-.
  repeat (rewrite lookup_insert_ne by discriminate).
  by rewrite lookup_singleton_ne.
Qed.

(** The filter [rotates] never selects: over an inventory that is not
    empty, the selection raises, on a physical host and on a virtual one. *)
Theorem rotates_filter_raises (self : DriveGroup) (val : pyval) (d : disk) (rest : list disk) :
  inventory self = d :: rest ->
  exists e, _filter_devices self [("rotates", val)] = Raise e.
Proof.
  intros Hinv. unfold _filter_devices. rewrite Hinv. simpl.
  destruct (_reduce_inventory d) as [[rd|]|e] eqn:Hr; simpl; [|eauto|eauto].
  unfold __match. simpl. unfold EqualityMatcher_compare, _get_disk_key. simpl.
  unfold dict_get. rewrite (reduce_inventory_rotates d rd Hr). simpl.
  destruct (grains_virtual self); simpl; eauto.
Qed.

Lemma rotates_filter_raises_witness :
  exists e, _filter_devices (sample_group sample_inventory true) [("rotates", PStr "1")]
            = Raise e.
Proof.
  apply (rotates_filter_raises (sample_group sample_inventory true) (PStr "1")
           (sample_disk "/dev/vda" "10.00 GB" "modelA" "samsung" "1" 10474836480)
           [sample_disk "/dev/vdb" "20.00 GB" "modelB" "intel" "0" 21474836480;
            sample_disk "/dev/vdc" "30.00 GB" "modelC" "micron" "1" 32474836480]).
  reflexivity.
Defined.

(** ** More on the matcher of regular expressions *)

(** When the rest of the pattern cannot start inside the run, the greedy
    [+] takes the whole run or nothing. *)
Lemma match_here_plus_exact (c : cclass) (r : regex) (run s : string) (start : bool) :
  is_run (in_class c) run = true -> stops c s -> rejects c r ->
  match_here (Atom c Plus :: r) start (run ++ s) =
  match match_here r false s with
  | Some (m, rest) => Some (run ++ m, rest)
  | None => None
  end.
Proof.
  intros Hrun Hstop Hrej. apply is_run_forallb in Hrun as [Hne Hall].
  revert start. induction run as [|a run IH]; intros start; [done|].
  simpl in Hall. apply andb_true_iff in Hall as [Ha Hall].
  change (match_here (Atom c Plus :: r) start (String a (run ++ s)) =
          match match_here r false s with
          | Some (m, rest) => Some (String a (run ++ m), rest)
          | None => None
          end).
  rewrite match_here_plus, Ha.
  destruct run as [|b run].
  - change ("" ++ s) with s. rewrite (match_here_plus_stop c r false s Hstop).
    by destruct (match_here r false s) as [[m rest]|].
  - rewrite (IH ltac:(done) Hall false).
    destruct (match_here r false s) as [[m rest]|]; [done|].
    simpl in Hall. apply andb_true_iff in Hall as [Hb _].
    change (cons_match a (match_here r false (String b (run ++ s))) = None).
    by rewrite (Hrej b (run ++ s) Hb).
Qed.

Lemma findall_plus_start (c : cclass) (start : bool) (s : string) :
  findall_from [Atom c Plus] start 0 s = findall_from [Atom c Plus] false 0 s.
Proof. by destruct s. Qed.

(** [re.findall] with a single class passes over the characters outside it. *)
Lemma findall_plus_skip (c : cclass) (pre s : string) (start : bool) :
  forallb_str (fun a => negb (in_class c a)) pre = true ->
  findall_from [Atom c Plus] start 0 (pre ++ s) = findall_from [Atom c Plus] false 0 s.
Proof.
  revert start. induction pre as [|a pre IH]; intros start Hall.
  - apply findall_plus_start.
  - simpl in Hall. apply andb_true_iff in Hall as [Ha Hall].
    apply negb_true_iff in Ha.
    assert (Hnone : match_here [Atom c Plus] start (String a (pre ++ s)) = None).
    { rewrite match_here_plus. by rewrite Ha. }
    change (findall_from [Atom c Plus] start 0 (String a (pre ++ s))
            = findall_from [Atom c Plus] false 0 s).
    change (findall_from [Atom c Plus] start 0 (String a (pre ++ s)))
      with (match match_here [Atom c Plus] start (String a (pre ++ s)) with
            | Some (m, _) =>
                m :: findall_from [Atom c Plus] false (String.length m - 1) (pre ++ s)
            | None => findall_from [Atom c Plus] false 0 (pre ++ s)
            end).
    rewrite Hnone. by apply IH.
Qed.

(** The first run of the class is the first thing [re.findall] lists. *)
Lemma findall_plus_first (c : cclass) (pre run s : string) (start : bool) :
  forallb_str (fun a => negb (in_class c a)) pre = true ->
  is_run (in_class c) run = true -> stops c s ->
  index0 (findall_from [Atom c Plus] start 0 (pre ++ run ++ s)) = Ok run.
Proof.
  intros Hpre Hrun Hstop. rewrite findall_plus_skip by done.
  eapply findall_from_head.
  - apply is_run_forallb in Hrun as [Hne _]. by destruct run.
  - rewrite (match_here_plus_run c [] run s "" s false Hrun Hstop eq_refl).
    by rewrite str_app_nil_r.
Qed.

Lemma upper_is_letter (a : ascii) : is_upper a = true -> is_letter a = true.
Proof. unfold is_letter. by intros ->. Qed.

Lemma upper_not_digit (a : ascii) : is_upper a = true -> is_digit a = false.
Proof.
  intros H. destruct (is_digit a) eqn:Hd; [|done].
  apply digit_not_letter in Hd. by rewrite (upper_is_letter a H) in Hd.
Qed.

Lemma separator_stops (c : cclass) (s : string) :
  (c = Digit \/ c = Letter) -> forallb_str is_separator s = true -> stops c s.
Proof.
  destruct s as [|a s]; [done|]. simpl. intros Hc H.
  apply andb_true_iff in H as [H _]. unfold is_separator in H.
  apply andb_true_iff in H as [H1 H2]. apply negb_true_iff in H1, H2.
  by destruct Hc as [-> | ->].
Qed.

Lemma separators_outside (c : cclass) (s : string) :
  (c = Digit \/ c = Letter) -> forallb_str is_separator s = true ->
  forallb_str (fun a => negb (in_class c a)) s = true.
Proof.
  intros Hc. induction s as [|a s IH]; [done|]. simpl. intros H.
  apply andb_true_iff in H as [H Hs]. rewrite (IH Hs), andb_true_r.
  unfold is_separator in H. apply andb_true_iff in H as [H1 H2].
  by destruct Hc as [-> | ->].
Qed.

(** ** [_get_k_v] on digits and a capital letter *)

(** From digits followed by one capital letter, between separators,
    [_get_k_v] takes the digits and normalizes the letter. *)
Lemma get_k_v_digits_letter (pre n post : string) (U : ascii) :
  forallb_str is_separator pre = true -> forallb_str is_separator post = true ->
  is_run is_digit n = true -> is_upper U = true ->
  _get_k_v (PStr (pre ++ n ++ String U post)) =
  (u <- _normalize_suffix (String U "") ;; Ok (n, u)).
Proof.
  intros Hpre Hpost Hn HU. unfold _get_k_v, _parse_suffix. cbn [bind py_findall].
  unfold re_findall, re_digits, re_letters.
  rewrite (findall_plus_first Digit pre n (String U post) true);
    [| by apply separators_outside; auto | done | by apply upper_not_digit].
  cbn [bind].
  replace (pre ++ n ++ String U post) with ((pre ++ n) ++ String U "" ++ post)
    by (by rewrite str_app_assoc).
  rewrite (findall_plus_first Letter (pre ++ n) (String U "") post true).
  - reflexivity.
  - rewrite forallb_str_app, (separators_outside Letter pre) by auto.
    apply digits_not_letters. by apply is_run_forallb in Hn as [_ ?].
  - unfold is_run. simpl. change (in_class Letter U) with (is_letter U).
    by rewrite (upper_is_letter U HU).
  - by apply separator_stops; auto.
Qed.

Lemma normalize_unit_letter (U : ascii) (u : string) :
  unit_of_letter U = Some u -> _normalize_suffix (String U "") = Ok u.
Proof.
  unfold unit_of_letter.
  destruct (Ascii.eqb_spec U "M"%char) as [->|?]; [by intros [= <-]|].
  destruct (Ascii.eqb_spec U "G"%char) as [->|?]; [by intros [= <-]|].
  destruct (Ascii.eqb_spec U "T"%char) as [->|?]; [by intros [= <-]|].
  discriminate.
Qed.

Lemma unit_letter_upper (U : ascii) (u : string) :
  unit_of_letter U = Some u -> is_upper U = true.
Proof.
  unfold unit_of_letter.
  destruct (Ascii.eqb_spec U "M"%char) as [->|?]; [done|].
  destruct (Ascii.eqb_spec U "G"%char) as [->|?]; [done|].
  destruct (Ascii.eqb_spec U "T"%char) as [->|?]; [done|].
  discriminate.
Qed.

Lemma normalize_other_letter (U : ascii) :
  unit_of_letter U = None ->
  _normalize_suffix (String U "") = Raise (Exception ("Unit " ++ String U "" ++ " not supported")).
Proof.
  unfold unit_of_letter, _normalize_suffix.
  destruct (Ascii.eqb_spec U "M"%char) as [->|HM]; [done|].
  destruct (Ascii.eqb_spec U "G"%char) as [->|HG]; [done|].
  destruct (Ascii.eqb_spec U "T"%char) as [->|HT]; [done|].
  intros _.
  assert (H : existsb (String.eqb (String U "")) supported_suffixes = false).
  { destruct (existsb _ _) eqn:E; [|done].
    apply existsb_eqb_elem in E. unfold supported_suffixes in E.
    repeat (apply elem_of_cons in E as [[=] | E]; try congruence).
    by apply elem_of_nil in E. }
  by rewrite H.
Qed.

(** ** The four patterns on the four shapes of a size filter *)

Lemma rejects_digit_upper (r : regex) : rejects Digit (Atom Upper One :: r).
Proof.
  intros a t Ha. simpl in Ha. simpl.
  destruct (is_upper a) eqn:Hu; [|done].
  by rewrite (upper_not_digit a Hu) in Ha.
Qed.

(** Digits and a capital letter at the head of the subject. *)
Lemma match_digits_upper (r : regex) (n t : string) (U : ascii) (start : bool) :
  is_run is_digit n = true -> is_upper U = true ->
  match_here (Atom Digit Plus :: Atom Upper One :: r) start (n ++ String U t) =
  match match_here r false t with
  | Some (m, rest) => Some (n ++ String U m, rest)
  | None => None
  end.
Proof.
  intros Hn HU.
  rewrite (match_here_plus_exact Digit (Atom Upper One :: r) n (String U t) start Hn);
    [| by apply upper_not_digit | apply rejects_digit_upper].
  simpl. rewrite HU. by destruct (match_here r false t) as [[m rest]|].
Qed.

Lemma match_digits_colon (r : regex) (t : string) (start : bool) :
  match_here (Atom Digit Plus :: r) start (String ":" t) = None.
Proof. by rewrite match_here_plus. Qed.

Lemma at_end_run (m t : string) (a : ascii) :
  is_run is_digit m = true -> at_end (m ++ String a t) = false.
Proof.
  intros Hm. apply is_run_forallb in Hm as [Hne _].
  destruct m as [|d m]; [done|]. by destruct m.
Qed.

Lemma run_head (n : string) :
  is_run is_digit n = true -> exists d n', n = String d n' /\ is_digit d = true.
Proof.
  intros Hn. apply is_run_forallb in Hn as [Hne Hall].
  destruct n as [|d n']; [done|]. simpl in Hall.
  apply andb_true_iff in Hall as [Hd _]. eauto.
Qed.

Section Shapes.
Variables (n m rest : string) (U V : ascii).
Hypothesis Hn : is_run is_digit n = true.
Hypothesis Hm : is_run is_digit m = true.
Hypothesis HU : is_upper U = true.
Hypothesis HV : is_upper V = true.

(** The subjects: <n><U>:<m><V> and what follows, <n><U>:, :<m><V> and
    what follows, <n><U>. *)
Let bounded_s : string := n ++ String U (String ":" (m ++ String V rest)).
Let low_s : string := n ++ String U (String ":" "").
Let high_s : string := String ":" (m ++ String V rest).
Let exact_s : string := n ++ String U "".

Lemma low_high_on_bounded :
  re_match re_low_high bounded_s = Some (n ++ String U (String ":" (m ++ String V ""))).
Proof.
  unfold re_match, re_low_high, bounded_s. rewrite match_digits_upper by done.
  change (match_here [Atom (Lit ":") One; Atom Digit Plus; Atom Upper One] false
            (String ":" (m ++ String V rest)))
    with (cons_match ":" (match_here [Atom Digit Plus; Atom Upper One] false
                            (m ++ String V rest))).
  by rewrite match_digits_upper.
Qed.

Lemma low_on_bounded : re_match re_low bounded_s = None.
Proof.
  unfold re_match, re_low, bounded_s. rewrite match_digits_upper by done.
  change (match_here [Atom (Lit ":") One; Eol] false (String ":" (m ++ String V rest)))
    with (cons_match ":" (if at_end (m ++ String V rest)
                          then match_here [] false (m ++ String V rest) else None)).
  by rewrite at_end_run.
Qed.

Lemma exact_on_bounded : re_match re_exact bounded_s = None.
Proof.
  unfold re_match, re_exact, bounded_s.
  change (match_here [Bol; Atom Digit Plus; Atom Upper One; Eol] true
            (n ++ String U (String ":" (m ++ String V rest))))
    with (match_here [Atom Digit Plus; Atom Upper One; Eol] true
            (n ++ String U (String ":" (m ++ String V rest)))).
  rewrite match_digits_upper by done.
  destruct (run_head m Hm) as (d & m' & -> & _). done.
Qed.

Lemma low_high_on_low : re_match re_low_high low_s = None.
Proof. unfold re_match, re_low_high, low_s. by rewrite match_digits_upper. Qed.

Lemma low_on_low : re_match re_low low_s = Some (n ++ String U (String ":" "")).
Proof. unfold re_match, re_low, low_s. by rewrite match_digits_upper. Qed.

Lemma exact_on_low : re_match re_exact low_s = None.
Proof.
  unfold re_match, re_exact, low_s.
  change (match_here [Bol; Atom Digit Plus; Atom Upper One; Eol] true
            (n ++ String U (String ":" "")))
    with (match_here [Atom Digit Plus; Atom Upper One; Eol] true
            (n ++ String U (String ":" ""))).
  by rewrite match_digits_upper.
Qed.

Lemma low_high_on_high : re_match re_low_high high_s = None.
Proof. unfold re_match, re_low_high, high_s. by rewrite match_digits_colon. Qed.

Lemma low_on_high : re_match re_low high_s = None.
Proof. unfold re_match, re_low, high_s. by rewrite match_digits_colon. Qed.

Lemma high_on_high : re_match re_high high_s = Some (String ":" (m ++ String V "")).
Proof.
  unfold re_match, re_high, high_s.
  change (match_here [Bol; Atom (Lit ":") One; Atom Digit Plus; Atom Upper One] true
            (String ":" (m ++ String V rest)))
    with (cons_match ":" (match_here [Atom Digit Plus; Atom Upper One] false
                            (m ++ String V rest))).
  by rewrite match_digits_upper.
Qed.

Lemma exact_on_high : re_match re_exact high_s = None.
Proof.
  unfold re_match, re_exact, high_s.
  change (match_here [Bol; Atom Digit Plus; Atom Upper One; Eol] true
            (String ":" (m ++ String V rest)))
    with (match_here [Atom Digit Plus; Atom Upper One; Eol] true
            (String ":" (m ++ String V rest))).
  by rewrite match_digits_colon.
Qed.

Lemma low_high_on_exact : re_match re_low_high exact_s = None.
Proof. unfold re_match, re_low_high, exact_s. by rewrite match_digits_upper. Qed.

Lemma low_on_exact : re_match re_low exact_s = None.
Proof. unfold re_match, re_low, exact_s. by rewrite match_digits_upper. Qed.

Lemma exact_on_exact : re_match re_exact exact_s = Some (n ++ String U "").
Proof.
  unfold re_match, re_exact, exact_s.
  change (match_here [Bol; Atom Digit Plus; Atom Upper One; Eol] true (n ++ String U ""))
    with (match_here [Atom Digit Plus; Atom Upper One; Eol] true (n ++ String U "")).
  by rewrite match_digits_upper.
Qed.
End Shapes.

Lemma high_on_digits (n s : string) :
  is_run is_digit n = true -> re_match re_high (n ++ s) = None.
Proof.
  intros Hn. destruct (run_head n Hn) as (d & n' & -> & Hd). unfold re_match, re_high.
  change (match_here [Bol; Atom (Lit ":") One; Atom Digit Plus; Atom Upper One] true
            (String d n' ++ s))
    with (if Ascii.eqb d ":" then
            cons_match d (match_here [Atom Digit Plus; Atom Upper One] false (n' ++ s))
          else None).
  destruct (Ascii.eqb_spec d ":"%char) as [->|]; [|done]. by vm_compute in Hd.
Qed.

(** ** [_parse_filter] on the four shapes *)

Lemma split_colon_none (s : string) :
  forallb_str no_colon s = true -> split_colon s = [s].
Proof.
  induction s as [|a s IH]; [done|]. simpl. intros H.
  apply andb_true_iff in H as [Ha H]. apply negb_true_iff in Ha.
  by rewrite Ha, (IH H).
Qed.

Lemma split_colon_app (a b : string) :
  forallb_str no_colon a = true -> split_colon (a ++ String ":" b) = a :: split_colon b.
Proof.
  induction a as [|x a IH]; [done|]. simpl. intros H.
  apply andb_true_iff in H as [Hx H]. apply negb_true_iff in Hx.
  change (split_colon (String x (a ++ String ":" b)) = String x a :: split_colon b).
  simpl. by rewrite Hx, (IH H).
Qed.

Lemma digits_upper_no_colon (n : string) (U : ascii) :
  is_run is_digit n = true -> is_upper U = true ->
  forallb_str no_colon (n ++ String U "") = true.
Proof.
  intros Hn HU. rewrite forallb_str_app. apply andb_true_iff. split.
  - apply is_run_forallb in Hn as [_ Hall]. clear -Hall.
    induction n as [|d n IH]; [done|]. simpl in *.
    apply andb_true_iff in Hall as [Hd Hall]. rewrite (IH Hall), andb_true_r.
    unfold no_colon. destruct (Ascii.eqb_spec d ":"%char) as [->|]; [|done].
    by vm_compute in Hd.
  - simpl. rewrite andb_true_r. unfold no_colon.
    destruct (Ascii.eqb_spec U ":"%char) as [->|]; [|done]. by vm_compute in HU.
Qed.

Lemma split_colon_bounded (n m : string) (U V : ascii) :
  is_run is_digit n = true -> is_run is_digit m = true ->
  is_upper U = true -> is_upper V = true ->
  split_colon (n ++ String U (String ":" (m ++ String V ""))) =
  [n ++ String U ""; m ++ String V ""].
Proof.
  intros Hn Hm HU HV.
  replace (n ++ String U (String ":" (m ++ String V "")))
    with ((n ++ String U "") ++ String ":" (m ++ String V ""))
    by (by rewrite str_app_assoc).
  rewrite split_colon_app by (by apply digits_upper_no_colon).
  by rewrite split_colon_none by (by apply digits_upper_no_colon).
Qed.

Lemma get_k_v_plain (n : string) (U : ascii) (u : string) :
  is_run is_digit n = true -> unit_of_letter U = Some u ->
  _get_k_v (PStr (n ++ String U "")) = Ok (n, u).
Proof.
  intros Hn Hu.
  pose proof (get_k_v_digits_letter "" n "" U eq_refl eq_refl Hn
                (unit_letter_upper U u Hu)) as H.
  change ("" ++ n ++ String U "") with (n ++ String U "") in H.
  by rewrite H, (normalize_unit_letter U u Hu).
Qed.

(** One step of [_parse_filter]: the binds and the reads of [self.attr]. *)
Ltac parse_step :=
  cbn [bind py_match base attr set_low set_high set_exact Matcher_init virtual].

(** <digits><unit>:<digits><unit>, with M, G or T as units and whatever
    follows: the filter holds a low and a high bound. *)
Theorem parse_filter_bounded (virt : bool) (k n m rest : string) (U V : ascii) (u v : string) :
  is_run is_digit n = true -> is_run is_digit m = true ->
  unit_of_letter U = Some u -> unit_of_letter V = Some v ->
  let attr := PStr (n ++ String U (String ":" (m ++ String V rest))) in
  SizeMatcher_init virt attr k
    = Ok (set_high (set_low (blank_size_matcher virt attr) (n, u)) (m, v)) /\
  range_of (set_high (set_low (blank_size_matcher virt attr) (n, u)) (m, v))
    = Some (Bounded (n, u) (m, v)).
Proof.
  intros Hn Hm Hu Hv attr. split; [|done].
  pose proof (unit_letter_upper U u Hu) as HU.
  pose proof (unit_letter_upper V v Hv) as HV.
  unfold SizeMatcher_init, _parse_filter, attr. parse_step.
  rewrite (low_high_on_bounded n m rest U V Hn Hm HU HV).
  rewrite (split_colon_bounded n m U V Hn Hm HU HV).
  rewrite (get_k_v_plain n U u Hn Hu). parse_step.
  rewrite (get_k_v_plain m V v Hm Hv). parse_step.
  rewrite (low_on_bounded n m rest U V Hn Hm HU). parse_step.
  rewrite (high_on_digits n _ Hn). parse_step.
  rewrite (exact_on_bounded n m rest U V Hn Hm HU).
  reflexivity.
Qed.

Lemma parse_filter_bounded_witness :
  SizeMatcher_init false (PStr "10G:50GB") "size"
    = Ok (set_high (set_low (blank_size_matcher false (PStr "10G:50GB")) ("10", "GB"))
            ("50", "GB")) /\
  range_of (set_high (set_low (blank_size_matcher false (PStr "10G:50GB")) ("10", "GB"))
              ("50", "GB"))
    = Some (Bounded ("10", "GB") ("50", "GB")).
Proof.
  exact (parse_filter_bounded false "size" "10" "50" "B" "G" "G" "GB" "GB"
           eq_refl eq_refl eq_refl eq_refl).
Defined.

(** <digits><unit>: with M, G or T as unit: the filter holds a low bound
    only. *)
Theorem parse_filter_low (virt : bool) (k n : string) (U : ascii) (u : string) :
  is_run is_digit n = true -> unit_of_letter U = Some u ->
  let attr := PStr (n ++ String U (String ":" "")) in
  SizeMatcher_init virt attr k = Ok (set_low (blank_size_matcher virt attr) (n, u)) /\
  range_of (set_low (blank_size_matcher virt attr) (n, u)) = Some (LowOnly (n, u)).
Proof.
  intros Hn Hu attr. split; [|done].
  pose proof (unit_letter_upper U u Hu) as HU.
  unfold SizeMatcher_init, _parse_filter, attr. parse_step.
  rewrite (low_high_on_low n U Hn HU). parse_step.
  rewrite (low_on_low n U Hn HU).
  rewrite (get_k_v_digits_letter "" n ":" U eq_refl eq_refl Hn HU
           : _get_k_v (PStr (n ++ String U (String ":" ""))) = _).
  rewrite (normalize_unit_letter U u Hu). parse_step.
  rewrite (high_on_digits n _ Hn). parse_step.
  rewrite (exact_on_low n U Hn HU).
  reflexivity.
Qed.

Lemma parse_filter_low_witness :
  SizeMatcher_init false (PStr "50G:") "size"
    = Ok (set_low (blank_size_matcher false (PStr "50G:")) ("50", "GB")) /\
  range_of (set_low (blank_size_matcher false (PStr "50G:")) ("50", "GB"))
    = Some (LowOnly ("50", "GB")).
Proof. exact (parse_filter_low false "size" "50" "G" "GB" eq_refl eq_refl). Defined.

(** :<digits><unit> with M, G or T as unit and whatever follows: the filter
    holds a high bound only. *)
Theorem parse_filter_high (virt : bool) (k m rest : string) (V : ascii) (v : string) :
  is_run is_digit m = true -> unit_of_letter V = Some v ->
  let attr := PStr (String ":" (m ++ String V rest)) in
  SizeMatcher_init virt attr k = Ok (set_high (blank_size_matcher virt attr) (m, v)) /\
  range_of (set_high (blank_size_matcher virt attr) (m, v)) = Some (HighOnly (m, v)).
Proof.
  intros Hm Hv attr. split; [|done].
  pose proof (unit_letter_upper V v Hv) as HV.
  unfold SizeMatcher_init, _parse_filter, attr. parse_step.
  rewrite (low_high_on_high m rest V). parse_step.
  rewrite (low_on_high m rest V). parse_step.
  rewrite (high_on_high m rest V Hm HV).
  rewrite (get_k_v_digits_letter ":" m "" V eq_refl eq_refl Hm HV
           : _get_k_v (PStr (String ":" (m ++ String V ""))) = _).
  rewrite (normalize_unit_letter V v Hv). parse_step.
  rewrite (exact_on_high m rest V).
  reflexivity.
Qed.

Lemma parse_filter_high_witness :
  SizeMatcher_init false (PStr ":50GB") "size"
    = Ok (set_high (blank_size_matcher false (PStr ":50GB")) ("50", "GB")) /\
  range_of (set_high (blank_size_matcher false (PStr ":50GB")) ("50", "GB"))
    = Some (HighOnly ("50", "GB")).
Proof. exact (parse_filter_high false "size" "50" "B" "G" "GB" eq_refl eq_refl). Defined.

(** <digits><unit> with M, G or T as unit: the filter holds an exact size. *)
Theorem parse_filter_exact (virt : bool) (k n : string) (U : ascii) (u : string) :
  is_run is_digit n = true -> unit_of_letter U = Some u ->
  let attr := PStr (n ++ String U "") in
  SizeMatcher_init virt attr k = Ok (set_exact (blank_size_matcher virt attr) (n, u)) /\
  range_of (set_exact (blank_size_matcher virt attr) (n, u)) = Some (ExactSize (n, u)).
Proof.
  intros Hn Hu attr. split; [|done].
  pose proof (unit_letter_upper U u Hu) as HU.
  unfold SizeMatcher_init, _parse_filter, attr. parse_step.
  rewrite (low_high_on_exact n U Hn HU). parse_step.
  rewrite (low_on_exact n U Hn HU). parse_step.
  rewrite (high_on_digits n _ Hn). parse_step.
  rewrite (exact_on_exact n U Hn HU).
  rewrite (get_k_v_plain n U u Hn Hu).
  reflexivity.
Qed.

Lemma parse_filter_exact_witness :
  SizeMatcher_init false (PStr "20G") "size"
    = Ok (set_exact (blank_size_matcher false (PStr "20G")) ("20", "GB")) /\
  range_of (set_exact (blank_size_matcher false (PStr "20G")) ("20", "GB"))
    = Some (ExactSize ("20", "GB")).
Proof. exact (parse_filter_exact false "size" "20" "G" "GB" eq_refl eq_refl). Defined.

(** <digits><letter> with a capital letter other than M, G and T: the
    constructor raises, naming the letter. *)
Theorem parse_filter_unit_error (virt : bool) (k n : string) (U : ascii) :
  is_run is_digit n = true -> is_upper U = true -> unit_of_letter U = None ->
  SizeMatcher_init virt (PStr (n ++ String U "")) k
    = Raise (Exception ("Unit " ++ String U "" ++ " not supported")).
Proof.
  intros Hn HU Hu.
  unfold SizeMatcher_init, _parse_filter. parse_step.
  rewrite (low_high_on_exact n U Hn HU). parse_step.
  rewrite (low_on_exact n U Hn HU). parse_step.
  rewrite (high_on_digits n _ Hn). parse_step.
  rewrite (exact_on_exact n U Hn HU).
  rewrite (get_k_v_digits_letter "" n "" U eq_refl eq_refl Hn HU
           : _get_k_v (PStr (n ++ String U "")) = _).
  by rewrite (normalize_other_letter U Hu).
Qed.

Lemma parse_filter_unit_error_witness :
  SizeMatcher_init false (PStr "10P") "size" = Raise (Exception "Unit P not supported").
Proof. exact (parse_filter_unit_error false "size" "10" "P" eq_refl eq_refl eq_refl). Defined.

(** ** [SizeMatcher.__init__] never refuses a string for its shape *)

Lemma re_match_sound (r : regex) (s g : string) :
  re_match r s = Some g -> denote r g.
Proof.
  unfold re_match. destruct (match_here r true s) as [[m rest]|] eqn:H; [|done].
  intros [= <-]. by apply match_here_sound in H as [_ ?].
Qed.

Lemma normalize_suffix_cases (x : string) :
  (exists u, _normalize_suffix x = Ok u) \/ unit_error (_normalize_suffix x).
Proof.
  unfold _normalize_suffix.
  destruct (negb (existsb (String.eqb x) supported_suffixes)); [right; by exists x|].
  left. repeat match goal with |- context [if ?c then _ else _] => destruct c end; eauto.
Qed.

Lemma k_v_digits_letter_cases (pre n post : string) (U : ascii) :
  forallb_str is_separator pre = true -> forallb_str is_separator post = true ->
  is_run is_digit n = true -> is_upper U = true ->
  k_v_or_unit_error (pre ++ n ++ String U post).
Proof.
  intros Hpre Hpost Hn HU. unfold k_v_or_unit_error.
  rewrite (get_k_v_digits_letter pre n post U Hpre Hpost Hn HU).
  destruct (normalize_suffix_cases (String U "")) as [[u ->] | [x ->]].
  - left. by eexists.
  - right. by exists x.
Qed.

Lemma low_high_group (s g : string) :
  re_match re_low_high s = Some g ->
  exists lo hi, split_colon g = [lo; hi] /\ k_v_or_unit_error lo /\ k_v_or_unit_error hi.
Proof.
  intros H. apply re_match_sound in H.
  destruct H as (n & ? & -> & Hn & U & ? & -> & HU & c & ? & -> & Hc
                 & m & ? & -> & Hm & V & ? & -> & HV & ->).
  simpl in HU, Hc, HV. apply Ascii.eqb_eq in Hc as ->.
  exists (n ++ String U ""), (m ++ String V ""). split.
  - by apply split_colon_bounded.
  - split; [apply (k_v_digits_letter_cases "" n "" U) | apply (k_v_digits_letter_cases "" m "" V)];
      done.
Qed.

Lemma low_group (s g : string) : re_match re_low s = Some g -> k_v_or_unit_error g.
Proof.
  intros H. apply re_match_sound in H.
  destruct H as (n & ? & -> & Hn & U & ? & -> & HU & c & ? & -> & Hc & ->).
  simpl in HU, Hc. apply Ascii.eqb_eq in Hc as ->.
  by apply (k_v_digits_letter_cases "" n ":" U).
Qed.

Lemma high_group (s g : string) : re_match re_high s = Some g -> k_v_or_unit_error g.
Proof.
  intros H. apply re_match_sound in H.
  destruct H as (c & ? & -> & Hc & m & ? & -> & Hm & V & ? & -> & HV & ->).
  simpl in HV, Hc. apply Ascii.eqb_eq in Hc as ->.
  by apply (k_v_digits_letter_cases ":" m "" V).
Qed.

Lemma exact_group (s g : string) : re_match re_exact s = Some g -> k_v_or_unit_error g.
Proof.
  intros H. apply re_match_sound in H.
  destruct H as (n & ? & -> & Hn & U & ? & -> & HU & ->).
  simpl in HU. by apply (k_v_digits_letter_cases "" n "" U).
Qed.

(** Runs [_get_k_v] on a group: either the computation ends with the
    exception of [_normalize_suffix], or it goes on with a pair. *)
Ltac use_group H :=
  let kv := fresh "kv" in
  let x := fresh "x" in
  let E := fresh "Hkv" in
  destruct H as [[kv E] | [x E]]; rewrite E;
  [parse_step | right; by exists x].

Lemma size_matcher_init_cases (virt : bool) (s k : string) :
  (exists self, SizeMatcher_init virt (PStr s) k = Ok self) \/
  unit_error (SizeMatcher_init virt (PStr s) k).
Proof.
  unfold SizeMatcher_init, _parse_filter. parse_step.
  destruct (re_match re_low_high s) as [g|] eqn:Hre1; parse_step.
  - destruct (low_high_group s g Hre1) as (lo & hi & -> & Hlo & Hhi).
    use_group Hlo. use_group Hhi.
    destruct (re_match re_low s) as [g2|] eqn:Hre2; parse_step;
      [pose proof (low_group s g2 Hre2) as H2; use_group H2|];
      (destruct (re_match re_high s) as [g3|] eqn:Hre3; parse_step;
        [pose proof (high_group s g3 Hre3) as H3; use_group H3|]);
      (destruct (re_match re_exact s) as [g4|] eqn:Hre4; parse_step;
        [pose proof (exact_group s g4 Hre4) as H4; use_group H4|]);
      left; by eexists.
  - destruct (re_match re_low s) as [g2|] eqn:Hre2; parse_step;
      [pose proof (low_group s g2 Hre2) as H2; use_group H2|];
      (destruct (re_match re_high s) as [g3|] eqn:Hre3; parse_step;
        [pose proof (high_group s g3 Hre3) as H3; use_group H3|]);
      (destruct (re_match re_exact s) as [g4|] eqn:Hre4; parse_step;
        [pose proof (exact_group s g4 Hre4) as H4; use_group H4|]);
      left; by eexists.
Qed.

(** Whatever string it is given, [SizeMatcher.__init__] returns a matcher
    or raises the exception of an unsupported unit: it raises nothing else,
    and so never the exception of a string that cannot be parsed. *)
Theorem size_matcher_init_total (virt : bool) (s k : string) :
  (exists self, SizeMatcher_init virt (PStr s) k = Ok self) \/
  unit_error (SizeMatcher_init virt (PStr s) k).
Proof. apply size_matcher_init_cases. Qed.

(** ** The validator and the dispatch of matchers agree *)

Lemma finds_Ok {A} (a : A) : finds_matcher (Ok a).
Proof. intros msg. discriminate. Qed.

Lemma finds_Raise {A} (e : exn) :
  (forall msg, e <> NoMatcherFound msg) -> finds_matcher (@Raise A e).
Proof. intros H msg [= ->]. by apply (H msg). Qed.

Lemma finds_bind {A B} (r : result A) (k : A -> result B) :
  finds_matcher r -> (forall a, finds_matcher (k a)) -> finds_matcher (bind r k).
Proof.
  intros Hr Hk msg. destruct r as [a|e]; simpl; [apply Hk|].
  intros [= ->]. by apply (Hr msg).
Qed.

(** Takes apart a computation made of binds and tests, down to its
    returns and its raises. *)
Ltac finds :=
  repeat first
    [ apply finds_Ok
    | apply finds_Raise; intros ?; discriminate
    | apply finds_bind; [|intros ?]
    | match goal with
      | |- finds_matcher (if ?c then _ else _) => destruct c
      | |- finds_matcher (match ?x with _ => _ end) => destruct x
      | |- finds_matcher (let '(_, _) := ?x in _) => destruct x
      end
    | assumption ].

Lemma get_disk_key_finds (self : Matcher) (disk : option pydict) :
  finds_matcher (_get_disk_key self disk).
Proof. unfold _get_disk_key. finds. Qed.

Lemma parse_suffix_finds (v : pyval) : finds_matcher (_parse_suffix v).
Proof. unfold _parse_suffix, py_findall, index0, _normalize_suffix. finds. Qed.

Lemma py_float_finds (s : string) : finds_matcher (py_float s).
Proof. unfold py_float. finds. Qed.

Lemma to_byte_finds (tpl : float_arg * option string) : finds_matcher (to_byte tpl).
Proof.
  unfold to_byte, py_float_arg. apply finds_bind; [|intros ?; finds].
  destruct (fst tpl) as [f|[s|]]; [finds | apply py_float_finds | finds].
Qed.

(** No [compare] raises [NoMatcherFound]. *)
Lemma compare_finds (m : matcher) (disk : option pydict) : finds_matcher (compare m disk).
Proof.
  destruct m as [s|e|z]; simpl.
  - unfold SubstringMatcher_compare. apply finds_bind; [apply get_disk_key_finds|].
    intros ?. finds.
  - unfold EqualityMatcher_compare, py_int.
    apply finds_bind; [apply get_disk_key_finds|]. intros ?. finds.
  - unfold SizeMatcher_compare.
    apply finds_bind; [apply get_disk_key_finds|]. intros v.
    apply finds_bind; [unfold py_findall; finds|]. intros found.
    apply finds_bind; [unfold index0; finds|]. intros first.
    apply finds_bind; [apply py_float_finds|]. intros size.
    apply finds_bind; [apply parse_suffix_finds|]. intros suffix.
    apply finds_bind; [apply to_byte_finds|]. intros dev.
    unfold py_le, py_ge.
    repeat first
      [ apply finds_Ok
      | apply finds_Raise; intros ?; discriminate
      | apply finds_bind; [first [apply to_byte_finds | idtac]|intros ?]
      | match goal with
        | |- finds_matcher (if ?c then _ else _) => destruct c
        | |- finds_matcher (match ?x with _ => _ end) => destruct x
        end ].
Qed.

Lemma scan_inventory_finds (m : matcher) (inv : list disk) (devices : gset string) :
  finds_matcher (scan_inventory m inv devices).
Proof.
  revert devices. induction inv as [|d inv IH]; intros devices; simpl; [apply finds_Ok|].
  apply finds_bind; [unfold _reduce_inventory; finds|]. intros r.
  apply finds_bind; [apply compare_finds|]. intros v.
  destruct (negb (truthy v)); [apply IH|].
  destruct (truthy_opt (path d)); [apply IH|]. apply finds_Raise. intros ?. discriminate.
Qed.

Lemma size_matcher_init_finds (virt : bool) (val : pyval) (k : string) :
  finds_matcher (SizeMatcher_init virt val k).
Proof.
  destruct val as [|b|z|s]; try (apply finds_Raise; intros ?; discriminate).
  destruct (size_matcher_init_cases virt s k) as [[self ->] | [x ->]];
    [apply finds_Ok | apply finds_Raise; intros ?; discriminate].
Qed.

Lemma assign_matchers_no_matcher_iff (virt : bool) (name : string) (val : pyval) :
  (exists msg, _assign_matchers virt name val = Raise (NoMatcherFound msg)) <->
  name ∉ _supported_filters.
Proof.
  unfold _assign_matchers, _supported_filters. split.
  - intros [msg H] Hin.
    repeat (apply elem_of_cons in Hin as [-> | Hin]);
      [| | | | by apply elem_of_nil in Hin]; simpl in H; try discriminate.
    by apply (finds_bind _ _ (size_matcher_init_finds virt val "size")
                (fun z => finds_Ok (Size z)) msg).
  - intros Hnot.
    destruct (String.eqb_spec name "size") as [->|?];
      [destruct Hnot; apply elem_of_cons; auto|].
    destruct (String.eqb_spec name "model") as [->|?];
      [destruct Hnot; do 2 (apply elem_of_cons; right); apply elem_of_cons; auto|].
    destruct (String.eqb_spec name "vendor") as [->|?];
      [destruct Hnot; apply elem_of_cons; right; apply elem_of_cons; auto|].
    destruct (String.eqb_spec name "rotates") as [->|?];
      [destruct Hnot; do 3 (apply elem_of_cons; right); apply elem_of_cons; auto|].
    by eexists.
Qed.

(** [_assign_matchers] raises [NoMatcherFound] exactly for the names that
    the validator refuses. *)
Theorem assign_matchers_no_matcher (virt : bool) (name : string) (val : pyval) :
  (exists msg, _assign_matchers virt name val = Raise (NoMatcherFound msg)) <->
  name ∉ _supported_filters.
Proof. apply assign_matchers_no_matcher_iff. Qed.

Lemma filter_loop_finds (virt : bool) (inv : list disk) (device_filter : filter_map)
    (devices : gset string) :
  _check_filter device_filter = Ok tt ->
  finds_matcher (filter_loop virt inv device_filter devices).
Proof.
  revert devices.
  induction device_filter as [|[name val] rest IH]; intros devices H; [apply finds_Ok|].
  rewrite check_filter_cons in H.
  destruct (existsb (String.eqb name) _supported_filters) eqn:Hname; [|discriminate].
  apply existsb_eqb_elem in Hname. simpl in H. simpl.
  apply finds_bind.
  - intros msg Hm.
    by apply (proj1 (assign_matchers_no_matcher_iff virt name val) (ex_intro _ msg Hm)).
  - intros m. apply finds_bind; [apply scan_inventory_finds|]. intros ?. by apply IH.
Qed.

(** Once a [DriveGroup] is constructed, the selection of none of its three
    roles raises [NoMatcherFound]: for validated filters the last branch of
    [_assign_matchers] is never taken. *)
Theorem drive_group_finds_matchers (target : string) (data wal db : filter_map)
    (inv : list disk) (virt : bool) (self : DriveGroup) :
  DriveGroup_init target data wal db inv virt = Ok self ->
  finds_matcher (data_devices self) /\
  finds_matcher (wal_devices self) /\
  finds_matcher (db_devices self).
Proof.
  unfold DriveGroup_init, _check_filter_support. simpl. intros H.
  destruct (_check_filter data) as [[]|] eqn:Hd; [|discriminate].
  destruct (_check_filter wal) as [[]|] eqn:Hw; [|discriminate].
  destruct (_check_filter db) as [[]|] eqn:Hb; [|discriminate].
  injection H as <-.
  unfold data_devices, wal_devices, db_devices, _filter_devices. simpl.
  repeat split; by apply filter_loop_finds.
Qed.

Lemma drive_group_finds_matchers_witness :
  finds_matcher
    (data_devices {| target := "*"; data_device_attrs := two_filters;
                     wal_devices_attrs := []; db_devices_attrs := [("size", PStr ":10G")];
                     inventory := sample_inventory; grains_virtual := false |}).
Proof.
  exact (proj1 (drive_group_finds_matchers "*" two_filters [] [("size", PStr ":10G")]
                  sample_inventory false _ eq_refl)).
Defined.

(** ** When a selection returns, and what it returns *)

Lemma scan_inventory_returns (m : matcher) (inv : list disk) (devices : gset string) :
  (exists devices', scan_inventory m inv devices = Ok devices') <->
  forall d, d ∈ inv -> scans_cleanly m d.
Proof.
  revert devices. induction inv as [|d inv IH]; intros devices; simpl.
  - split; [|by eauto]. intros _ d Hd. by apply elem_of_nil in Hd.
  - split.
    + intros [devices' H]. inv_bind H. rename a into r. inv_bind H. rename a into v.
      intros d' Hd'. apply elem_of_cons in Hd' as [-> | Hd'].
      * exists r, v. do 2 (split; [done|]). intros Hv. rewrite Hv in H. simpl in H.
        by destruct (truthy_opt (path d)).
      * destruct (negb (truthy v)); [by apply (proj1 (IH devices)); eauto|].
        destruct (truthy_opt (path d)); [|discriminate].
        by apply (proj1 (IH ({[py_str_opt (path d)]} ∪ devices))); eauto.
    + intros H.
      destruct (H d) as (r & v & -> & Hm & Hp); [apply elem_of_cons; auto|].
      simpl. rewrite Hm. simpl.
      assert (Hrest : forall d', d' ∈ inv -> scans_cleanly m d')
        by (intros d' Hd'; apply H, elem_of_cons; auto).
      destruct (truthy v); simpl; [rewrite (Hp eq_refl)|]; by apply IH.
Qed.

Lemma filter_loop_returns (virt : bool) (inv : list disk) (device_filter : filter_map)
    (devices : gset string) :
  (exists devices', filter_loop virt inv device_filter devices = Ok devices') <->
  selection_clean virt inv device_filter.
Proof.
  revert devices. induction device_filter as [|[name val] rest IH]; intros devices; simpl.
  - split; [|by eauto]. intros _ n v H. by apply elem_of_nil in H.
  - split.
    + intros [devices' H]. inv_bind H. rename a into m. inv_bind H. rename a into devices1.
      intros n v Hin. apply elem_of_cons in Hin as [[= -> ->] | Hin].
      * exists m. split; [done|]. apply (scan_inventory_returns m inv devices). eauto.
      * apply (proj1 (IH devices1)); eauto.
    + intros H.
      destruct (H name val) as (m & -> & Hm); [apply elem_of_cons; auto|]. simpl.
      destruct (proj2 (scan_inventory_returns m inv devices) Hm) as [devices1 ->]. simpl.
      apply IH. intros n v Hin. apply H, elem_of_cons. auto.
Qed.

(** A selection returns a set exactly when every filter of the role gets a
    matcher and every matcher passes over every device without raising;
    in every other case it raises. *)
Theorem filter_devices_returns_iff (self : DriveGroup) (device_filter : filter_map) :
  (exists devices, _filter_devices self device_filter = Ok devices) <->
  selection_clean (grains_virtual self) (inventory self) device_filter.
Proof. apply filter_loop_returns. Qed.

(** The order of the filters of a role, and their repetition, change
    nothing in what a selection returns. *)
Theorem filter_devices_order (self : DriveGroup) (f g : filter_map) (devices : gset string) :
  (forall entry, entry ∈ f <-> entry ∈ g) ->
  _filter_devices self f = Ok devices ->
  _filter_devices self g = Ok devices.
Proof.
  intros Hfg Hf.
  assert (Hg : exists devices', _filter_devices self g = Ok devices').
  { apply filter_loop_returns. intros n v Hin. apply Hfg in Hin.
    by apply (proj1 (filter_loop_returns (grains_virtual self) (inventory self) f ∅)
                (ex_intro _ devices Hf) n v). }
  destruct Hg as [devices' Hg]. rewrite Hg. f_equal. apply set_eq. intros p.
  unfold _filter_devices in Hf, Hg.
  rewrite (filter_loop_elem _ _ _ _ _ Hf p), (filter_loop_elem _ _ _ _ _ Hg p).
  split; (intros [Hp | (n & v & Hin & Hset)]; [by left | right; exists n, v]);
    (split; [by apply Hfg | done]).
Qed.

Lemma filter_devices_order_witness :
  _filter_devices (sample_group sample_inventory false)
    [("model", PStr "modelB"); ("size", PStr "10G"); ("model", PStr "modelB")]
  = Ok {[ "/dev/vda"; "/dev/vdb" ]}.
Proof.
  apply (filter_devices_order (sample_group sample_inventory false) two_filters).
  - intros entry. unfold two_filters. rewrite !elem_of_cons, !elem_of_nil. tauto.
  - vm_compute. reflexivity.
Defined.

(** A selection never returns a path from elsewhere: every path it returns
    is the path of a device of the inventory whose [available] is [False],
    and it is not empty. *)
Theorem filter_devices_from_inventory (self : DriveGroup) (device_filter : filter_map)
    (devices : gset string) (p : string) :
  _filter_devices self device_filter = Ok devices -> p ∈ devices ->
  p <> "" /\
  exists d, d ∈ inventory self /\ path d = Some p /\ available d = Some (PBool false).
Proof.
  intros H Hp. unfold _filter_devices in H.
  apply (filter_loop_elem _ _ _ _ _ H p) in Hp as [Hp | (n & v & Hin & d & Hd & Ha & Hpath)];
    [by apply not_elem_of_empty in Hp|].
  split.
  - intros ->.
    destruct (proj1 (filter_loop_returns (grains_virtual self) (inventory self)
                       device_filter ∅) (ex_intro _ devices H) n v Hin)
      as (m & Hm & Hclean).
    destruct (Hclean d Hd) as (r & w & Hr & Hw & Hpw).
    destruct Ha as (m' & r' & w' & Hm' & Hr' & Hw' & Ht).
    rewrite Hm in Hm'. injection Hm' as <-. rewrite Hr in Hr'. injection Hr' as <-.
    rewrite Hw in Hw'. injection Hw' as <-.
    specialize (Hpw Ht). by rewrite Hpath in Hpw.
  - exists d. do 2 (split; [done|]).
    by apply (accepts_unavailable (grains_virtual self) n v).
Qed.

Lemma filter_devices_from_inventory_witness :
  "/dev/vdb" <> "" /\
  exists d, d ∈ sample_inventory /\ path d = Some "/dev/vdb" /\
            available d = Some (PBool false).
Proof.
  apply (filter_devices_from_inventory (sample_group sample_inventory false) two_filters
           {[ "/dev/vda"; "/dev/vdb" ]} "/dev/vdb").
  - vm_compute. reflexivity.
  - apply elem_of_union. right. by apply elem_of_singleton.
Defined.

(** More filters select more: what a role selects is contained in what the
    role selects with further filters. *)
Theorem filter_devices_monotone (self : DriveGroup) (f g : filter_map)
    (devices devices' : gset string) :
  _filter_devices self f = Ok devices ->
  _filter_devices self (f ++ g)%list = Ok devices' ->
  devices ⊆ devices'.
Proof.
  unfold _filter_devices. intros Hf Hfg. rewrite filter_loop_app, Hf in Hfg. simpl in Hfg.
  intros p Hp. apply (filter_loop_elem _ _ _ _ _ Hfg p). by left.
Qed.

Lemma filter_devices_monotone_witness :
  ({[ "/dev/vda" ]} : gset string) ⊆ {[ "/dev/vda"; "/dev/vdb" ]}.
Proof.
  apply (filter_devices_monotone (sample_group sample_inventory false)
           [("size", PStr "10G")] [("model", PStr "modelB")]); vm_compute; reflexivity.
Defined.

(** ** [Matcher._virtual] *)

Lemma is_physical_iff (val : pyval) : is_physical val = true <-> val = PStr "physical".
Proof.
  destruct val as [|b|z|s]; simpl; try (split; discriminate).
  rewrite String.eqb_eq. split; [by intros -> | by intros [= ->]].
Qed.

Lemma virtual_loop_flag (grains : list (string * pyval)) (flag : bool) :
  _virtual_loop grains flag = flag || _virtual_loop grains false.
Proof.
  revert flag. induction grains as [|[host val] rest IH]; intros flag; simpl.
  - by rewrite orb_false_r.
  - destruct (negb (is_physical val)); [|apply IH].
    rewrite (IH true). by rewrite orb_true_r.
Qed.

Lemma virtual_true_iff (grains : list (string * pyval)) :
  _virtual grains = true <->
  exists host val, (host, val) ∈ grains /\ val <> PStr "physical".
Proof.
  unfold _virtual. induction grains as [|[host val] rest IH]; simpl.
  - split; [discriminate|]. intros (h & v & Hin & _). by apply elem_of_nil in Hin.
  - destruct (is_physical val) eqn:Hval; simpl.
    + apply is_physical_iff in Hval as ->. rewrite IH. split.
      * intros (h & v & Hin & Hv). exists h, v. split; [apply elem_of_cons; auto | done].
      * intros (h & v & Hin & Hv). apply elem_of_cons in Hin as [[= -> ->] | Hin]; [done|].
        by exists h, v.
    + rewrite virtual_loop_flag. simpl. split; [|done]. intros _.
      exists host, val. split; [apply elem_of_cons; auto|].
      intros ->. discriminate.
Qed.

(** One host that is not physical makes every matcher tolerant: [_virtual]
    returns [True] exactly when the value of some host is not the string
    "physical", and [False] when there is no host at all. *)
Theorem virtual_iff (grains : list (string * pyval)) :
  _virtual grains = true <->
  exists host val, (host, val) ∈ grains /\ val <> PStr "physical".
Proof. exact (virtual_true_iff grains). Qed.

Lemma virtual_iff_witness :
  _virtual [("minion1", PStr "physical"); ("minion2", PStr "kvm")] = true.
Proof.
  apply (proj2 (virtual_iff [("minion1", PStr "physical"); ("minion2", PStr "kvm")])).
  exists "minion2", (PStr "kvm"). split; [|discriminate].
  apply elem_of_cons. right. apply elem_of_cons. auto.
Defined.

(** ** [_get_disk_key] *)

(** What [_get_disk_key] returns: a value that is true, found under the
    key, or under the fallback key when the key gave none; or [None], in a
    virtual environment, when neither gave one. *)
Theorem get_disk_key_returns (self : Matcher) (d : pydict) (v : pyval) :
  _get_disk_key self (Some d) = Ok v <->
  (truthy v = true /\
   (dict_get d (key self) = v \/
    (truthy (dict_get d (key self)) = false /\ truthy_opt (fallback_key self) = true /\
     dict_get d (py_str_opt (fallback_key self)) = v))) \/
  (v = PNone /\ virtual self = true /\ no_value self d).
Proof.
  unfold _get_disk_key, no_value.
  destruct (truthy (dict_get d (key self))) eqn:Hk; simpl; [rewrite Hk|].
  - split.
    + intros [= <-]. auto.
    + intros [[Hv [<- | (? & _)]] | (-> & _ & ? & _)]; congruence.
  - destruct (truthy_opt (fallback_key self)) eqn:Hf.
    + destruct (truthy (dict_get d (py_str_opt (fallback_key self)))) eqn:Hfb.
      * split.
        -- intros [= <-]. auto 6.
        -- intros [[Hv [<- | (_ & _ & <-)]] | (-> & _ & _ & Hn)];
             [congruence | done | specialize (Hn eq_refl); congruence].
      * destruct (virtual self) eqn:Hvirt.
        -- split.
           ++ intros [= <-]. right. auto.
           ++ intros [[Hv [<- | (_ & _ & <-)]] | (-> & _)]; [congruence | congruence | done].
        -- split; [discriminate|].
           intros [[Hv [<- | (_ & _ & <-)]] | (_ & ? & _)]; congruence.
    + rewrite Hk. destruct (virtual self) eqn:Hvirt.
      * split.
        -- intros [= <-]. right. repeat split; try done; congruence.
        -- intros [[Hv [<- | (_ & ? & _)]] | (-> & _)]; [congruence | congruence | done].
      * split; [discriminate|].
        intros [[Hv [<- | (_ & ? & _)]] | (_ & ? & _)]; congruence.
Qed.

Lemma get_disk_key_returns_witness :
  _get_disk_key {| attr := PStr "10G"; key := "human_readable_size";
                   fallback_key := Some "size"; virtual := false |}
    (Some twenty_gb_disk) = Ok (PStr "20.00 GB").
Proof.
  apply get_disk_key_returns. left. split; [reflexivity|]. right.
  repeat split; vm_compute; reflexivity.
Defined.

(** ** Substrings *)

Lemma prefix_app (a b : string) : String.prefix a b = true <-> exists post, b = a ++ post.
Proof.
  revert b. induction a as [|x a IH]; intros b.
  - destruct b; simpl; (split; [intros _; eexists; reflexivity | done]).
  - destruct b as [|y b]; simpl.
    + split; [done | intros [post H]; discriminate].
    + destruct (ascii_dec x y) as [->|Hne].
      * rewrite IH. split; intros [post H]; exists post.
        -- by rewrite H.
        -- change (String y b = String y (a ++ post)) in H. by injection H.
      * split; [done|]. intros [post H].
        change (String y b = String x (a ++ post)) in H. injection H. congruence.
Qed.

Lemma occurs_in_cases (a b : string) :
  occurs_in a b <->
  (exists post, b = a ++ post) \/
  (exists y b', b = String y b' /\ occurs_in a b').
Proof.
  split.
  - intros ([|y pre] & post & H).
    + left. by exists post.
    + right. exists y, (pre ++ a ++ post). split; [exact H|]. by exists pre, post.
  - intros [[post H] | (y & b' & -> & pre & post & ->)].
    + by exists "", post.
    + by exists (String y pre), post.
Qed.

Lemma py_in_occurs (a b : string) : py_in a b = true <-> occurs_in a b.
Proof.
  induction b as [|y b IH]; rewrite occurs_in_cases.
  - change (py_in a "") with (String.prefix a "" || false).
    rewrite orb_false_r, prefix_app. split; [auto|].
    intros [H | (y & b' & H & _)]; [done | discriminate].
  - change (py_in a (String y b)) with (String.prefix a (String y b) || py_in a b).
    rewrite orb_true_iff, prefix_app, IH. split.
    + intros [H | H]; [by left | right; by exists y, b].
    + intros [H | (y' & b' & [= -> ->] & H)]; [by left | by right].
Qed.

(** [SubstringMatcher.compare] returns [True] exactly when the text of the
    filter occurs in the text of the value that [_get_disk_key] returned,
    and [False] when it returned a value in which the text does not occur. *)
Theorem substring_compare_occurs (self : Matcher) (disk : option pydict) :
  (SubstringMatcher_compare self disk = Ok (PBool true) <->
   exists v, _get_disk_key self disk = Ok v /\
             occurs_in (py_str (attr self)) (py_str v)) /\
  (SubstringMatcher_compare self disk = Ok (PBool false) <->
   exists v, _get_disk_key self disk = Ok v /\
             ~ occurs_in (py_str (attr self)) (py_str v)).
Proof.
  unfold SubstringMatcher_compare.
  destruct (_get_disk_key self disk) as [v|e]; simpl.
  - destruct (py_in (py_str (attr self)) (py_str v)) eqn:Hin.
    + apply py_in_occurs in Hin. split; split; try done.
      * intros _. by exists v.
      * intros (w & [= <-] & Hno). by destruct Hno.
    + assert (Hno : ~ occurs_in (py_str (attr self)) (py_str v)).
      { intros H. apply py_in_occurs in H. congruence. }
      split; split; try done.
      * intros (w & [= <-] & H). by destruct Hno.
      * intros _. by exists v.
  - split; split; try done; intros (w & [=] & _).
Qed.

(** ** What a reduced disk holds *)

Lemma reduce_inventory_get (d : disk) (rd : pydict) :
  _reduce_inventory d = Ok (Some rd) ->
  dict_get rd "size" = sys_value d "human_readable_size" /\
  dict_get rd "vendor" = sys_value d "vendor" /\
  dict_get rd "model" = sys_value d "model" /\
  dict_get rd "human_readable_size" = PNone /\
  dict_get rd "rotates" = PNone /\
  dict_get rd "None" = PNone.
Proof.
  unfold _reduce_inventory.
  destruct (available d) as [[|[|]|z|s]|]; intros H; try discriminate.
  injection H as <-. unfold dict_get, sys_value.
  repeat split;
    repeat first [ rewrite lookup_insert_eq | rewrite lookup_insert_ne by discriminate ];
    try reflexivity; by rewrite lookup_singleton_ne.
Qed.

(** The keys the matchers of [_assign_matchers] read. *)
Lemma assign_matchers_keys (virt : bool) (name : string) (val : pyval) (m : matcher) :
  _assign_matchers virt name val = Ok m ->
  (name = "size" /\ key (matcher_base m) = "human_readable_size" /\
   fallback_key (matcher_base m) = Some "size" /\ exists z, m = Size z) \/
  ((name = "model" \/ name = "vendor") /\ key (matcher_base m) = name /\
   fallback_key (matcher_base m) = None /\ exists s, m = Substring s) \/
  (name = "rotates" /\ key (matcher_base m) = name /\
   fallback_key (matcher_base m) = None /\ exists e, m = Equality e).
Proof.
  unfold _assign_matchers. intros H.
  destruct (String.eqb_spec name "size") as [->|_].
  { inv_bind H. injection H as <-. left. simpl.
    unfold SizeMatcher_init in Hstep. apply parse_filter_base in Hstep.
    rewrite Hstep. simpl. eauto 6. }
  destruct (String.eqb_spec name "model") as [->|_].
  { injection H as <-. right. left. simpl. eauto 6. }
  destruct (String.eqb_spec name "vendor") as [->|_].
  { injection H as <-. right. left. simpl. eauto 6. }
  destruct (String.eqb_spec name "rotates") as [->|_]; [|discriminate].
  injection H as <-. right. right. simpl. eauto 6.
Qed.

(** A [compare] looks at the disk through [_get_disk_key] only. *)
Lemma compare_through_key (m : matcher) (r r' : option pydict) :
  _get_disk_key (matcher_base m) r = _get_disk_key (matcher_base m) r' ->
  compare m r = compare m r'.
Proof.
  intros H. destruct m as [s|q|z]; simpl in *;
    [unfold SubstringMatcher_compare | unfold EqualityMatcher_compare
    | unfold SizeMatcher_compare]; by rewrite H.
Qed.

(** [_get_disk_key] looks at the disk under the key and the fallback key
    only. *)
Lemma get_disk_key_through_keys (self : Matcher) (d d' : pydict) :
  dict_get d (key self) = dict_get d' (key self) ->
  dict_get d (py_str_opt (fallback_key self)) = dict_get d' (py_str_opt (fallback_key self)) ->
  _get_disk_key self (Some d) = _get_disk_key self (Some d').
Proof. intros H1 H2. unfold _get_disk_key. by rewrite H1, H2. Qed.

(** ** The filters [model] and [vendor] *)

Lemma label_key (name : string) (d : disk) (rd : pydict) :
  name = "model" \/ name = "vendor" ->
  _reduce_inventory d = Ok (Some rd) ->
  dict_get rd name = sys_value d name.
Proof.
  intros Hname Hr. destruct (reduce_inventory_get d rd Hr) as (_ & Hv & Hm & _).
  by destruct Hname as [-> | ->].
Qed.

Lemma label_matcher (virt : bool) (name : string) (val : pyval) :
  name = "model" \/ name = "vendor" ->
  _assign_matchers virt name val = Ok (Substring (SubstringMatcher_init virt val name None)).
Proof. by intros [-> | ->]. Qed.

Lemma reduce_inventory_unavailable (d : disk) :
  available d = Some (PBool false) -> exists rd, _reduce_inventory d = Ok (Some rd).
Proof. unfold _reduce_inventory. intros ->. eauto. Qed.

(** The whole of a [model] or [vendor] filter on one device: what
    [accepts] unfolds to. *)
Lemma label_accepts (virt : bool) (name : string) (val : pyval) (d : disk) :
  name = "model" \/ name = "vendor" ->
  available d = Some (PBool false) ->
  accepts virt name val d <->
  exists rd, _reduce_inventory d = Ok (Some rd) /\
    SubstringMatcher_compare (SubstringMatcher_init virt val name None) (Some rd)
      = Ok (PBool true).
Proof.
  intros Hname Hav. destruct (reduce_inventory_unavailable d Hav) as [rd Hr]. split.
  - intros (m & r & v & Hm & Hr' & Hc & Hv). exists rd. split; [done|].
    rewrite (label_matcher virt name val Hname) in Hm. injection Hm as <-.
    rewrite Hr in Hr'. injection Hr' as <-.
    unfold __match in Hc. simpl in Hc.
    unfold SubstringMatcher_compare in *.
    destruct (_get_disk_key _ _) as [w|e]; simpl in *; [|done].
    destruct (py_in _ _); [done|]. injection Hc as <-. done.
  - intros (rd' & Hr' & Hc).
    exists (Substring (SubstringMatcher_init virt val name None)), (Some rd'), (PBool true).
    split; [by apply label_matcher | done].
Qed.

(** On a device with a model (or a vendor), the filter [model] (or
    [vendor]) accepts the device exactly when the text of the filter occurs
    in the model: on a physical host and on a virtual one. *)
Theorem label_filter_accepts (virt : bool) (name : string) (val : pyval) (d : disk)
    (text : string) :
  name = "model" \/ name = "vendor" ->
  labelled_disk d name text ->
  accepts virt name val d <-> occurs_in (py_str val) text.
Proof.
  intros Hname (Hav & Htext & Hne).
  rewrite (label_accepts virt name val d Hname Hav).
  destruct (reduce_inventory_unavailable d Hav) as [rd Hr].
  assert (Hkey : _get_disk_key (SubstringMatcher_init virt val name None) (Some rd)
                 = Ok (PStr text)).
  { unfold _get_disk_key. simpl.
    rewrite (label_key name d rd Hname Hr), Htext. simpl.
    apply String.eqb_neq in Hne. rewrite Hne. cbn [negb andb truthy].
    by rewrite Hne. }
  split.
  - intros (rd' & Hr' & Hc). rewrite Hr in Hr'. injection Hr' as <-.
    unfold SubstringMatcher_compare in Hc. rewrite Hkey in Hc. cbn [bind py_str attr SubstringMatcher_init] in Hc.
    apply py_in_occurs. by destruct (py_in (py_str val) text).
  - intros Hocc. exists rd. split; [done|].
    unfold SubstringMatcher_compare. rewrite Hkey. cbn [bind py_str attr SubstringMatcher_init].
    apply py_in_occurs in Hocc. by rewrite Hocc.
Qed.

Lemma label_filter_accepts_witness :
  accepts false "model" (PStr "modelB")
    (sample_disk "/dev/vdb" "20.00 GB" "modelB-42" "intel" "0" 21474836480).
Proof.
  refine (proj2 (label_filter_accepts false "model" (PStr "modelB")
                   (sample_disk "/dev/vdb" "20.00 GB" "modelB-42" "intel" "0" 21474836480)
                   "modelB-42" _ _) _).
  - left. reflexivity.
  - split; [reflexivity|]. split; [vm_compute; reflexivity | discriminate].
  - exists "", "-42". reflexivity.
Defined.

(** On a virtual host, a device without a model (or a vendor) is compared
    as the text "None": the filter accepts the device exactly when its text
    occurs in "None". *)
Theorem label_filter_blank_virtual (name : string) (val : pyval) (d : disk) :
  name = "model" \/ name = "vendor" ->
  available d = Some (PBool false) ->
  truthy (sys_value d name) = false ->
  accepts true name val d <-> occurs_in (py_str val) "None".
Proof.
  intros Hname Hav Hblank.
  rewrite (label_accepts true name val d Hname Hav).
  destruct (reduce_inventory_unavailable d Hav) as [rd Hr].
  assert (Hkey : _get_disk_key (SubstringMatcher_init true val name None) (Some rd)
                 = Ok PNone).
  { unfold _get_disk_key. simpl.
    rewrite (label_key name d rd Hname Hr), Hblank. cbn [negb andb].
    by rewrite Hblank. }
  split.
  - intros (rd' & Hr' & Hc). rewrite Hr in Hr'. injection Hr' as <-.
    unfold SubstringMatcher_compare in Hc. rewrite Hkey in Hc. cbn [bind py_str attr SubstringMatcher_init] in Hc.
    apply py_in_occurs. by destruct (py_in (py_str val) "None").
  - intros Hocc. exists rd. split; [done|].
    unfold SubstringMatcher_compare. rewrite Hkey. cbn [bind py_str attr SubstringMatcher_init].
    apply py_in_occurs in Hocc. by rewrite Hocc.
Qed.

Lemma label_filter_blank_virtual_witness :
  accepts true "vendor" (PStr "on") virtual_disk.
Proof.
  refine (proj2 (label_filter_blank_virtual "vendor" (PStr "on") virtual_disk _ _ _) _).
  - right. reflexivity.
  - reflexivity.
  - vm_compute. reflexivity.
  - exists "N", "e". reflexivity.
Defined.

(** ** What a selection reads of a device *)

Lemma reduce_inventory_available (d d' : disk) :
  available d = available d' ->
  (exists rd rd', _reduce_inventory d = Ok (Some rd) /\ _reduce_inventory d' = Ok (Some rd')) \/
  (_reduce_inventory d = _reduce_inventory d' /\
   forall rd, _reduce_inventory d <> Ok (Some rd)).
Proof.
  unfold _reduce_inventory. intros <-.
  destruct (available d) as [[|[|]|z|s]|]; eauto.
Qed.

(** A matcher looks at three values of a device: [human_readable_size],
    [vendor] and [model] of [sys_api]. Two devices that agree on them and on
    [available] get the same verdict, or the same exception, from every
    matcher: the path of a device, its [sys_api.size] (copied into
    [bare_size]) and its other attributes play no part. *)
Theorem match_reads_three_values (virt : bool) (name : string) (val : pyval) (m : matcher)
    (d d' : disk) :
  _assign_matchers virt name val = Ok m ->
  available d = available d' ->
  sys_value d "human_readable_size" = sys_value d' "human_readable_size" ->
  sys_value d "vendor" = sys_value d' "vendor" ->
  sys_value d "model" = sys_value d' "model" ->
  (r <- _reduce_inventory d ;; __match r m) = (r <- _reduce_inventory d' ;; __match r m).
Proof.
  intros Hm Hav Hsize Hvendor Hmodel.
  destruct (reduce_inventory_available d d' Hav) as [(rd & rd' & Hr & Hr') | [-> _]]; [|done].
  rewrite Hr, Hr'. cbn [bind]. unfold __match. apply compare_through_key.
  destruct (reduce_inventory_get d rd Hr) as (Hs & Hv & Hmo & Hh & Hro & Hno).
  destruct (reduce_inventory_get d' rd' Hr') as (Hs' & Hv' & Hmo' & Hh' & Hro' & Hno').
  destruct (assign_matchers_keys virt name val m Hm)
    as [(_ & Hk & Hf & _) | [(Hname & Hk & Hf & _) | (Hname & Hk & Hf & _)]];
    apply get_disk_key_through_keys; rewrite ?Hk, ?Hf; cbn [py_str_opt].
  - by rewrite Hh, Hh'.
  - by rewrite Hs, Hs'.
  - destruct Hname as [-> | ->]; [by rewrite Hmo, Hmo' | by rewrite Hv, Hv'].
  - by rewrite Hno, Hno'.
  - rewrite Hname. by rewrite Hro, Hro'.
  - by rewrite Hno, Hno'.
Qed.

Lemma match_reads_three_values_witness :
  (r <- _reduce_inventory
          (sample_disk "/dev/vdb" "20.00 GB" "modelB" "intel" "0" 21474836480) ;;
   __match r (Substring (SubstringMatcher_init false (PStr "B") "model" None)))
  = (r <- _reduce_inventory
            (sample_disk "/dev/sdx" "20.00 GB" "modelB" "intel" "1" 7) ;;
     __match r (Substring (SubstringMatcher_init false (PStr "B") "model" None))).
Proof.
  apply (match_reads_three_values false "model" (PStr "B")); reflexivity.
Defined.

(** ** The filter [size] on a reduced disk *)

(** The size matcher asks a reduced disk for [human_readable_size], which
    no reduced disk has, and finds [sys_api.human_readable_size] under its
    fallback key [size]. When the device has none, the matcher does not pass
    over the device: on a physical host [_get_disk_key] raises, and on a
    virtual one [re.findall] raises on the [None] it returned. *)
Theorem size_filter_reads_human_readable_size (virt : bool) (val : pyval) (m : matcher)
    (d : disk) (rd : pydict) :
  _assign_matchers virt "size" val = Ok m ->
  _reduce_inventory d = Ok (Some rd) ->
  (truthy (sys_value d "human_readable_size") = true ->
   _get_disk_key (matcher_base m) (Some rd) = Ok (sys_value d "human_readable_size")) /\
  (truthy (sys_value d "human_readable_size") = false ->
   __match (Some rd) m =
     if virt then Raise (TypeError "expected string or bytes-like object")
     else Raise (Exception "No disk_key found for human_readable_size or size")).
Proof.
  intros Hm Hr.
  destruct (reduce_inventory_get d rd Hr) as (Hs & _ & _ & Hh & _ & _).
  destruct (assign_matchers_base virt "size" val m Hm) as [Hvirt _].
  destruct (assign_matchers_keys virt "size" val m Hm)
    as [(_ & Hk & Hf & z & ->) | [([[=] | [=]] & _) | ([=] & _)]].
  simpl in Hk, Hf, Hvirt. split; intros Hsize.
  - simpl. unfold _get_disk_key. rewrite Hk, Hf, Hh. simpl. by rewrite Hs, Hsize.
  - unfold __match. simpl. unfold SizeMatcher_compare, _get_disk_key.
    rewrite Hk, Hf, Hh, Hvirt. simpl. rewrite Hs, Hsize. by destruct virt.
Qed.

Lemma size_filter_reads_human_readable_size_witness :
  _get_disk_key (base (set_exact (blank_size_matcher false (PStr "20G")) ("20", "GB")))
    (Some (<["model" := PStr "modelB"]> (<["bare_size" := PInt 21474836480]>
           (<["vendor" := PStr "intel"]> (<["size" := PStr "20.00 GB"]>
            {[ "path" := PStr "/dev/vdb" ]})))))
  = Ok (PStr "20.00 GB").
Proof.
  apply (proj1 (size_filter_reads_human_readable_size false (PStr "20G")
                  (Size (set_exact (blank_size_matcher false (PStr "20G")) ("20", "GB")))
                  (sample_disk "/dev/vdb" "20.00 GB" "modelB" "intel" "0" 21474836480)
                  _ eq_refl eq_refl)).
  reflexivity.
Defined.

(** ** The verdicts *)

(** The substring and the equality matcher answer [True] or [False]; the
    size matcher answers [True] or, falling off its end, [None]: it never
    answers [False]. *)
Theorem compare_verdicts (m : matcher) (disk : option pydict) (v : pyval) :
  compare m disk = Ok v ->
  match m with
  | Size _ => v = PBool true \/ v = PNone
  | _ => exists b, v = PBool b
  end.
Proof.
  destruct m as [s|q|z]; simpl.
  - unfold SubstringMatcher_compare. intros H. inv_bind H.
    destruct (py_in _ _); injection H as <-; eauto.
  - unfold EqualityMatcher_compare. intros H. do 3 inv_bind H.
    destruct (_ =? _); injection H as <-; eauto.
  - unfold SizeMatcher_compare. intros H. do 6 inv_bind H.
    repeat match type of H with
           | (if ?c then _ else _) = Ok _ => destruct c
           | bind _ _ = Ok _ => inv_bind H
           end; try discriminate;
      injection H as <-; unfold true_or_none;
      repeat match goal with |- context [if ?c then _ else _] => destruct c end; auto.
Qed.

Lemma compare_verdicts_witness :
  PNone = PBool true \/ PNone = PNone.
Proof.
  apply (compare_verdicts
           (Size (set_exact (blank_size_matcher false (PStr "10G")) ("10", "GB")))
           (Some twenty_gb_disk) PNone).
  vm_compute. reflexivity.
Defined.

(** ** A matcher and the hosts it asks *)

Lemma virtual_false_iff (grains : list (string * pyval)) :
  _virtual grains = false <->
  forall host val, (host, val) ∈ grains -> val = PStr "physical".
Proof.
  split.
  - intros Hv host val Hin. apply is_physical_iff.
    destruct (is_physical val) eqn:Hval; [done|].
    assert (_virtual grains = true); [|congruence].
    apply virtual_true_iff. exists host, val. split; [done|].
    intros H. apply is_physical_iff in H. congruence.
  - intros Hall. destruct (_virtual grains) eqn:Hv; [|done].
    apply virtual_true_iff in Hv as (host & val & Hin & Hval).
    by destruct Hval, (Hall host val).
Qed.

(** A matcher asks every host of the target for its [virtual] grain when it
    is constructed. With a disk that has no value under its key, it returns
    [None] exactly when some host is not physical, and raises exactly when
    every host is: one virtual machine among the hosts makes the matchers
    tolerant on all of them. *)
Theorem matcher_tolerates_missing_key (grains : list (string * pyval)) (val : pyval)
    (k : string) (d : pydict) :
  truthy (dict_get d k) = false ->
  (_get_disk_key (Matcher_new grains val k) (Some d) = Ok PNone <->
   exists host v, (host, v) ∈ grains /\ v <> PStr "physical") /\
  (_get_disk_key (Matcher_new grains val k) (Some d)
     = Raise (Exception ("No disk_key found for " ++ k ++ " or None")) <->
   forall host v, (host, v) ∈ grains -> v = PStr "physical").
Proof.
  intros Hkey. rewrite <- virtual_true_iff, <- virtual_false_iff.
  unfold _get_disk_key, Matcher_new. cbn [Matcher_init key fallback_key virtual].
  rewrite Hkey. cbn [negb andb truthy_opt]. rewrite Hkey.
  destruct (_virtual grains); split; split; done.
Qed.

Lemma matcher_tolerates_missing_key_witness :
  _get_disk_key
    (Matcher_new [("minion1", PStr "physical"); ("minion2", PStr "kvm")] (PStr "foo") "model")
    (Some path_only_disk) = Ok PNone.
Proof.
  refine (proj2 (proj1 (matcher_tolerates_missing_key
                          [("minion1", PStr "physical"); ("minion2", PStr "kvm")]
                          (PStr "foo") "model" path_only_disk _)) _).
  - vm_compute. reflexivity.
  - exists "minion2", (PStr "kvm"). split; [|discriminate].
    apply elem_of_cons. right. apply elem_of_cons. auto.
Defined.

(** ** [DriveGroup.__init__] *)

Lemma check_filter_app (f g : filter_map) :
  _check_filter (f ++ g)%list = (_check_filter f ;;; _check_filter g).
Proof.
  induction f as [|[k v] f IH]; [done|].
  change (_check_filter ((k, v) :: (f ++ g)%list)
          = (_check_filter ((k, v) :: f) ;;; _check_filter g)).
  rewrite !check_filter_cons. by destruct (negb _).
Qed.

(** The three roles are validated in the order data, wal, db, as one dict
    made of the three would be: the constructor raises what the validator
    raises on their concatenation (the first unsupported key in that order),
    and otherwise returns the object that holds what it was given. *)
Theorem drive_group_init_validates (target : string) (data wal db : filter_map)
    (inv : list disk) (virt : bool) :
  DriveGroup_init target data wal db inv virt =
  (_check_filter (data ++ wal ++ db)%list ;;;
   Ok (drive_group_of target data wal db inv virt)).
Proof.
  rewrite !check_filter_app. unfold DriveGroup_init, _check_filter_support.
  cbn [data_device_attrs wal_devices_attrs db_devices_attrs].
  destruct (_check_filter data) as [[]|e]; [|done].
  destruct (_check_filter wal) as [[]|e]; [|done].
  by destruct (_check_filter db) as [[]|e].
Qed.
